(** * ScreenCapper: a shallow embedding of [ScreenCap.py]

    The script walks the videos of an input directory.  For each video it
    empties two working directories, decodes the video frame by frame,
    writes one snapshot per frame and the cropped detections of the chosen
    detector, and finally copies both working directories below
    [output/<base name>/].

    The embedding keeps the shape of the script:
    - Python strings are [string]s; [str.lower], [str.endswith],
      [str.strip], [os.path.splitext] and [os.path.join] are written out.
      [lower] and [strip] are those of Python on ASCII text only, and
      what is proved through them is proved of ASCII names and answers
      ([PyStr.is_ascii]);
    - a numpy image is a list of rows of pixels, slices follow the Python
      slice rules;
    - a confidence score is a binary floating-point number, compared with
      0.5 as the hardware compares it;
    - a directory is a finite map from entry names to nodes, and
      [os.listdir] lists it in the order of the map; a file that
      [shutil.copytree] has created and not yet filled is there as a
      node of its own;
    - a function with effects is a state transformer that returns either
      a value or the Python exception it raised, with the file system as
      it was when the exception left the function;
    - the libraries the script calls into (face_recognition, the YOLO
      model, importlib) are variables of a section; a call into the first
      two returns a value or raises.

    [cv2.imwrite] raises on an image without pixels and returns [False]
    where a directory is in the way of the file; [cap.read()] does not
    hand out an image without pixels.

    Not modelled: the tqdm progress bars (they write to stderr only), the
    lossy JPEG encoding (a written file holds the image itself), the
    imports and the creation of the directories at the top of the
    script (the state describes the directories once they exist), and
    the loading of the YOLO model (the loaded model is a variable).  The
    entries of [output/] are directories. *)

From Stdlib Require Import Ascii String PrimFloat.
From stdpp Require Import gmap strings list fin_maps pretty.

Open Scope Z_scope.

(** ** Python strings *)

Module PyStr.

(** The strings on which this module follows Python: those of ASCII
    characters.  On other characters [str.lower] and [str.strip] do more
    than [lower] and [strip] below (the Kelvin sign lowers to [k], the
    no-break space is white space). *)
Fixpoint is_ascii (s : string) : bool :=
  match s with
  | EmptyString => true
  | String c s' => ((nat_of_ascii c <? 128)%nat && is_ascii s')%bool
  end.

(** [c.lower()] on an ASCII character. *)
Definition lower_ascii (c : ascii) : ascii :=
  let n := nat_of_ascii c in
  if ((65 <=? n)%nat && (n <=? 90)%nat)%bool then ascii_of_nat (n + 32) else c.

(** [s.lower()], for an ASCII [s] *)
Fixpoint lower (s : string) : string :=
  match s with
  | EmptyString => EmptyString
  | String c s' => String (lower_ascii c) (lower s')
  end.

(** [s.endswith(suffix)]: [s] is [suffix], or the tail of [s] ends with it. *)
Fixpoint endswith (s suffix : string) : bool :=
  if String.eqb s suffix then true
  else match s with
       | EmptyString => false
       | String _ s' => endswith s' suffix
       end.

(** [s.endswith((t1, ..., tn))] *)
Definition endswith_any (s : string) (suffixes : list string) : bool :=
  existsb (endswith s) suffixes.

(** [s.startswith(prefix)] *)
Definition startswith (s pre : string) : bool := String.prefix pre s.

(** [s.rfind(c)] for a one-character [c]; [i] is the index of the head
    of [s].  The result is -1 when [c] does not occur. *)
Fixpoint rfind_from (c : ascii) (s : string) (i : Z) : Z :=
  match s with
  | EmptyString => -1
  | String a s' =>
      let r := rfind_from c s' (i + 1) in
      if 0 <=? r then r else if Ascii.eqb a c then i else -1
  end.

Definition rfind (c : ascii) (s : string) : Z := rfind_from c s 0.

(** [" ".join(l)] *)
Fixpoint join (sep : string) (l : list string) : string :=
  match l with
  | [] => ""
  | [s] => s
  | s :: rest => s +:+ sep +:+ join sep rest
  end.

(** The ASCII characters [str.strip()] removes. *)
Definition is_space (c : ascii) : bool :=
  let n := nat_of_ascii c in
  ((n =? 32)%nat || ((9 <=? n)%nat && (n <=? 13)%nat)
   || ((28 <=? n)%nat && (n <=? 31)%nat))%bool.

Fixpoint lstrip (s : string) : string :=
  match s with
  | String c s' => if is_space c then lstrip s' else s
  | EmptyString => EmptyString
  end.

Fixpoint rstrip (s : string) : string :=
  match s with
  | EmptyString => EmptyString
  | String c s' =>
      match rstrip s' with
      | EmptyString => if is_space c then EmptyString else String c EmptyString
      | t => String c t
      end
  end.

(** [s.strip()], for an ASCII [s] *)
Definition strip (s : string) : string := rstrip (lstrip s).

End PyStr.

(** ** [os.path] *)

Module OsPath.

(** The loop of [genericpath._splitext] that skips leading dots: is
    every character of [p[filenameIndex : filenameIndex + n]] a dot? *)
Fixpoint only_dots (p : string) (filenameIndex n : nat) : bool :=
  match n with
  | O => true
  | S n' =>
      match String.get filenameIndex p with
      | Some "."%char => only_dots p (S filenameIndex) n'
      | _ => false
      end
  end.

(** [os.path.splitext(p)] *)
Definition splitext (p : string) : string * string :=
  let sepIndex := PyStr.rfind "/" p in
  let dotIndex := PyStr.rfind "." p in
  if sepIndex <? dotIndex then
    let filenameIndex := Z.to_nat (sepIndex + 1) in
    if only_dots p filenameIndex (Z.to_nat dotIndex - filenameIndex)
    then (p, "")
    else (substring 0 (Z.to_nat dotIndex) p,
          substring (Z.to_nat dotIndex) (String.length p - Z.to_nat dotIndex) p)
  else (p, "").

(** [os.path.join(a, b)] (posixpath) *)
Definition join (a b : string) : string :=
  if PyStr.startswith b "/" then b
  else if (String.eqb a "" || PyStr.endswith a "/")%bool then a +:+ b
  else a +:+ "/" +:+ b.

End OsPath.

(** ** Images *)

(** A pixel in OpenCV's channel order (blue, green, red). *)
Definition pixel : Type := Z * Z * Z.

(** A decoded frame: rows of pixels. *)
Definition image : Type := list (list pixel).

(** Python slice bounds: a negative index counts from the end, and both
    ends are clipped to the length. *)
Definition slice_index (n i : Z) : Z :=
  if i <? 0 then Z.max (i + n) 0 else Z.min i n.

(** [l[a:b]] *)
Definition slice {A} (l : list A) (a b : Z) : list A :=
  let n := Z.of_nat (length l) in
  let a' := slice_index n a in
  let b' := slice_index n b in
  take (Z.to_nat (b' - a')) (drop (Z.to_nat a') l).

(** [frame[r0:r1, c0:c1]] *)
Definition crop (frame : image) (r0 r1 c0 c1 : Z) : image :=
  List.map (fun row : list pixel => slice row c0 c1) (slice frame r0 r1).

(** [img.empty()] of the matrix OpenCV makes of [img]: it holds no pixel,
    as the crop of a box without height or without width does. *)
Definition image_empty (img : image) : bool :=
  forallb (fun row : list pixel => match row with [] => true | _ => false end) img.

(** [cv2.cvtColor(frame, cv2.COLOR_BGR2RGB)] *)
Definition cvtColor_BGR2RGB (frame : image) : image :=
  List.map (List.map (fun px : pixel => let '(b, g, r) := px in (r, g, b))) frame.

(** ** The file system and the process state *)

(** An entry of a directory: a regular file with its image, a regular
    file that was opened for writing and does not hold all of its
    content yet (what [shutil.copyfile] leaves when it is interrupted),
    or a subdirectory (its content plays no role in the script). *)
Inductive node :=
| File (data : image)
| Partial
| Subdir.

(** What [cv2.VideoCapture(path)] gives for an entry of the input
    directory: whether the container could be opened, and what the
    successive calls of [read] meet: [Some frame] is a packet that
    decodes to [frame], [None] one that does not decode.  After the last
    packet the stream is exhausted. *)
Record capture := mkCapture {
  opened : bool;
  packets : list (option image)
}.

(** The directories below [top_working_dir] and the standard output.
    [input] is the listing of [input/] in the order of [os.listdir];
    [output] maps the name of a directory of [output/] to its
    subdirectories. *)
Record state := mkState {
  input : list (string * capture);
  screencaps : gmap string node;
  faces : gmap string node;
  output : gmap string (gmap string (gmap string node));
  stdout : list string
}.

(** The two working directories. *)
Inductive workdir := Screencaps | Faces.

Definition get_dir (d : workdir) (st : state) : gmap string node :=
  match d with
  | Screencaps => screencaps st
  | Faces => faces st
  end.

Definition set_dir (d : workdir) (m : gmap string node) (st : state) : state :=
  match d with
  | Screencaps => mkState (input st) m (faces st) (output st) (stdout st)
  | Faces => mkState (input st) (screencaps st) m (output st) (stdout st)
  end.

Definition set_output (o : gmap string (gmap string (gmap string node)))
    (st : state) : state :=
  mkState (input st) (screencaps st) (faces st) o (stdout st).

Definition set_stdout (l : list string) (st : state) : state :=
  mkState (input st) (screencaps st) (faces st) (output st) l.

(** Base directories for the working environment *)
Definition top_working_dir : string := "/ScreenCap".
Definition input_dir : string := OsPath.join top_working_dir "input".
Definition work_dir : string := OsPath.join top_working_dir "Work".
Definition output_dir : string := OsPath.join top_working_dir "output".

Definition dir_name (d : workdir) : string :=
  match d with
  | Screencaps => "screencaps"
  | Faces => "faces"
  end.

Definition screencaps_dir : string := OsPath.join work_dir (dir_name Screencaps).
Definition faces_dir : string := OsPath.join work_dir (dir_name Faces).

Definition dir_path (d : workdir) : string := OsPath.join work_dir (dir_name d).

(** ** Exceptions and the monad of the script *)

Inductive exn :=
| SystemExit (code : Z)
| IsADirectoryError (path : string)
| FileNotFoundError (path : string)
| FileExistsError (path : string)
| Cv2Error (path : string)
| LibraryError (msg : string).

Inductive result (A : Type) :=
| Ok (a : A)
| Raise (e : exn).

Arguments Ok {A} a.
Arguments Raise {A} e.

(** A computation runs on a state and gives a value or the exception it
    raised, together with the state it leaves behind. *)
Definition M (A : Type) : Type := state -> result A * state.

Definition ret {A} (a : A) : M A := fun st => (Ok a, st).

Definition raise {A} (e : exn) : M A := fun st => (Raise e, st).

Definition bind {A B} (m : M A) (k : A -> M B) : M B :=
  fun st =>
    match m st with
    | (Ok a, st') => k a st'
    | (Raise e, st') => (Raise e, st')
    end.

(** The result of a library call that touches no state. *)
Definition lift {A} (r : result A) : M A := fun st => (r, st).

Declare Scope py_scope.
Delimit Scope py_scope with py.
Notation "'let*' x ':=' m 'in' k" := (bind m (fun x => k))
  (at level 10, x name, m at level 100, k at level 200) : py_scope.
Notation "m '>>' k" := (bind m (fun _ => k))
  (at level 90, right associativity) : py_scope.
Open Scope py_scope.

(** [for x in l: body(x)] *)
Fixpoint for_each {A} (l : list A) (body : A -> M unit) : M unit :=
  match l with
  | [] => ret tt
  | x :: rest => body x >> for_each rest body
  end.

Definition outcome {A} (r : result A * state) : result A := r.1.
Definition final {A} (r : result A * state) : state := r.2.

(** The line feed of Python's ["\n"]. *)
Definition nl : string := String (ascii_of_nat 10) EmptyString.

(** [print(s)]: [stdout] records the text of every call. *)
Definition print (s : string) : M unit :=
  fun st => (Ok tt, set_stdout (stdout st ++ [s]) st).

(** ** Primitive operations on the working directories *)

(** [os.listdir(dir_path)] *)
Definition listdir (d : workdir) : M (list string) :=
  fun st => (Ok (map_to_list (get_dir d st)).*1, st).

(** [os.unlink(os.path.join(dir_path, file))]: removes a regular file and
    raises on a directory or a missing entry. *)
Definition unlink (d : workdir) (file : string) : M unit :=
  fun st =>
    match get_dir d st !! file with
    | Some Subdir => (Raise (IsADirectoryError (OsPath.join (dir_path d) file)), st)
    | Some _ => (Ok tt, set_dir d (delete file (get_dir d st)) st)
    | None => (Raise (FileNotFoundError (OsPath.join (dir_path d) file)), st)
    end.

(** [cv2.imwrite(os.path.join(dir_path, name), img)]: raises [cv2.error]
    on an image without pixels, before it looks at the path; otherwise it
    creates or replaces the file; where the path names a directory
    nothing is written and the call returns [False], which the script
    ignores. *)
Definition imwrite (d : workdir) (name : string) (img : image) : M bool :=
  fun st =>
    if image_empty img then
      (Raise (Cv2Error (OsPath.join (dir_path d) name)), st)
    else
      match get_dir d st !! name with
      | Some Subdir => (Ok false, st)
      | _ => (Ok true, set_dir d (<[name := File img]> (get_dir d st)) st)
      end.

(** ** Primitive operations on the output hierarchy *)

(** The steps promotion is made of: [os.makedirs(video_output_dir,
    exist_ok=True)], the [os.makedirs(dst)] that opens [shutil.copytree],
    and the two steps of the copy of one file into [dst]:
    [shutil.copyfile] opens the destination for writing, which creates
    it without content, and then writes the content of the source.  A
    subdirectory of the source is made in one step. *)
Inductive fsop :=
| OpMakedirs (base : string)
| OpMkdir (base sub : string)
| OpCreate (base sub name : string)
| OpCopy (base sub name : string) (n : node).

Definition dest_path (base sub : string) : string :=
  OsPath.join (OsPath.join output_dir base) sub.

Definition exec (op : fsop) : M unit :=
  fun st =>
    let out := output st in
    match op with
    | OpMakedirs base =>
        match out !! base with
        | Some _ => (Ok tt, st)
        | None => (Ok tt, set_output (<[base := ∅]> out) st)
        end
    | OpMkdir base sub =>
        let m := default ∅ (out !! base) in
        match m !! sub with
        | Some _ => (Raise (FileExistsError (dest_path base sub)), st)
        | None => (Ok tt, set_output (<[base := <[sub := ∅]> m]> out) st)
        end
    | OpCreate base sub name =>
        match out !! base with
        | Some m =>
            match m !! sub with
            | Some d =>
                (Ok tt,
                 set_output (<[base := <[sub := <[name := Partial]> d]> m]> out) st)
            | None => (Raise (FileNotFoundError (dest_path base sub)), st)
            end
        | None => (Raise (FileNotFoundError (dest_path base sub)), st)
        end
    | OpCopy base sub name n =>
        match out !! base with
        | Some m =>
            match m !! sub with
            | Some d =>
                (Ok tt, set_output (<[base := <[sub := <[name := n]> d]> m]> out) st)
            | None => (Raise (FileNotFoundError (dest_path base sub)), st)
            end
        | None => (Raise (FileNotFoundError (dest_path base sub)), st)
        end
    end.

(** [os.makedirs(video_output_dir, exist_ok=True)] *)
Definition makedirs_exist_ok (base : string) : M unit := exec (OpMakedirs base).

(** The steps that copy the entry [e] of the source into
    [output/<base>/<sub>/]. *)
Definition copy_steps (base sub : string) (e : string * node) : list fsop :=
  match e.2 with
  | Subdir => [OpCopy base sub e.1 Subdir]
  | n => [OpCreate base sub e.1; OpCopy base sub e.1 n]
  end.

(** [shutil.copytree(src_dir, dest_dir)]: creates [dest_dir], which must
    not exist, then copies the entries of [src_dir] into it. *)
Definition copytree (src : workdir) (base sub : string) : M unit :=
  exec (OpMkdir base sub) >>
  fun st =>
    for_each (map_to_list (get_dir src st))
      (fun e => for_each (copy_steps base sub e) exec) st.

(** ** The detectors *)

(** A face location of face_recognition: (top, right, bottom, left). *)
Definition face_location : Type := Z * Z * Z * Z.

(** A bounding box of the YOLO result: [xyxy] holds the corner
    coordinates after [map(int, box.xyxy[0].tolist())], [conf] is
    [box.conf[0]]. *)
Record box := mkBox {
  xyxy : Z * Z * Z * Z;
  conf : float
}.

(** [f"realistic_face_{frame_count}_{i}.jpg"] *)
Definition realistic_face_name (frame_count i : nat) : string :=
  "realistic_face_" +:+ pretty frame_count +:+ "_" +:+ pretty i +:+ ".jpg".

(** [f"anime_face_{frame_count}_{i}.jpg"] *)
Definition anime_face_name (frame_count i : nat) : string :=
  "anime_face_" +:+ pretty frame_count +:+ "_" +:+ pretty i +:+ ".jpg".

(** [f"frame_{frame_count}.jpg"] *)
Definition frame_name (frame_count : nat) : string :=
  "frame_" +:+ pretty frame_count +:+ ".jpg".

(** [conf >= 0.5].  The score is a float32 of the model; every float32 is
    a binary64 with the same value, and 0.5 is one of them. *)
Definition conf_ok (c : float) : bool := (0.5 <=? c)%float.

Section Script.

(** [face_recognition.face_locations], the loaded [yolo_model] (its
    value is [results[0].boxes]) and [importlib.util.find_spec] (is
    there a spec for the module?).  The first two may raise. *)
Variable face_locations : image -> result (list face_location).
Variable yolo_model : image -> result (list box).
Variable find_spec : string -> bool.

(** *** Dependency check *)

Definition dependencies : list (string * string) :=
  [("cv2", "opencv-python");
   ("face_recognition", "face_recognition");
   ("PIL", "Pillow");
   ("tqdm", "tqdm");
   ("ultralytics", "ultralytics")].

Definition missing_packages : list string :=
  (List.filter (fun d : string * string => negb (find_spec d.1)) dependencies).*2.

Definition check_dependencies : M unit :=
  let missing := missing_packages in
  match missing with
  | [] => ret tt
  | _ =>
      print "The following dependencies are missing:" >>
      for_each missing (fun package => print ("- " +:+ package)) >>
      print (nl +:+ "Install them using the following command:") >>
      print ("pip install " +:+ PyStr.join " " missing) >>
      raise (SystemExit 1)
  end.

(** *** [detect_faces_realistic] *)

(** The loop over [enumerate(face_locations)], from index [i] on;
    [faces_acc] is the list [faces] built so far. *)
Fixpoint realistic_loop (frame : image) (frame_count i : nat)
    (locations : list face_location) (faces_acc : list string)
    : M (list string) :=
  match locations with
  | [] => ret faces_acc
  | (top, right', bottom, left') :: rest =>
      let face_image := crop frame top bottom left' right' in
      let name := realistic_face_name frame_count i in
      let output_path := OsPath.join faces_dir name in
      imwrite Faces name face_image >>
      realistic_loop frame frame_count (S i) rest (faces_acc ++ [output_path])
  end.

Definition detect_faces_realistic (frame : image) (frame_count : nat)
    : M (list string) :=
  let rgb_frame := cvtColor_BGR2RGB frame in
  let* locations := lift (face_locations rgb_frame) in
  realistic_loop frame frame_count 0 locations [].

(** *** [detect_faces_anime] *)

(** The loop over [enumerate(results[0].boxes)], from index [i] on. *)
Fixpoint anime_loop (frame : image) (frame_count i : nat)
    (boxes : list box) (detected_faces : list string) : M (list string) :=
  match boxes with
  | [] => ret detected_faces
  | b :: rest =>
      let '(x1, y1, x2, y2) := xyxy b in
      if conf_ok (conf b) then
        let face_image := crop frame y1 y2 x1 x2 in
        let name := anime_face_name frame_count i in
        let output_path := OsPath.join faces_dir name in
        imwrite Faces name face_image >>
        anime_loop frame frame_count (S i) rest (detected_faces ++ [output_path])
      else
        anime_loop frame frame_count (S i) rest detected_faces
  end.

Definition detect_faces_anime (frame : image) (frame_count : nat)
    : M (list string) :=
  let* boxes := lift (yolo_model frame) in
  anime_loop frame frame_count 0 boxes [].

(** *** [process_videos] *)

(** Is [f] kept by
    [f.lower().endswith((".mp4", ".avi", ".mkv"))]? *)
Definition is_video (f : string) : bool :=
  PyStr.endswith_any (PyStr.lower f) [".mp4"; ".avi"; ".mkv"].

(** "Clear working directories" *)
Definition clear_working_directories : M unit :=
  for_each [Screencaps; Faces] (fun dir_path =>
    let* files := listdir dir_path in
    for_each files (fun file => unlink dir_path file)).

(** "Detect faces based on the selected mode" *)
Definition detect (mode : string) (frame : image) (frame_count : nat) : M unit :=
  if String.eqb mode "Realistic" then
    detect_faces_realistic frame frame_count >> ret tt
  else if String.eqb mode "Anime" then
    detect_faces_anime frame frame_count >> ret tt
  else ret tt.

(** The [while cap.isOpened()] loop on an opened capture.  Each turn
    reads one packet; [ret] is false when the stream is exhausted, when
    the packet does not decode, and when the image read holds no pixel
    ([VideoCapture::read] returns [!image.empty()]); the loop is left
    then. *)
Fixpoint stream_frames (mode : string) (packets : list (option image))
    (frame_count : nat) : M unit :=
  match packets with
  | Some frame :: rest =>
      if image_empty frame then ret tt
      else
        imwrite Screencaps (frame_name frame_count) frame >>
        detect mode frame frame_count >>
        stream_frames mode rest (S frame_count)
  | _ => ret tt
  end.

(** "Move results to the output directory" *)
Definition promote (video_file : string) : M unit :=
  let base := (OsPath.splitext video_file).1 in
  let video_output_dir := OsPath.join output_dir base in
  makedirs_exist_ok base >>
  for_each [Screencaps; Faces] (fun d => copytree d base (dir_name d)) >>
  print ("Processing completed: Results saved in " +:+ video_output_dir).

(** The body of the loop over [video_files]. *)
Definition process_video (mode : string) (video_file : string)
    (cap : capture) : M unit :=
  print (nl +:+ "Processing video: " +:+ video_file) >>
  clear_working_directories >>
  (if opened cap then stream_frames mode (packets cap) 0 else ret tt) >>
  promote video_file.

Definition process_videos (mode : string) : M unit :=
  fun st =>
    let video_files :=
      List.filter (fun e : string * capture => is_video e.1) (input st) in
    match video_files with
    | [] => print "No videos found in the input directory." st
    | _ => for_each video_files (fun e => process_video mode e.1 e.2) st
    end.

(** *** The main block *)

(** [line] is what the user types at the prompt. *)
Definition main (line : string) : M unit :=
  print "Select mode:" >>
  print "1: Realistic (HOG/CNN)" >>
  print "2: Anime (YOLOv8)" >>
  print "Enter mode (1 or 2): " >>
  let mode_choice := PyStr.strip line in
  let* mode :=
    (if String.eqb mode_choice "1" then ret "Realistic"
     else if String.eqb mode_choice "2" then ret "Anime"
     else print "Invalid input. Exiting." >> raise (SystemExit 1)) in
  print ("Starting processing in " +:+ mode +:+ " mode...") >>
  process_videos mode >>
  print "All videos have been processed.".

End Script.

(** * Vocabulary of the properties *)

(** ** Working directories and file names *)

(** Every entry is a regular file. *)
Definition only_files (m : gmap string node) : Prop :=
  forall k n, m !! k = Some n -> exists img, n = File img.

(** Emptying one working directory, as the inner loops of the script do. *)
Definition clear_dir (d : workdir) : M unit :=
  let* files := listdir d in
  for_each files (fun file => unlink d file).

(** The name [f] ends, letter case apart, in the extension [ext]. *)
Definition has_extension (f ext : string) : Prop :=
  exists pre suf, f = pre +:+ suf /\ PyStr.lower suf = ext.

(** ** What the detectors write *)

(** The crop the detector takes for a candidate. *)
Definition anime_crop (frame : image) (b : box) : image :=
  let '(x1, y1, x2, y2) := xyxy b in crop frame y1 y2 x1 x2.

(** The candidates that pass the threshold, each with its position in
    the list of all candidates, positions counted from [i]. *)
Fixpoint kept (i : nat) (boxes : list box) : list (nat * box) :=
  match boxes with
  | [] => []
  | b :: rest =>
      if conf_ok (conf b) then (i, b) :: kept (S i) rest else kept (S i) rest
  end.

(** The number of candidates with a confidence of at least 0.5. *)
Definition count_conf_ge_half (boxes : list box) : nat :=
  length (List.filter (fun b => conf_ok (conf b)) boxes).

(** The file written for the candidate [e.2] at position [e.1], and the
    path returned for it. *)
Definition anime_entry (frame : image) (fc : nat) (e : nat * box)
    : string * node :=
  (anime_face_name fc e.1, File (anime_crop frame e.2)).

Definition anime_path (fc : nat) (e : nat * box) : string :=
  OsPath.join faces_dir (anime_face_name fc e.1).

(** [enumerate(l)], counting from [i]. *)
Fixpoint numbered {A} (i : nat) (l : list A) : list (nat * A) :=
  match l with
  | [] => []
  | x :: rest => (i, x) :: numbered (S i) rest
  end.

(** The crop, the file and the path of the generic detector for the
    location [e.2] at position [e.1]. *)
Definition realistic_crop (frame : image) (loc : face_location) : image :=
  let '(top, right', bottom, left') := loc in crop frame top bottom left' right'.

Definition realistic_entry (frame : image) (fc : nat)
    (e : nat * face_location) : string * node :=
  (realistic_face_name fc e.1, File (realistic_crop frame e.2)).

Definition realistic_path (fc : nat) (e : nat * face_location) : string :=
  OsPath.join faces_dir (realistic_face_name fc e.1).

(** The candidates whose crops [cv2.imwrite] takes, one after the other:
    those before the first one whose crop holds no pixel. *)
Fixpoint written {A} (crop_of : A -> image) (l : list (nat * A))
    : list (nat * A) :=
  match l with
  | [] => []
  | e :: rest =>
      if image_empty (crop_of e.2) then [] else e :: written crop_of rest
  end.

(** The first candidate whose crop holds no pixel: [cv2.imwrite] raises
    on it. *)
Fixpoint first_empty {A} (crop_of : A -> image) (l : list (nat * A))
    : option (nat * A) :=
  match l with
  | [] => None
  | e :: rest =>
      if image_empty (crop_of e.2) then Some e else first_empty crop_of rest
  end.

(** ** Frames and snapshots *)

(** The frames [read] delivers before the loop is left: the packets up
    to the first one that does not decode or decodes to an image
    without pixels, or all of them. *)
Fixpoint decoded (packets : list (option image)) : list image :=
  match packets with
  | Some frame :: rest =>
      if image_empty frame then [] else frame :: decoded rest
  | _ => []
  end.

(** The frames an opened capture yields; none when it could not be
    opened. *)
Definition frames_of (cap : capture) : list image :=
  if opened cap then decoded (packets cap) else [].

(** The snapshot file of the frame [e.2] of index [e.1]. *)
Definition snapshot_entry (e : nat * image) : string * node :=
  (frame_name e.1, File e.2).

(** The snapshots of the frames [frames], the first one numbered [i]. *)
Definition snapshots (i : nat) (frames : list image) : gmap string node :=
  list_to_map (snapshot_entry <$> numbered i frames).

(** Does the character [c] occur in [s]? *)
Fixpoint occurs (c : ascii) (s : string) : bool :=
  match s with
  | EmptyString => false
  | String a s' => if Ascii.eqb a c then true else occurs c s'
  end.

(** [name] is the name of a region file of the frame of index [fc]. *)
Definition region_name (fc : nat) (name : string) : Prop :=
  exists i, name = anime_face_name fc i \/ name = realistic_face_name fc i.

(** ** Promotion *)

(** Running a sequence of steps; it stops at the first exception. *)
Definition run_ops (ops : list fsop) : M unit := for_each ops exec.

(** The steps of [shutil.copytree] from a working directory with the
    entries [src]. *)
Definition copytree_ops (src : gmap string node) (base sub : string)
    : list fsop :=
  OpMkdir base sub :: (map_to_list src ≫= copy_steps base sub).

(** The steps of the promotion of the workspace of [st] to
    [output/<base>/]. *)
Definition promotion_ops (st : state) (base : string) : list fsop :=
  OpMakedirs base ::
  copytree_ops (screencaps st) base (dir_name Screencaps) ++
  copytree_ops (faces st) base (dir_name Faces).

(** A promotion that is interrupted after [k] steps leaves this state. *)
Definition interrupted (k : nat) (base : string) (st : state) : state :=
  final (run_ops (take k (promotion_ops st base)) st).

(** The subdirectory [sub] of [output/<base>/], if there is one. *)
Definition subdir_at (o : gmap string (gmap string (gmap string node)))
    (base sub : string) : option (gmap string node) :=
  match o !! base with
  | Some m => m !! sub
  | None => None
  end.

(** The file [name] is visible in [output/<base>/<sub>/]. *)
Definition visible (st : state) (base sub name : string) (n : node) : Prop :=
  exists d, subdir_at (output st) base sub = Some d /\ d !! name = Some n.

(** The file [name] of the working directory [sub] of [st] is to be
    promoted. *)
Definition expected (st : state) (sub name : string) (n : node) : Prop :=
  (sub = dir_name Screencaps /\ screencaps st !! name = Some n) \/
  (sub = dir_name Faces /\ faces st !! name = Some n).

(** A step of the promotion of the workspace of [st] to [base]. *)
Definition step_of (st : state) (base : string) (op : fsop) : Prop :=
  match op with
  | OpMakedirs b => b = base
  | OpMkdir b _ => b = base
  | OpCreate b sub name => b = base /\ exists n, expected st sub name n
  | OpCopy b sub name n => b = base /\ expected st sub name n
  end.

(** What holds of the output hierarchy [o] all along the promotion of the
    workspace of [st0] to a directory [base] that did not exist: the
    other directories are those of [st0], and an entry below [base] has
    the name of an entry of the workspace, with its content or, for a
    file, not yet filled. *)
Definition partial_copy (st0 : state) (base : string)
    (o : gmap string (gmap string (gmap string node))) : Prop :=
  (forall b, b ≠ base -> o !! b = output st0 !! b) /\
  (forall sub d name n,
     subdir_at o base sub = Some d -> d !! name = Some n ->
     exists n', expected st0 sub name n' /\ (n = n' \/ n = Partial)).

(** The directory [d] after its entries were overwritten, one after the
    other, with those of [l]. *)
Definition copy_into (d : gmap string node) (l : list (string * node))
    : gmap string node :=
  foldl (fun d e => <[e.1 := e.2]> d) d l.

(** The claim of atomicity for one observation [st'] of the promotion of
    the workspace of [st]: everything that is to be promoted is visible
    below the final name, or nothing is. *)
Definition full_or_none (st : state) (base : string) (st' : state) : Prop :=
  (forall sub name n, expected st sub name n -> visible st' base sub name n) \/
  (forall sub name n, ~ visible st' base sub name n).

(** The computation [m] leaves the output subdirectory [b/s], where it
    exists with the content [d], as it is, however [m] ends. *)
Definition preserves {A} (b s : string) (d : gmap string node) (m : M A) : Prop :=
  forall st, subdir_at (output st) b s = Some d ->
             subdir_at (output (final (m st))) b s = Some d.

(** Where a step writes. *)
Definition op_dest (op : fsop) : option (string * string) :=
  match op with
  | OpMakedirs _ => None
  | OpMkdir base sub => Some (base, sub)
  | OpCreate base sub _ => Some (base, sub)
  | OpCopy base sub _ _ => Some (base, sub)
  end.

(** ** The main block *)

(** The state when [main] calls [process_videos]. *)
Definition prompted (mode : string) (st : state) : state :=
  set_stdout
    (stdout st ++
     ["Select mode:"; "1: Realistic (HOG/CNN)"; "2: Anime (YOLOv8)";
      "Enter mode (1 or 2): "; "Starting processing in " +:+ mode +:+ " mode..."])
    st.

(** The mode the answer at the prompt selects. *)
Definition selected_mode (line : string) : option string :=
  if String.eqb (PyStr.strip line) "1" then Some "Realistic"
  else if String.eqb (PyStr.strip line) "2" then Some "Anime"
  else None.

(** ** What a video prints *)

(** The message of [process_video] when it starts on [video_file], and
    the one when its results are saved. *)
Definition started (video_file : string) : string :=
  nl +:+ "Processing video: " +:+ video_file.

Definition completed (video_file : string) : string :=
  "Processing completed: Results saved in " +:+
  OsPath.join output_dir (OsPath.splitext video_file).1.

(** ** The detector along the frames of a video *)

Section Detector.

Variable face_locations : image -> result (list face_location).
Variable yolo_model : image -> result (list box).
Variable mode : string.

(** How the library call of the selected detector ends on [frame]. *)
Definition library_call (frame : image) : result unit :=
  if String.eqb mode "Realistic" then
    match face_locations (cvtColor_BGR2RGB frame) with
    | Ok _ => Ok tt
    | Raise e => Raise e
    end
  else if String.eqb mode "Anime" then
    match yolo_model frame with
    | Ok _ => Ok tt
    | Raise e => Raise e
    end
  else Ok tt.

(** How the detector step ends on [frame], the frame of index [fc]:
    with the exception of the library call, with the [cv2.error] of the
    first crop without pixels, or without an exception. *)
Definition detect_outcome (frame : image) (fc : nat) : result unit :=
  if String.eqb mode "Realistic" then
    match face_locations (cvtColor_BGR2RGB frame) with
    | Ok locations =>
        match first_empty (realistic_crop frame) (numbered 0 locations) with
        | Some e => Raise (Cv2Error (realistic_path fc e))
        | None => Ok tt
        end
    | Raise e => Raise e
    end
  else if String.eqb mode "Anime" then
    match yolo_model frame with
    | Ok boxes =>
        match first_empty (anime_crop frame) (kept 0 boxes) with
        | Some e => Raise (Cv2Error (anime_path fc e))
        | None => Ok tt
        end
    | Raise e => Raise e
    end
  else Ok tt.

(** The detector step ends without an exception on [frame]. *)
Definition detector_returns (frame : image) : Prop :=
  forall fc, detect_outcome frame fc = Ok tt.

(** The region files the detector step writes for [frame], the frame of
    index [fc]: those of the crops before the first one without pixels;
    none when the library call raises or the mode is neither of the
    two. *)
Definition region_entries (frame : image) (fc : nat) : list (string * node) :=
  if String.eqb mode "Realistic" then
    match face_locations (cvtColor_BGR2RGB frame) with
    | Ok locations =>
        realistic_entry frame fc
          <$> written (realistic_crop frame) (numbered 0 locations)
    | Raise _ => []
    end
  else if String.eqb mode "Anime" then
    match yolo_model frame with
    | Ok boxes => anime_entry frame fc <$> written (anime_crop frame) (kept 0 boxes)
    | Raise _ => []
    end
  else [].

(** The number of region files the detector step writes for [frame]. *)
Definition region_count (frame : image) : nat :=
  if String.eqb mode "Realistic" then
    match face_locations (cvtColor_BGR2RGB frame) with
    | Ok locations => length (written (realistic_crop frame) (numbered 0 locations))
    | Raise _ => 0
    end
  else if String.eqb mode "Anime" then
    match yolo_model frame with
    | Ok boxes => length (written (anime_crop frame) (kept 0 boxes))
    | Raise _ => 0
    end
  else 0.

(** The frames the loop reaches, the first one of index [fc]: all of
    them, or those up to the first one on which the detector step
    raises. *)
Fixpoint processed (fc : nat) (frames : list image) : list image :=
  match frames with
  | [] => []
  | frame :: rest =>
      match detect_outcome frame fc with
      | Ok _ => frame :: processed (S fc) rest
      | Raise _ => [frame]
      end
  end.

(** How the loop ends: with the first exception of the detector step. *)
Fixpoint stream_outcome (fc : nat) (frames : list image) : result unit :=
  match frames with
  | [] => Ok tt
  | frame :: rest =>
      match detect_outcome frame fc with
      | Ok _ => stream_outcome (S fc) rest
      | Raise e => Raise e
      end
  end.

(** The region files of the frames the loop reaches. *)
Fixpoint regions_from (fc : nat) (frames : list image) : list (string * node) :=
  match frames with
  | [] => []
  | frame :: rest =>
      region_entries frame fc ++
      match detect_outcome frame fc with
      | Ok _ => regions_from (S fc) rest
      | Raise _ => []
      end
  end.

(** The content of [faces/] after the streaming loop of a video. *)
Definition video_regions (cap : capture) : gmap string node :=
  list_to_map (regions_from 0 (frames_of cap)).

(** The state in which the streaming loop of [video_file] is left, from
    a workspace of regular files. *)
Definition streamed (video_file : string) (cap : capture) (st : state) : state :=
  mkState (input st)
    (snapshots 0 (processed 0 (frames_of cap)))
    (video_regions cap) (output st)
    (stdout st ++ [started video_file]).

End Detector.

(** What a video that is processed without an exception leaves in
    [output/<base>/]. *)
Definition video_output (face_locations : image -> result (list face_location))
    (yolo_model : image -> result (list box)) (mode : string) (cap : capture)
    : gmap string (gmap string node) :=
  <[dir_name Faces := video_regions face_locations yolo_model mode cap]>
    (<[dir_name Screencaps := snapshots 0 (frames_of cap)]> ∅).

(** The base name of an entry of the input directory. *)
Definition base_of (e : string * capture) : string := (OsPath.splitext e.1).1.

(** The two messages of a video that is processed without an
    exception. *)
Definition video_messages (e : string * capture) : list string :=
  [started e.1; completed e.1].

(** ** Inputs of the examples *)

(** The empty workspace. *)
Definition blank_workspace : state := mkState [] ∅ ∅ ∅ [].

(** A workspace with a snapshot, a stray directory and a region file. *)
Definition cluttered_workspace : state :=
  mkState []
    {[ "frame_0.jpg" := File []; "thumbs" := Subdir ]}
    {[ "anime_face_0_0.jpg" := File [] ]}
    ∅ [].

(** An input directory with two entries that are no videos, beside a
    workspace and an output hierarchy that are not empty. *)
Definition no_video_state : state :=
  mkState [("notes.txt", mkCapture false []); ("mp4", mkCapture false [])]
    {[ "old.jpg" := File [] ]} ∅ {[ "seen" := ∅ ]} [].

(** A frame with three candidates: one above the threshold, one exactly
    at it, one below. *)
Definition anime_regions_input : list box :=
  [mkBox (0, 0, 1, 1) 0.75%float; mkBox (0, 0, 2, 1) 0.5%float;
   mkBox (1, 0, 2, 2) 0.25%float].

(** A frame of two rows of two pixels. *)
Definition small_frame : image :=
  [[(1, 2, 3); (4, 5, 6)]; [(7, 8, 9); (10, 11, 12)]].

(** A frame with three candidates, the second one below the threshold. *)
Definition gap_boxes : list box :=
  [mkBox (0, 0, 1, 1) 0.75%float; mkBox (0, 0, 2, 1) 0.25%float;
   mkBox (1, 0, 2, 2) 0.875%float].


(** Two locations of the generic detector. *)
Definition two_locations : list face_location := [(0, 1, 1, 0); (0, 2, 2, 1)].

(** A workspace with two snapshots and one region. *)
Definition clip_workspace : state :=
  mkState []
    {[ "frame_0.jpg" := File small_frame; "frame_1.jpg" := File small_frame ]}
    {[ "anime_face_1_0.jpg" := File [[(1, 2, 3)]] ]}
    ∅ [].

(** A video of three frames of one pixel. *)
Definition three_frames : list image :=
  [ [[(0, 0, 0)]]; [[(1, 1, 1)]]; [[(2, 2, 2)]] ].

Definition three_frame_capture : capture :=
  mkCapture true (Some <$> three_frames).

(** A detector that raises on the frame whose first pixel is (1, 1, 1). *)
Definition failing_model (frame : image) : result (list box) :=
  match frame with
  | ((1, 1, 1) :: _) :: _ => Raise (LibraryError "malformed input")
  | _ => Ok []
  end.

(** A model that finds two candidates on the frame whose first pixel is
    (1, 1, 1), the second of them with a box without width, and none on
    the other frames. *)
Definition narrow_on_second (frame : image) : result (list box) :=
  match frame with
  | ((1, 1, 1) :: _) :: _ =>
      Ok [mkBox (0, 0, 1, 1) 0.75%float; mkBox (1, 0, 1, 1) 0.875%float]
  | _ => Ok []
  end.

(** An input directory with two videos; the output directory of the
    first one is there already, left by an earlier run. *)
Definition rerun_state : state :=
  mkState
    [("a.mp4", three_frame_capture); ("b.mp4", three_frame_capture)]
    ∅ ∅
    {[ "a" := {[ "screencaps" := ∅; "faces" := ∅ ]} ]}
    [].

(** The example detector: every frame has the three candidates of
    [anime_regions_input]. *)
Definition three_candidates (frame : image) : result (list box) :=
  Ok anime_regions_input.

(** A workspace of regular files with the input, the output hierarchy
    and the standard output of [rerun_state]. *)
Definition rerun_clip_state : state :=
  mkState (input rerun_state) (screencaps clip_workspace) (faces clip_workspace)
    (output rerun_state) (stdout rerun_state).

(** An input directory with two videos of different base names, beside
    an entry that is no video. *)
Definition two_video_state : state :=
  mkState
    [("a.mp4", three_frame_capture); ("notes.txt", mkCapture false []);
     ("b.MKV", mkCapture true [Some small_frame])]
    ∅ ∅ ∅ [].

(** * Properties *)

(** ** The monad *)

Lemma bind_ok {A B} (m : M A) (k : A -> M B) st a st' :
  m st = (Ok a, st') -> bind m k st = k a st'.
Proof. intros H. unfold bind. by rewrite H. Qed.

Lemma bind_raise {A B} (m : M A) (k : A -> M B) st e st' :
  m st = (Raise e, st') -> bind m k st = (Raise e, st').
Proof. intros H. unfold bind. by rewrite H. Qed.

Lemma for_each_nil {A} (body : A -> M unit) st :
  for_each [] body st = (Ok tt, st).
Proof. reflexivity. Qed.

Lemma for_each_cons {A} (x : A) l (body : A -> M unit) st :
  for_each (x :: l) body st = bind (body x) (fun _ => for_each l body) st.
Proof. reflexivity. Qed.

(** ** Records *)

Lemma get_set_dir d m st : get_dir d (set_dir d m st) = m.
Proof. by destruct d. Qed.

Lemma set_get_dir d st : set_dir d (get_dir d st) st = st.
Proof. by destruct d, st. Qed.

Lemma faces_set_dir m st : faces (set_dir Faces m st) = m.
Proof. reflexivity. Qed.

Lemma screencaps_set_dir m st : screencaps (set_dir Screencaps m st) = m.
Proof. reflexivity. Qed.

Lemma set_set_dir d m m' st : set_dir d m' (set_dir d m st) = set_dir d m' st.
Proof. by destruct d. Qed.

(** ** Clearing the working directories *)

Lemma clear_dir_listing d st :
  clear_dir d st =
  for_each (map_to_list (get_dir d st)).*1 (fun file => unlink d file) st.
Proof. reflexivity. Qed.

(** The loop of [unlink]s over the current listing of [d]: it changes
    [d] only; where it ends without an exception [d] is empty; and the
    loop over the listing of the directory it leaves ends the same way
    and changes nothing more. *)
Lemma unlink_listing d names : forall st,
  names = (map_to_list (get_dir d st)).*1 ->
  let r := for_each names (fun file => unlink d file) st in
  (exists m', final r = set_dir d m' st) /\
  (outcome r = Ok tt -> get_dir d (final r) = ∅) /\
  (only_files (get_dir d st) -> outcome r = Ok tt) /\
  clear_dir d (final r) = r.
Proof.
  induction names as [|k names IH]; intros st Hnames r.
  - symmetry in Hnames. apply fmap_nil_inv, map_to_list_empty_iff in Hnames.
    subst r. rewrite for_each_nil. cbn [final outcome fst snd].
    split; [exists (get_dir d st); by rewrite set_get_dir|].
    split; [done|]. split; [done|].
    rewrite clear_dir_listing, Hnames, map_to_list_empty. reflexivity.
  - destruct (map_to_list (get_dir d st)) as [|[k' n] l] eqn:Hl; [done|].
    injection Hnames as -> Hrest.
    assert (Hk : get_dir d st !! k' = Some n).
    { apply elem_of_map_to_list. rewrite Hl. left. }
    assert (Hfirst : map_first_key (get_dir d st) k').
    { exists n. by rewrite Hl. }
    subst r. rewrite for_each_cons.
    assert (Hn : n ≠ Subdir \/ n = Subdir) by (destruct n; auto).
    destruct Hn as [Hn| ->].
    + set (st1 := set_dir d (delete k' (get_dir d st)) st).
      assert (Hu : unlink d k' st = (Ok tt, st1)).
      { unfold unlink. rewrite Hk. by destruct n. }
      rewrite (bind_ok _ _ _ _ _ Hu).
      assert (Hl1 : map_to_list (get_dir d st1) = l).
      { pose proof (map_to_list_delete_first_key _ _ _ Hk Hfirst) as Hd.
        rewrite Hl in Hd. injection Hd as Hd.
        subst st1. by rewrite get_set_dir. }
      destruct (IH st1) as ([m' Hm'] & Hempty & Hfiles & Hagain).
      { by rewrite Hl1. }
      split; [exists m'; rewrite Hm'; subst st1; by rewrite set_set_dir|].
      split; [done|]. split; [|done].
      intros Hof. apply Hfiles. subst st1. rewrite get_set_dir.
      intros j x Hj. apply lookup_delete_Some in Hj as [_ Hj]. eauto.
    + assert (Hu : unlink d k' st =
                   (Raise (IsADirectoryError (OsPath.join (dir_path d) k')), st)).
      { unfold unlink. by rewrite Hk. }
      rewrite (bind_raise _ _ _ _ _ Hu). cbn [final outcome fst snd].
      split; [exists (get_dir d st); by rewrite set_get_dir|].
      split; [done|].
      split.
      * intros Hof. destruct (Hof _ _ Hk) as [? ?]; done.
      * rewrite clear_dir_listing, Hl, fmap_cons, for_each_cons.
        by rewrite (bind_raise _ _ _ _ _ Hu).
Qed.

Lemma clear_dir_spec d st :
  let r := clear_dir d st in
  (exists m', final r = set_dir d m' st) /\
  (outcome r = Ok tt -> get_dir d (final r) = ∅) /\
  (only_files (get_dir d st) -> outcome r = Ok tt) /\
  clear_dir d (final r) = r.
Proof. rewrite clear_dir_listing. by apply unlink_listing. Qed.

Lemma clear_dir_empty d st :
  get_dir d st = ∅ -> clear_dir d st = (Ok tt, st).
Proof.
  intros H. rewrite clear_dir_listing, H, map_to_list_empty. reflexivity.
Qed.

Lemma clear_working_directories_unfold st :
  clear_working_directories st =
  bind (clear_dir Screencaps) (fun _ => bind (clear_dir Faces) (fun _ => ret tt)) st.
Proof. reflexivity. Qed.

(** C8. Workspace reset is idempotent.  For every state, running the
    clearing of the working directories a second time ends as the first
    run did and leaves the state the first run left.  A run that ends
    without an exception leaves both working directories empty; it does
    so whenever they hold regular files only; and on an already empty
    workspace the reset succeeds and changes nothing. *)
Theorem reset_idempotent (st : state) :
  let r := clear_working_directories st in
  clear_working_directories (final r) = r /\
  (outcome r = Ok tt -> screencaps (final r) = ∅ /\ faces (final r) = ∅) /\
  (only_files (screencaps st) -> only_files (faces st) -> outcome r = Ok tt) /\
  (screencaps st = ∅ -> faces st = ∅ -> r = (Ok tt, st)).
Proof.
  intros r. subst r. rewrite (clear_working_directories_unfold st).
  rewrite clear_working_directories_unfold.
  destruct (clear_dir_spec Screencaps st) as ([m1 Hm1] & He1 & Hf1 & Ha1).
  destruct (clear_dir Screencaps st) as [[[]|e1] st1] eqn:H1;
    cbn [final outcome fst snd] in *.
  - rewrite (bind_ok _ _ _ _ _ H1).
    destruct (clear_dir_spec Faces st1) as ([m2 Hm2] & He2 & Hf2 & Ha2).
    specialize (He1 eq_refl).
    destruct (clear_dir Faces st1) as [[[]|e2] st2] eqn:H2;
      cbn [final outcome fst snd] in *.
    + rewrite (bind_ok _ _ _ _ _ H2). cbn [ret final outcome fst snd].
      specialize (He2 eq_refl).
      assert (Hs2 : screencaps st2 = ∅) by (subst st2; exact He1).
      repeat split; try done.
      * rewrite (bind_ok _ _ _ _ _ (clear_dir_empty Screencaps st2 Hs2)).
        by rewrite (bind_ok _ _ _ _ _ (clear_dir_empty Faces st2 He2)).
      * intros Hs Hf. rewrite (clear_dir_empty Screencaps st Hs) in H1.
        injection H1 as <-. rewrite (clear_dir_empty Faces st Hf) in H2.
        by injection H2 as <-.
    + rewrite (bind_raise _ _ _ _ _ H2). cbn [final outcome fst snd].
      assert (Hs2 : screencaps st2 = ∅) by (subst st2; exact He1).
      repeat split; try done.
      * rewrite (bind_ok _ _ _ _ _ (clear_dir_empty Screencaps st2 Hs2)).
        by rewrite (bind_raise _ _ _ _ _ Ha2).
      * intros _ Hof. exfalso.
        assert (Raise e2 = Ok tt :> result unit); [|done].
        apply Hf2. subst st1. exact Hof.
      * intros Hs Hf. rewrite (clear_dir_empty Screencaps st Hs) in H1.
        injection H1 as <-. rewrite (clear_dir_empty Faces st Hf) in H2.
        done.
  - rewrite (bind_raise _ _ _ _ _ H1). cbn [final outcome fst snd].
    repeat split; try done.
    + by rewrite (bind_raise _ _ _ _ _ Ha1).
    + intros Hof _. exfalso.
      assert (Raise e1 = Ok tt :> result unit); [|done]. by apply Hf1.
    + intros Hs _. by rewrite (clear_dir_empty Screencaps st Hs) in H1.
Qed.

Lemma reset_idempotent_witness :
  let r := clear_working_directories cluttered_workspace in
  let r' := clear_working_directories blank_workspace in
  clear_working_directories (final r) = r /\
  r' = (Ok tt, blank_workspace) /\
  screencaps (final r') = ∅ /\ faces (final r') = ∅.
Proof.
  intros r r'.
  destruct (reset_idempotent cluttered_workspace) as (Hagain & _).
  destruct (reset_idempotent blank_workspace) as (_ & Hempty & _ & Hblank).
  split; [exact Hagain|].
  assert (Hr' : r' = (Ok tt, blank_workspace)) by (by apply Hblank).
  split; [exact Hr'|]. apply Hempty. subst r'. by rewrite Hr'.
Defined.

(** ** Recognising the video files *)

Lemma endswith_refl s : PyStr.endswith s s = true.
Proof. destruct s; cbn [PyStr.endswith]; by rewrite String.eqb_refl. Qed.

Lemma endswith_cons c s suffix :
  PyStr.endswith s suffix = true -> PyStr.endswith (String c s) suffix = true.
Proof.
  intros H. cbn [PyStr.endswith].
  by destruct (String.eqb (String c s) suffix).
Qed.

(** [endswith] is the suffix test. *)
Lemma endswith_spec s suffix :
  PyStr.endswith s suffix = true <-> exists pre, s = pre +:+ suffix.
Proof.
  split.
  - induction s as [|c s IH]; cbn [PyStr.endswith].
    + destruct (String.eqb_spec "" suffix) as [<-|]; [|done].
      intros _. by exists "".
    + destruct (String.eqb_spec (String c s) suffix) as [<-|].
      * intros _. by exists "".
      * intros [pre ->]%IH. by exists (String c pre).
  - intros [pre ->]. induction pre as [|c pre IH].
    + apply endswith_refl.
    + by apply endswith_cons.
Qed.

Lemma lower_app s t : PyStr.lower (s +:+ t) = PyStr.lower s +:+ PyStr.lower t.
Proof.
  induction s as [|c s IH]; [done|].
  change (String c s +:+ t) with (String c (s +:+ t)).
  cbn [PyStr.lower]. by rewrite IH.
Qed.

(** A name that splits as [pre ++ suf]: the shape "ends in [suf]". *)
Lemma lower_split f pre' ext :
  PyStr.lower f = pre' +:+ ext ->
  exists pre suf, f = pre +:+ suf /\ PyStr.lower suf = ext.
Proof.
  revert f. induction pre' as [|c pre' IH]; intros f H.
  - by exists "", f.
  - destruct f as [|a f]; [done|]. cbn in H. injection H as _ H.
    destruct (IH _ H) as (pre & suf & -> & Hs).
    by exists (String a pre), suf.
Qed.

Lemma is_video_spec f :
  is_video f = true <->
  has_extension f ".mp4" \/ has_extension f ".avi" \/ has_extension f ".mkv".
Proof.
  unfold is_video, PyStr.endswith_any. cbn [existsb].
  rewrite !orb_true_iff, !endswith_spec.
  split.
  - intros [[pre H]|[[pre H]|[[pre H]|?]]]; [..|done];
      apply lower_split in H; unfold has_extension; auto.
  - intros [H|[H|H]]; destruct H as (pre & suf & -> & Hs);
      rewrite lower_app, Hs; eauto.
Qed.

(** C10. If the entries of the input directory have ASCII names, none
    of which ends, letter case apart, in .mp4, .avi or .mkv, then
    [process_videos] reports that no videos were found and returns: the
    working directories and the output hierarchy are what they were, and
    nothing else is printed. *)
Theorem no_videos_no_effect
    (face_locations : image -> result (list face_location))
    (yolo_model : image -> result (list box))
    (mode : string) (st : state) :
  (forall f cap, (f, cap) ∈ input st -> PyStr.is_ascii f = true) ->
  (forall f cap, (f, cap) ∈ input st ->
     ~ (has_extension f ".mp4" \/ has_extension f ".avi" \/
        has_extension f ".mkv")) ->
  process_videos face_locations yolo_model mode st =
    (Ok tt,
     mkState (input st) (screencaps st) (faces st) (output st)
       (stdout st ++ ["No videos found in the input directory."])).
Proof.
  intros _ Hno. unfold process_videos.
  assert (Hnil : List.filter (fun e : string * capture => is_video e.1) (input st) = []).
  { induction (input st) as [|[f cap] l IH]; [done|]. cbn [List.filter fst].
    destruct (is_video f) eqn:Hv.
    - apply is_video_spec in Hv. destruct (Hno f cap); [left|done].
    - apply IH. intros f' cap' Hin. apply (Hno f' cap'). by right. }
  by rewrite Hnil.
Qed.

Lemma no_extension_by_test f :
  is_video f = false ->
  ~ (has_extension f ".mp4" \/ has_extension f ".avi" \/ has_extension f ".mkv").
Proof. intros H Hx. apply is_video_spec in Hx. congruence. Qed.

Lemma no_videos_no_effect_witness :
  process_videos (fun _ => Ok []) (fun _ => Ok []) "Anime" no_video_state =
    (Ok tt,
     mkState (input no_video_state) (screencaps no_video_state)
       (faces no_video_state) (output no_video_state)
       ["No videos found in the input directory."]).
Proof.
  apply (no_videos_no_effect (fun _ => Ok []) (fun _ => Ok []) "Anime"
           no_video_state).
  - intros f cap Hin. cbn [input no_video_state] in Hin.
    apply elem_of_cons in Hin as [Hin|Hin]; [by injection Hin as -> _|].
    apply elem_of_cons in Hin as [Hin|Hin]; [by injection Hin as -> _|].
    by apply elem_of_nil in Hin.
  - intros f cap Hin. apply no_extension_by_test.
    cbn [input no_video_state] in Hin.
    apply elem_of_cons in Hin as [Hin|Hin]; [by injection Hin as -> _|].
    apply elem_of_cons in Hin as [Hin|Hin]; [by injection Hin as -> _|].
    by apply elem_of_nil in Hin.
Defined.

(** ** File names *)

Lemma length_app_string s t :
  String.length (s +:+ t) = (String.length s + String.length t)%nat.
Proof.
  induction s as [|c s IH]; [done|].
  change (String c s +:+ t) with (String c (s +:+ t)). cbn [String.length].
  by rewrite IH.
Qed.

(** A common suffix cancels. *)
Lemma app_inj_suffix s1 s2 t : s1 +:+ t = s2 +:+ t -> s1 = s2.
Proof.
  revert s2. induction s1 as [|c s1 IH]; intros [|c2 s2] H.
  - done.
  - apply (f_equal String.length) in H.
    rewrite !length_app_string in H. cbn [String.length] in H. lia.
  - apply (f_equal String.length) in H.
    rewrite !length_app_string in H. cbn [String.length] in H. lia.
  - change (String c s1 +:+ t) with (String c (s1 +:+ t)) in H.
    change (String c2 s2 +:+ t) with (String c2 (s2 +:+ t)) in H.
    injection H as -> H. f_equal. by apply IH.
Qed.

Lemma frame_name_inj i j : frame_name i = frame_name j -> i = j.
Proof.
  unfold frame_name. intros H.
  apply String.app_inj, app_inj_suffix in H. by apply (inj pretty) in H.
Qed.

Lemma anime_face_name_inj fc i j :
  anime_face_name fc i = anime_face_name fc j -> i = j.
Proof.
  unfold anime_face_name. intros H.
  do 3 apply String.app_inj in H.
  apply app_inj_suffix in H. by apply (inj pretty) in H.
Qed.

Lemma realistic_face_name_inj fc i j :
  realistic_face_name fc i = realistic_face_name fc j -> i = j.
Proof.
  unfold realistic_face_name. intros H.
  do 3 apply String.app_inj in H.
  apply app_inj_suffix in H. by apply (inj pretty) in H.
Qed.



(** ** Writing images *)

Lemma imwrite_file d name img st :
  image_empty img = false ->
  get_dir d st !! name ≠ Some Subdir ->
  imwrite d name img st =
    (Ok true, set_dir d (<[name := File img]> (get_dir d st)) st).
Proof.
  intros He H. unfold imwrite. rewrite He.
  destruct (get_dir d st !! name) as [[?| |]|]; done.
Qed.

Lemma imwrite_empty d name img st :
  image_empty img = true ->
  imwrite d name img st = (Raise (Cv2Error (OsPath.join (dir_path d) name)), st).
Proof. intros He. unfold imwrite. by rewrite He. Qed.

(** Adding to a map the entries of a list that does not mention [k],
    before or after [k] itself. *)
Lemma union_insert_fresh (l : list (string * node)) k v (m : gmap string node) :
  k ∉ l.*1 ->
  list_to_map l ∪ <[k := v]> m = list_to_map ((k, v) :: l) ∪ m.
Proof.
  intros Hk. cbn [list_to_map foldr]. cbn [fst snd].
  rewrite <- insert_union_l.
  rewrite insert_union_r; [done|]. by apply not_elem_of_list_to_map_1.
Qed.

(** ** The bounding-box detector *)

Lemma kept_length i boxes : length (kept i boxes) = count_conf_ge_half boxes.
Proof.
  unfold count_conf_ge_half. revert i.
  induction boxes as [|b rest IH]; intros i; [done|].
  cbn [kept List.filter]. destruct (conf_ok (conf b)); cbn [length]; by rewrite IH.
Qed.

(** [kept] holds the pairs (position, candidate) of the candidates that
    pass. *)
Lemma elem_of_kept i boxes j b :
  (j, b) ∈ kept i boxes <->
  exists k, j = (i + k)%nat /\ boxes !! k = Some b /\ conf_ok (conf b) = true.
Proof.
  revert i. induction boxes as [|b0 rest IH]; intros i.
  - cbn [kept]. split; [by intros ?%elem_of_nil|by intros (k & _ & ? & _)].
  - cbn [kept]. split.
    + destruct (conf_ok (conf b0)) eqn:Hc.
      * intros [Heq|Hin]%elem_of_cons.
        -- injection Heq as -> ->. exists 0%nat. by rewrite Nat.add_0_r.
        -- apply IH in Hin as (k & -> & ? & ?). exists (S k).
           split; [lia|done].
      * intros Hin. apply IH in Hin as (k & -> & ? & ?). exists (S k).
        split; [lia|done].
    + intros ([|k] & -> & Hk & Hb).
      * injection Hk as ->. rewrite Hb, Nat.add_0_r. left.
      * assert (Hin : ((i + S k)%nat, b) ∈ kept (S i) rest).
        { apply IH. exists k. split; [lia|done]. }
        destruct (conf_ok (conf b0)); [by right|done].
Qed.

Lemma kept_ge i boxes j b : (j, b) ∈ kept i boxes -> (i <= j)%nat.
Proof. intros (k & -> & _)%elem_of_kept. lia. Qed.

Lemma kept_positions_NoDup i boxes : NoDup (kept i boxes).*1.
Proof.
  revert i. induction boxes as [|b rest IH]; intros i; [constructor|].
  cbn [kept]. destruct (conf_ok (conf b)); [|done].
  rewrite fmap_cons. constructor; [|done].
  intros ([j b'] & Hj & Hin%kept_ge)%list_elem_of_fmap. cbn in Hj. lia.
Qed.

(** *** The crops that are written *)

Lemma written_sublist {A} (crop_of : A -> image) l :
  written crop_of l `sublist_of` l.
Proof.
  induction l as [|e l IH]; [done|]. cbn [written].
  destruct (image_empty (crop_of e.2)); [apply sublist_nil_l|by apply sublist_skip].
Qed.

Lemma first_empty_None {A} (crop_of : A -> image) l :
  first_empty crop_of l = None <->
  forall e, e ∈ l -> image_empty (crop_of e.2) = false.
Proof.
  induction l as [|e l IH]; cbn [first_empty].
  - split; [by intros _ e ?%elem_of_nil|done].
  - destruct (image_empty (crop_of e.2)) eqn:He.
    + split; [done|]. intros H. specialize (H e). rewrite He in H.
      discriminate H. left.
    + rewrite IH. split.
      * intros H e' [->|Hin]%elem_of_cons; auto.
      * intros H e' Hin. apply H. by right.
Qed.

Lemma written_all {A} (crop_of : A -> image) l :
  first_empty crop_of l = None -> written crop_of l = l.
Proof.
  induction l as [|e l IH]; [done|]. cbn [first_empty written].
  destruct (image_empty (crop_of e.2)); [done|]. intros H. by rewrite IH.
Qed.

(** The candidate on which [cv2.imwrite] raises comes right after the
    ones that are written. *)
Lemma first_empty_Some {A} (crop_of : A -> image) l e :
  first_empty crop_of l = Some e ->
  image_empty (crop_of e.2) = true /\
  exists rest, l = written crop_of l ++ e :: rest.
Proof.
  induction l as [|e' l IH]; [done|]. cbn [first_empty written].
  destruct (image_empty (crop_of e'.2)) eqn:He.
  - intros [= <-]. split; [done|]. by exists l.
  - intros [Hempty [rest Hrest]]%IH. split; [done|].
    exists rest. cbn [app]. by rewrite <- Hrest.
Qed.

Lemma written_length {A} (crop_of : A -> image) l :
  (length (written crop_of l) <= length l)%nat /\
  (forall e, first_empty crop_of l = Some e ->
             (length (written crop_of l) < length l)%nat).
Proof.
  split.
  - apply sublist_length, written_sublist.
  - intros e [_ [rest Hrest]]%first_empty_Some.
    rewrite Hrest at 2. rewrite length_app. cbn [length]. lia.
Qed.

(** The names of the entries of a part of a list are distinct when those
    of the whole list are. *)
Lemma NoDup_names_sublist {A} (entry : A -> string * node) (l1 l2 : list A) :
  l1 `sublist_of` l2 -> NoDup (entry <$> l2).*1 -> NoDup (entry <$> l1).*1.
Proof.
  intros Hsub Hnd.
  apply (sublist_NoDup (entry <$> l1).*1 (entry <$> l2).*1);
    [exact Hnd|by do 2 apply fmap_sublist].
Qed.

Lemma anime_name_not_later frame fc i (l : list (nat * box)) :
  (forall e, e ∈ l -> (S i <= e.1)%nat) ->
  anime_face_name fc i ∉ (anime_entry frame fc <$> l).*1.
Proof.
  intros Hl. rewrite <- list_fmap_compose.
  intros ([j b] & Hj & Hin%Hl)%list_elem_of_fmap.
  cbn in Hj, Hin. apply anime_face_name_inj in Hj. lia.
Qed.

Lemma written_kept_later frame i boxes e :
  e ∈ written (anime_crop frame) (kept (S i) boxes) -> (S i <= e.1)%nat.
Proof.
  intros Hin. destruct e as [j b].
  eapply kept_ge, elem_of_sublist; [exact Hin|apply written_sublist].
Qed.

Section Anime.

Variable frame : image.
Variable frame_count : nat.

(** The loop writes the crops of the kept candidates, each under its
    position among all candidates, and returns their paths in order; at
    the first crop without pixels [cv2.imwrite] raises, and the loop is
    left with the crops before it written. *)
Lemma anime_loop_spec boxes : forall i detected st,
  (forall j, (i <= j)%nat ->
     faces st !! anime_face_name frame_count j ≠ Some Subdir) ->
  anime_loop frame frame_count i boxes detected st =
    (match first_empty (anime_crop frame) (kept i boxes) with
     | None => Ok (detected ++ (anime_path frame_count <$> kept i boxes))
     | Some e => Raise (Cv2Error (anime_path frame_count e))
     end,
     set_dir Faces
       (list_to_map (anime_entry frame frame_count
                       <$> written (anime_crop frame) (kept i boxes))
        ∪ faces st)
       st).
Proof.
  induction boxes as [|b rest IH]; intros i detected st Hdir.
  - cbn [anime_loop kept first_empty written fmap list_fmap list_to_map foldr].
    unfold ret. rewrite app_nil_r, (left_id_L ∅ (∪)).
    by rewrite (set_get_dir Faces).
  - cbn [anime_loop kept].
    destruct (xyxy b) as [[[x1 y1] x2] y2] eqn:Hxy.
    assert (Hcrop : anime_crop frame b = crop frame y1 y2 x1 x2).
    { unfold anime_crop. by rewrite Hxy. }
    destruct (conf_ok (conf b)) eqn:Hconf.
    2:{ apply IH. intros j Hj. apply Hdir. lia. }
    cbn [first_empty written snd]. rewrite Hcrop.
    destruct (image_empty (crop frame y1 y2 x1 x2)) eqn:Hempty.
    + erewrite bind_raise; [|by apply imwrite_empty].
      cbn [fmap list_fmap list_to_map foldr].
      by rewrite (left_id_L ∅ (∪)), (set_get_dir Faces).
    + erewrite bind_ok; [|apply imwrite_file; [done|apply Hdir; lia]].
      rewrite IH.
      * rewrite !fmap_cons, <- app_assoc. cbn [app].
        rewrite faces_set_dir, set_set_dir.
        change (get_dir Faces st) with (faces st).
        rewrite union_insert_fresh
          by (apply anime_name_not_later, written_kept_later).
        assert (He : anime_entry frame frame_count (i, b) =
                     (anime_face_name frame_count i, File (crop frame y1 y2 x1 x2))).
        { unfold anime_entry. cbn [fst snd]. by rewrite Hcrop. }
        rewrite He.
        by destruct (first_empty (anime_crop frame) (kept (S i) rest)).
      * intros j Hj. rewrite faces_set_dir.
        rewrite lookup_insert_ne; [apply Hdir; lia|].
        intros ?%anime_face_name_inj. lia.
Qed.


End Anime.



Lemma anime_entries_NoDup frame fc i boxes :
  NoDup (anime_entry frame fc <$> kept i boxes).*1.
Proof.
  rewrite <- list_fmap_compose.
  apply NoDup_fmap_2_strong.
  - intros [j b] [j' b'] Hin Hin' Hn. cbn in Hn.
    apply anime_face_name_inj in Hn as <-.
    apply elem_of_kept in Hin as (k & Hk & Hb & _).
    apply elem_of_kept in Hin' as (k' & Hk' & Hb' & _).
    assert (k = k') as <- by lia. congruence.
  - eapply NoDup_fmap_1, kept_positions_NoDup.
Qed.

Lemma anime_written_NoDup frame fc i boxes :
  NoDup (anime_entry frame fc <$> written (anime_crop frame) (kept i boxes)).*1.
Proof.
  eapply NoDup_names_sublist; [apply written_sublist|apply anime_entries_NoDup].
Qed.


(** What [detect_faces_anime] does when the model answers. *)
Lemma detect_faces_anime_spec yolo_model frame fc boxes st :
  yolo_model frame = Ok boxes ->
  (forall j, faces st !! anime_face_name fc j ≠ Some Subdir) ->
  detect_faces_anime yolo_model frame fc st =
    (match first_empty (anime_crop frame) (kept 0 boxes) with
     | None => Ok (anime_path fc <$> kept 0 boxes)
     | Some e => Raise (Cv2Error (anime_path fc e))
     end,
     set_dir Faces
       (list_to_map (anime_entry frame fc
                       <$> written (anime_crop frame) (kept 0 boxes))
        ∪ faces st) st).
Proof.
  intros Hm Hdir. unfold detect_faces_anime.
  erewrite bind_ok; [|unfold lift; by rewrite Hm].
  rewrite anime_loop_spec; [done|]. intros j _. apply Hdir.
Qed.

(** Every passing candidate of [boxes] has a crop with pixels. *)
Lemma kept_crops_ok frame boxes :
  (forall b, b ∈ boxes -> conf_ok (conf b) = true ->
             image_empty (anime_crop frame b) = false) ->
  first_empty (anime_crop frame) (kept 0 boxes) = None.
Proof.
  intros Hok. apply first_empty_None. intros [j b] (k & _ & Hk & Hc)%elem_of_kept.
  apply Hok; [|done]. by eapply list_elem_of_lookup_2.
Qed.

(** The file of ordinal [j] after the detector wrote the crops of all
    passing candidates of a frame none of whose region files existed
    before: it is there exactly when the candidate at position [j]
    passes the threshold. *)
Lemma anime_lookup frame fc boxes (m : gmap string node) j :
  m !! anime_face_name fc j = None ->
  (list_to_map (anime_entry frame fc <$> kept 0 boxes) ∪ m)
    !! anime_face_name fc j =
  match boxes !! j with
  | Some b => if conf_ok (conf b) then Some (File (anime_crop frame b)) else None
  | None => None
  end.
Proof.
  intros Hfresh.
  pose proof (anime_entries_NoDup frame fc 0 boxes) as Hnd.
  assert (Hnone : (forall b, boxes !! j = Some b -> conf_ok (conf b) = false) ->
    (list_to_map (anime_entry frame fc <$> kept 0 boxes) ∪ m)
      !! anime_face_name fc j = None).
  { intros Hb. apply lookup_union_None. split; [|done].
    apply not_elem_of_list_to_map_1. rewrite <- list_fmap_compose.
    intros ([j' b'] & Hn & Hin)%list_elem_of_fmap. cbn in Hn.
    apply anime_face_name_inj in Hn as <-.
    apply elem_of_kept in Hin as (k & -> & Hk & Hc).
    rewrite (Hb _ Hk) in Hc. done. }
  destruct (boxes !! j) as [b|] eqn:Hj; [|by apply Hnone].
  destruct (conf_ok (conf b)) eqn:Hc.
  - apply lookup_union_Some_l. apply elem_of_list_to_map; [done|].
    apply list_elem_of_fmap. exists (j, b). split; [done|].
    apply elem_of_kept. by exists j.
  - apply Hnone. by intros ? [= <-].
Qed.

(** A region file that is there after the detector ran on a frame none
    of whose region files existed before is the crop of a passing
    candidate, and its ordinal is the position of that candidate. *)
Lemma anime_written_lookup frame fc boxes (m : gmap string node) j n :
  m !! anime_face_name fc j = None ->
  (list_to_map (anime_entry frame fc
                  <$> written (anime_crop frame) (kept 0 boxes)) ∪ m)
    !! anime_face_name fc j = Some n ->
  exists b, boxes !! j = Some b /\ conf_ok (conf b) = true /\
            image_empty (anime_crop frame b) = false /\
            n = File (anime_crop frame b).
Proof.
  intros Hfresh Hn. apply lookup_union_Some_raw in Hn as [Hn|[_ Hn]]; [|congruence].
  apply elem_of_list_to_map_2, list_elem_of_fmap in Hn as ([j' b] & Heq & Hin).
  pose proof (f_equal fst Heq) as Hname. pose proof (f_equal snd Heq) as Hn.
  cbn [fst snd anime_entry] in Hname, Hn. subst n.
  apply anime_face_name_inj in Hname as <-.
  assert (Hkept : (j, b) ∈ kept 0 boxes).
  { eapply elem_of_sublist; [exact Hin|apply written_sublist]. }
  apply elem_of_kept in Hkept as (k & -> & Hk & Hc).
  exists b. split; [done|]. split; [done|]. split; [|done].
  clear -Hin. induction (kept 0 boxes) as [|e l IH]; cbn [written] in Hin.
  - by apply elem_of_nil in Hin.
  - destruct (image_empty (anime_crop frame e.2)) eqn:He;
      [by apply elem_of_nil in Hin|].
    apply elem_of_cons in Hin as [<-|Hin]; [done|by apply IH].
Qed.




(** ** The generic detector *)

(** [kept] is [enumerate] followed by the threshold test. *)
Lemma kept_numbered i boxes :
  kept i boxes =
  List.filter (fun e : nat * box => conf_ok (conf e.2)) (numbered i boxes).
Proof.
  revert i. induction boxes as [|b rest IH]; intros i; [done|].
  cbn [kept numbered List.filter snd]. rewrite IH.
  by destruct (conf_ok (conf b)).
Qed.

Lemma elem_of_numbered {A} i (l : list A) j x :
  (j, x) ∈ numbered i l <-> exists k, j = (i + k)%nat /\ l !! k = Some x.
Proof.
  revert i. induction l as [|y rest IH]; intros i; cbn [numbered].
  - split; [by intros ?%elem_of_nil|by intros (k & _ & ?)].
  - rewrite elem_of_cons, IH. split.
    + intros [[= -> ->]|(k & -> & Hk)].
      * exists 0%nat. by rewrite Nat.add_0_r.
      * exists (S k). split; [lia|done].
    + intros ([|k] & -> & Hk).
      * left. injection Hk as ->. by rewrite Nat.add_0_r.
      * right. exists k. split; [lia|done].
Qed.

Lemma numbered_positions {A} i (l : list A) :
  (numbered i l).*1 = seq i (length l).
Proof.
  revert i. induction l as [|x rest IH]; intros i; [done|].
  cbn [numbered length seq]. by rewrite fmap_cons, IH.
Qed.

Lemma length_numbered {A} i (l : list A) : length (numbered i l) = length l.
Proof.
  revert i. induction l as [|x l IH]; intros i; [done|].
  cbn [numbered length]. by rewrite IH.
Qed.

(** The locations that are written are the first ones of the list. *)
Lemma written_numbered {A} (crop_of : A -> image) (l : list A) : forall i,
  written crop_of (numbered i l) =
  numbered i (take (length (written crop_of (numbered i l))) l).
Proof.
  induction l as [|x l IH]; intros i; [done|]. cbn [numbered written snd].
  destruct (image_empty (crop_of x)); [done|].
  cbn [length take numbered]. by rewrite <- IH.
Qed.

Lemma realistic_name_not_later frame fc i (l : list (nat * face_location)) :
  (forall e, e ∈ l -> (S i <= e.1)%nat) ->
  realistic_face_name fc i ∉ (realistic_entry frame fc <$> l).*1.
Proof.
  intros Hl. rewrite <- list_fmap_compose.
  intros ([j b] & Hj & Hin%Hl)%list_elem_of_fmap.
  cbn in Hj, Hin. apply realistic_face_name_inj in Hj. lia.
Qed.

Lemma written_numbered_later frame i (locs : list face_location) e :
  e ∈ written (realistic_crop frame) (numbered (S i) locs) -> (S i <= e.1)%nat.
Proof.
  intros Hin. destruct e as [j loc].
  assert (Hnum : (j, loc) ∈ numbered (S i) locs).
  { eapply elem_of_sublist; [exact Hin|apply written_sublist]. }
  apply elem_of_numbered in Hnum as (k & -> & _). cbn. lia.
Qed.

(** The loop writes one crop per location, numbered in order; at the
    first crop without pixels [cv2.imwrite] raises, and the loop is left
    with the crops before it written. *)
Lemma realistic_loop_spec frame fc locations : forall i faces_acc st,
  (forall j, (i <= j)%nat -> faces st !! realistic_face_name fc j ≠ Some Subdir) ->
  realistic_loop frame fc i locations faces_acc st =
    (match first_empty (realistic_crop frame) (numbered i locations) with
     | None => Ok (faces_acc ++ (realistic_path fc <$> numbered i locations))
     | Some e => Raise (Cv2Error (realistic_path fc e))
     end,
     set_dir Faces
       (list_to_map (realistic_entry frame fc
                       <$> written (realistic_crop frame) (numbered i locations))
        ∪ faces st)
       st).
Proof.
  induction locations as [|loc rest IH]; intros i faces_acc st Hdir.
  - cbn [realistic_loop numbered first_empty written fmap list_fmap list_to_map
         foldr].
    unfold ret. rewrite app_nil_r, (left_id_L ∅ (∪)).
    by rewrite (set_get_dir Faces).
  - cbn [realistic_loop numbered first_empty written snd].
    assert (He : realistic_entry frame fc (i, loc) =
                 (realistic_face_name fc i, File (realistic_crop frame loc))) by done.
    assert (Hcrop : forall top right' bottom left',
              loc = (top, right', bottom, left') ->
              realistic_crop frame loc = crop frame top bottom left' right').
    { by intros ? ? ? ? ->. }
    destruct loc as [[[top right'] bottom] left'].
    rewrite (Hcrop top right' bottom left' eq_refl) in *.
    destruct (image_empty (crop frame top bottom left' right')) eqn:Hempty.
    + erewrite bind_raise; [|by apply imwrite_empty].
      cbn [fmap list_fmap list_to_map foldr].
      by rewrite (left_id_L ∅ (∪)), (set_get_dir Faces).
    + erewrite bind_ok; [|apply imwrite_file; [done|apply Hdir; lia]].
      rewrite IH.
      * rewrite !fmap_cons, <- app_assoc. cbn [app].
        rewrite faces_set_dir, set_set_dir.
        change (get_dir Faces st) with (faces st).
        rewrite union_insert_fresh
          by (apply realistic_name_not_later, written_numbered_later).
        rewrite He.
        by destruct (first_empty (realistic_crop frame) (numbered (S i) rest)).
      * intros j Hj. rewrite faces_set_dir.
        rewrite lookup_insert_ne; [apply Hdir; lia|].
        intros ?%realistic_face_name_inj. lia.
Qed.

(** How the loop ends does not depend on the state of [faces/]. *)
Lemma realistic_loop_returns frame fc locations : forall i faces_acc st,
  exists st',
    realistic_loop frame fc i locations faces_acc st =
      (match first_empty (realistic_crop frame) (numbered i locations) with
       | None => Ok (faces_acc ++ (realistic_path fc <$> numbered i locations))
       | Some e => Raise (Cv2Error (realistic_path fc e))
       end, st').
Proof.
  induction locations as [|loc rest IH]; intros i faces_acc st;
    cbn [realistic_loop numbered first_empty snd].
  - exists st. unfold ret. by rewrite fmap_nil, app_nil_r.
  - assert (Hcrop : forall top right' bottom left',
              loc = (top, right', bottom, left') ->
              realistic_crop frame loc = crop frame top bottom left' right').
    { by intros ? ? ? ? ->. }
    destruct loc as [[[top right'] bottom] left'].
    rewrite (Hcrop top right' bottom left' eq_refl).
    destruct (image_empty (crop frame top bottom left' right')) eqn:Hempty.
    + exists st. erewrite bind_raise; [done|by apply imwrite_empty].
    + unfold bind, imwrite. rewrite Hempty.
      destruct (get_dir Faces st !! realistic_face_name fc i) as [[?| |]|];
        match goal with
        | |- exists _, realistic_loop _ _ _ _ ?d ?s = _ =>
            destruct (IH (S i) d s) as [st' ->]
        end;
        exists st'; by rewrite fmap_cons, <- app_assoc.
Qed.

Lemma detect_faces_realistic_spec face_locations frame fc locations st :
  face_locations (cvtColor_BGR2RGB frame) = Ok locations ->
  (forall j, faces st !! realistic_face_name fc j ≠ Some Subdir) ->
  detect_faces_realistic face_locations frame fc st =
    (match first_empty (realistic_crop frame) (numbered 0 locations) with
     | None => Ok (realistic_path fc <$> numbered 0 locations)
     | Some e => Raise (Cv2Error (realistic_path fc e))
     end,
     set_dir Faces
       (list_to_map (realistic_entry frame fc
                       <$> written (realistic_crop frame) (numbered 0 locations))
        ∪ faces st)
       st).
Proof.
  intros Hm Hdir. unfold detect_faces_realistic.
  erewrite bind_ok; [|unfold lift; by rewrite Hm].
  rewrite realistic_loop_spec; [done|]. intros j _. apply Hdir.
Qed.

Lemma realistic_entries_NoDup frame fc i (locs : list face_location) :
  NoDup (realistic_entry frame fc <$> numbered i locs).*1.
Proof.
  rewrite <- list_fmap_compose.
  apply NoDup_fmap_2_strong.
  - intros [j b] [j' b'] Hin Hin' Hn. cbn in Hn.
    apply realistic_face_name_inj in Hn as <-.
    apply elem_of_numbered in Hin as (k & Hk & Hb).
    apply elem_of_numbered in Hin' as (k' & Hk' & Hb').
    assert (k = k') as <- by lia. congruence.
  - apply (NoDup_fmap_1 fst). rewrite numbered_positions. apply NoDup_seq.
Qed.

Lemma realistic_written_NoDup frame fc i (locs : list face_location) :
  NoDup (realistic_entry frame fc
           <$> written (realistic_crop frame) (numbered i locs)).*1.
Proof.
  eapply NoDup_names_sublist; [apply written_sublist|apply realistic_entries_NoDup].
Qed.

(** The file of ordinal [j] after the generic detector wrote the crops
    of the locations [locs] to a frame none of whose region files
    existed before. *)
Lemma realistic_lookup frame fc (locs : list face_location)
    (m : gmap string node) j :
  m !! realistic_face_name fc j = None ->
  (list_to_map (realistic_entry frame fc <$> numbered 0 locs) ∪ m)
    !! realistic_face_name fc j =
  (fun loc => File (realistic_crop frame loc)) <$> locs !! j.
Proof.
  intros Hfresh.
  pose proof (realistic_entries_NoDup frame fc 0 locs) as Hnd.
  destruct (locs !! j) as [loc|] eqn:Hj; cbn [fmap option_fmap option_map].
  - apply lookup_union_Some_l. apply elem_of_list_to_map; [done|].
    apply list_elem_of_fmap. exists (j, loc). split; [done|].
    apply elem_of_numbered. by exists j.
  - apply lookup_union_None. split; [|done].
    apply not_elem_of_list_to_map_1. rewrite <- list_fmap_compose.
    intros ([j' b'] & Hn & Hin)%list_elem_of_fmap. cbn in Hn.
    apply realistic_face_name_inj in Hn as <-.
    apply elem_of_numbered in Hin as (k & -> & Hk). cbn in Hj. congruence.
Qed.

(** C9. The ordinal in the name of a region file.  For a frame none of
    whose region files exists yet.  After the bounding-box detector,
    however it ends, a region file of ordinal [j] is the crop of the
    candidate at position [j] of the model's list, counted before the
    threshold test, and that candidate passes the test; when the crop of
    every passing candidate holds a pixel, the file of ordinal [j]
    exists exactly when the candidate at position [j] passes, so a
    candidate below 0.5 that is followed by one that passes leaves a gap
    in the ordinals.  After the generic detector, however it ends, the
    files are those of the ordinals 0..k-1 for some k, the file of
    ordinal [j] holding the crop of the location at position [j]; k is
    the number of located subjects when each of their crops holds a
    pixel.  Neither detector touches a file of another name. *)
Theorem region_ordinals
    (face_locations : image -> result (list face_location))
    (yolo_model : image -> result (list box))
    (frame : image) (frame_count : nat)
    (boxes : list box) (locations : list face_location) (st : state) :
  yolo_model frame = Ok boxes ->
  face_locations (cvtColor_BGR2RGB frame) = Ok locations ->
  (forall j, faces st !! anime_face_name frame_count j = None) ->
  (forall j, faces st !! realistic_face_name frame_count j = None) ->
  let anime := faces (final (detect_faces_anime yolo_model frame frame_count st)) in
  let realistic :=
    faces (final (detect_faces_realistic face_locations frame frame_count st)) in
  (forall j n,
     anime !! anime_face_name frame_count j = Some n ->
     exists b, boxes !! j = Some b /\ conf_ok (conf b) = true /\
               n = File (anime_crop frame b)) /\
  ((forall b, b ∈ boxes -> conf_ok (conf b) = true ->
              image_empty (anime_crop frame b) = false) ->
   (forall j,
      anime !! anime_face_name frame_count j =
      match boxes !! j with
      | Some b => if conf_ok (conf b) then Some (File (anime_crop frame b)) else None
      | None => None
      end) /\
   (forall j j' b b',
      (j < j')%nat ->
      boxes !! j = Some b -> conf_ok (conf b) = false ->
      boxes !! j' = Some b' -> conf_ok (conf b') = true ->
      anime !! anime_face_name frame_count j = None /\
      is_Some (anime !! anime_face_name frame_count j'))) /\
  (forall name, (forall j, name ≠ anime_face_name frame_count j) ->
     anime !! name = faces st !! name) /\
  (exists k,
     (k <= length locations)%nat /\
     (forall j, is_Some (realistic !! realistic_face_name frame_count j) <->
                (j < k)%nat) /\
     (forall j loc, (j < k)%nat -> locations !! j = Some loc ->
        realistic !! realistic_face_name frame_count j
        = Some (File (realistic_crop frame loc))) /\
     ((forall loc, loc ∈ locations ->
                   image_empty (realistic_crop frame loc) = false) ->
      k = length locations)) /\
  (forall name, (forall j, name ≠ realistic_face_name frame_count j) ->
     realistic !! name = faces st !! name).
Proof.
  intros Hy Hf Ha Hr anime realistic.
  assert (Hanime : anime =
    list_to_map (anime_entry frame frame_count
                   <$> written (anime_crop frame) (kept 0 boxes)) ∪ faces st).
  { subst anime.
    by rewrite (detect_faces_anime_spec _ _ _ boxes) by (by intros; rewrite ?Ha). }
  assert (Hreal : realistic =
    list_to_map (realistic_entry frame frame_count
                   <$> written (realistic_crop frame) (numbered 0 locations))
    ∪ faces st).
  { subst realistic.
    by rewrite (detect_faces_realistic_spec _ _ _ locations)
      by (by intros; rewrite ?Hr). }
  split.
  { intros j n Hn. rewrite Hanime in Hn.
    apply anime_written_lookup in Hn as (b & ? & ? & _ & ?); [|done]. by exists b. }
  split.
  { intros Hok. apply kept_crops_ok, written_all in Hok.
    assert (Hall : forall j,
      anime !! anime_face_name frame_count j =
      match boxes !! j with
      | Some b => if conf_ok (conf b) then Some (File (anime_crop frame b)) else None
      | None => None
      end).
    { intros j. rewrite Hanime, Hok. by apply anime_lookup. }
    split; [done|].
    intros j j' b b' _ Hj Hc Hj' Hc'. rewrite !Hall, Hj, Hc, Hj', Hc'. eauto. }
  split.
  { intros name Hname. rewrite Hanime.
    apply lookup_union_r, not_elem_of_list_to_map_1.
    rewrite <- list_fmap_compose.
    intros ([j b] & -> & _)%list_elem_of_fmap. by apply (Hname j). }
  split.
  { set (k := length (written (realistic_crop frame) (numbered 0 locations))).
    assert (Hk : (k <= length locations)%nat).
    { subst k.
      destruct (written_length (realistic_crop frame) (numbered 0 locations))
        as [Hle _]. by rewrite length_numbered in Hle. }
    assert (Hlookup : forall j,
      realistic !! realistic_face_name frame_count j =
      (fun loc => File (realistic_crop frame loc)) <$> take k locations !! j).
    { intros j. rewrite Hreal, written_numbered. fold k. by apply realistic_lookup. }
    exists k. split; [done|]. split; [|split].
    - intros j. rewrite Hlookup, fmap_is_Some, lookup_lt_is_Some.
      rewrite length_take. lia.
    - intros j loc Hj Hloc. rewrite Hlookup, lookup_take, decide_True by done.
      by rewrite Hloc.
    - intros Hok. subst k. rewrite written_all, length_numbered; [done|].
      apply first_empty_None. intros [j loc] (i & _ & Hi)%elem_of_numbered.
      apply Hok. by eapply list_elem_of_lookup_2. }
  intros name Hname. rewrite Hreal.
  apply lookup_union_r, not_elem_of_list_to_map_1.
  rewrite <- list_fmap_compose.
  intros ([j b] & -> & _)%list_elem_of_fmap. by apply (Hname j).
Qed.

Lemma region_ordinals_witness :
  let anime :=
    faces (final (detect_faces_anime (fun _ => Ok gap_boxes) small_frame 7
                    blank_workspace)) in
  let realistic :=
    faces (final (detect_faces_realistic (fun _ => Ok two_locations) small_frame 7
                    blank_workspace)) in
  (anime !! anime_face_name 7 1 = None /\
   is_Some (anime !! anime_face_name 7 2)) /\
  (is_Some (realistic !! realistic_face_name 7 1) <-> (1 < 2)%nat).
Proof.
  intros anime realistic.
  destruct (region_ordinals (fun _ => Ok two_locations) (fun _ => Ok gap_boxes)
              small_frame 7 gap_boxes two_locations blank_workspace)
    as (_ & Hgap & _ & (k & _ & Hreal & _ & Hk) & _).
  - reflexivity.
  - reflexivity.
  - intros j. apply lookup_empty.
  - intros j. apply lookup_empty.
  - destruct Hgap as [_ Hgap].
    { intros b Hb _. repeat (apply elem_of_cons in Hb as [->|Hb]);
        [reflexivity..|by apply elem_of_nil in Hb]. }
    rewrite Hk in Hreal.
    2:{ intros loc Hloc. repeat (apply elem_of_cons in Hloc as [->|Hloc]);
          [reflexivity..|by apply elem_of_nil in Hloc]. }
    split.
    + apply (Hgap 1%nat 2%nat (mkBox (0, 0, 2, 1) 0.25%float)
               (mkBox (1, 0, 2, 2) 0.875%float)); [lia|reflexivity..].
    + apply (Hreal 1%nat).
Defined.

(** The region files of that frame carry the ordinals 0 and 2. *)
Example gap_boxes_ordinals :
  dom (faces (final (detect_faces_anime (fun _ => Ok gap_boxes) small_frame 7
                       blank_workspace)))
  = {[ "anime_face_7_0.jpg"; "anime_face_7_2.jpg" ]}.
Proof. vm_compute. reflexivity. Qed.

(** ** Streaming the frames of one video *)

Lemma snapshot_name_not_later i (frames : list image) :
  frame_name i ∉ (snapshot_entry <$> numbered (S i) frames).*1.
Proof.
  rewrite <- list_fmap_compose.
  intros ([j b] & Hj & Hin)%list_elem_of_fmap.
  cbn in Hj. apply frame_name_inj in Hj.
  apply elem_of_numbered in Hin as (k & ? & _). lia.
Qed.

Lemma snapshot_entries_NoDup i (frames : list image) :
  NoDup (snapshot_entry <$> numbered i frames).*1.
Proof.
  rewrite <- list_fmap_compose.
  apply NoDup_fmap_2_strong.
  - intros [j b] [j' b'] Hin Hin' Hn. cbn in Hn.
    apply frame_name_inj in Hn as <-.
    apply elem_of_numbered in Hin as (k & Hk & Hb).
    apply elem_of_numbered in Hin' as (k' & Hk' & Hb').
    assert (k = k') as <- by lia. congruence.
  - apply (NoDup_fmap_1 fst). rewrite numbered_positions. apply NoDup_seq.
Qed.


(** [snapshots 0 frames] holds one file per frame, [frame_j.jpg] for the
    frame of index [j], and nothing else. *)
Lemma snapshots_lookup frames j :
  snapshots 0 frames !! frame_name j = File <$> frames !! j.
Proof.
  unfold snapshots.
  pose proof (snapshot_entries_NoDup 0 frames) as Hnd.
  destruct (frames !! j) as [f|] eqn:Hj; cbn [fmap option_fmap option_map].
  - apply elem_of_list_to_map; [done|].
    apply list_elem_of_fmap. exists (j, f). split; [done|].
    apply elem_of_numbered. by exists j.
  - apply not_elem_of_list_to_map_1. rewrite <- list_fmap_compose.
    intros ([j' b'] & Hn & Hin)%list_elem_of_fmap. cbn in Hn.
    apply frame_name_inj in Hn as <-.
    apply elem_of_numbered in Hin as (k & -> & Hk). cbn in Hj. congruence.
Qed.

Lemma snapshots_names frames name :
  is_Some (snapshots 0 frames !! name) <->
  exists j, (j < length frames)%nat /\ name = frame_name j.
Proof.
  split.
  - intros [x Hx]. unfold snapshots in Hx.
    apply elem_of_list_to_map in Hx; [|apply snapshot_entries_NoDup].
    apply list_elem_of_fmap in Hx as ([j f] & [= -> ->] & Hin).
    apply elem_of_numbered in Hin as (k & -> & Hk).
    exists k. split; [by eapply lookup_lt_Some|done].
  - intros (j & Hj & ->). rewrite snapshots_lookup, fmap_is_Some.
    by apply lookup_lt_is_Some.
Qed.

Lemma snapshots_size i frames : size (snapshots i frames) = length frames.
Proof.
  unfold snapshots. rewrite map_size_list_to_map by apply snapshot_entries_NoDup.
  by rewrite length_fmap, length_numbered.
Qed.

(** ** Region files of different frames *)

Lemma pretty_N_go_no_underscore x s :
  occurs "_" s = false -> occurs "_" (pretty_N_go x s) = false.
Proof.
  revert s. induction (N.lt_wf_0 x) as [x _ IH]; intros s Hs.
  assert (x = 0 \/ 0 < x)%N as [->|Hpos] by lia.
  - by rewrite pretty_N_go_0.
  - rewrite pretty_N_go_step by done. apply IH.
    { by apply N.div_lt. }
    cbn [occurs]. unfold pretty_N_char. by repeat case_match.
Qed.

(** The decimal form of a number has no underscore. *)
Lemma pretty_nat_no_underscore (n : nat) : occurs "_" (pretty n) = false.
Proof.
  unfold pretty, pretty_nat, pretty, pretty_N.
  case_decide; [done|]. by apply pretty_N_go_no_underscore.
Qed.

(** Two strings without underscore that are followed by one. *)
Lemma split_at_underscore a b s t :
  occurs "_" a = false -> occurs "_" b = false ->
  a +:+ String "_" s = b +:+ String "_" t -> a = b /\ s = t.
Proof.
  revert b. induction a as [|c a IH]; intros [|c' b] Ha Hb H.
  - by injection H.
  - change (String c' b +:+ ?u) with (String c' (b +:+ u)) in H.
    injection H as <- _. done.
  - change (String c a +:+ ?u) with (String c (a +:+ u)) in H.
    injection H as -> _. done.
  - change (String c a +:+ ?u) with (String c (a +:+ u)) in H.
    change (String c' b +:+ ?u) with (String c' (b +:+ u)) in H.
    injection H as -> H. cbn [occurs] in Ha, Hb.
    destruct (Ascii.eqb c' "_"); [done|].
    destruct (IH b Ha Hb H) as [-> ->]. done.
Qed.

Lemma anime_face_name_frame fc i fc' i' :
  anime_face_name fc i = anime_face_name fc' i' -> fc = fc'.
Proof.
  unfold anime_face_name. intros H. apply String.app_inj in H.
  apply split_at_underscore in H as [H _]; [|apply pretty_nat_no_underscore..].
  by apply (inj pretty) in H.
Qed.

Lemma realistic_face_name_frame fc i fc' i' :
  realistic_face_name fc i = realistic_face_name fc' i' -> fc = fc'.
Proof.
  unfold realistic_face_name. intros H. apply String.app_inj in H.
  apply split_at_underscore in H as [H _]; [|apply pretty_nat_no_underscore..].
  by apply (inj pretty) in H.
Qed.

Lemma region_name_frame fc fc' name :
  region_name fc name -> region_name fc' name -> fc = fc'.
Proof.
  intros [i [-> | ->]] [i' [H | H]].
  - by apply anime_face_name_frame in H.
  - discriminate H.
  - discriminate H.
  - by apply realistic_face_name_frame in H.
Qed.

(** ** What the loop over the frames touches *)

(** [imwrite] changes its directory only, and there only the file it is
    to write. *)
Lemma imwrite_frame d name img st :
  exists r m, imwrite d name img st = (r, set_dir d m st) /\
    (image_empty img = false -> exists b, r = Ok b).
Proof.
  unfold imwrite. destruct (image_empty img).
  { exists (Raise (Cv2Error (OsPath.join (dir_path d) name))), (get_dir d st).
    by rewrite set_get_dir. }
  destruct (get_dir d st !! name) as [[?| |]|].
  - eexists _, _. split; [done|]. by eauto.
  - eexists _, _. split; [done|]. by eauto.
  - exists (Ok false), (get_dir d st). rewrite set_get_dir. by eauto.
  - eexists _, _. split; [done|]. by eauto.
Qed.

Lemma anime_loop_frame frame fc boxes : forall i detected st,
  exists r m, anime_loop frame fc i boxes detected st = (r, set_dir Faces m st).
Proof.
  induction boxes as [|b rest IH]; intros i detected st; cbn [anime_loop].
  - exists (Ok detected), (faces st). unfold ret. by rewrite (set_get_dir Faces).
  - destruct (xyxy b) as [[[x1 y1] x2] y2]. destruct (conf_ok (conf b)); [|done].
    destruct (imwrite_frame Faces (anime_face_name fc i) (crop frame y1 y2 x1 x2) st)
      as (r & m & Hw & _).
    destruct r as [ok|e].
    + rewrite (bind_ok _ _ _ _ _ Hw).
      destruct (IH (S i) (detected ++ [OsPath.join faces_dir (anime_face_name fc i)])
                  (set_dir Faces m st)) as (r' & m' & ->).
      exists r', m'. by rewrite set_set_dir.
    + rewrite (bind_raise _ _ _ _ _ Hw). by exists (Raise e), m.
Qed.

Lemma realistic_loop_frame frame fc locations : forall i faces_acc st,
  exists r m,
    realistic_loop frame fc i locations faces_acc st = (r, set_dir Faces m st).
Proof.
  induction locations as [|loc rest IH]; intros i faces_acc st; cbn [realistic_loop].
  - exists (Ok faces_acc), (faces st). unfold ret. by rewrite (set_get_dir Faces).
  - destruct loc as [[[top right'] bottom] left'].
    destruct (imwrite_frame Faces (realistic_face_name fc i)
                (crop frame top bottom left' right') st) as (r & m & Hw & _).
    destruct r as [ok|e].
    + rewrite (bind_ok _ _ _ _ _ Hw).
      destruct (IH (S i)
                  (faces_acc ++ [OsPath.join faces_dir (realistic_face_name fc i)])
                  (set_dir Faces m st)) as (r' & m' & ->).
      exists r', m'. by rewrite set_set_dir.
    + rewrite (bind_raise _ _ _ _ _ Hw). by exists (Raise e), m.
Qed.

(** ** Working directories of regular files *)

Lemma only_files_empty : only_files ∅.
Proof. intros k n Hk. by rewrite lookup_empty in Hk. Qed.

Lemma only_files_union (m1 m2 : gmap string node) :
  only_files m1 -> only_files m2 -> only_files (m1 ∪ m2).
Proof.
  intros H1 H2 k n Hk. apply lookup_union_Some_raw in Hk as [Hk|[_ Hk]]; eauto.
Qed.

Lemma only_files_list_to_map (l : list (string * node)) :
  Forall (fun e => exists img, e.2 = File img) l -> only_files (list_to_map l).
Proof.
  intros Hall k n Hk. apply elem_of_list_to_map_2 in Hk.
  rewrite List.Forall_forall in Hall. apply list_elem_of_In in Hk.
  apply (Hall _ Hk).
Qed.

Lemma only_files_no_subdir (m : gmap string node) k :
  only_files m -> m !! k ≠ Some Subdir.
Proof. intros Hm Hk. destruct (Hm _ _ Hk) as [? ?]; done. Qed.

Lemma only_files_snapshots i frames : only_files (snapshots i frames).
Proof.
  apply only_files_list_to_map, List.Forall_forall.
  intros e He. apply in_map_iff in He as ([j f] & <- & _). by exists f.
Qed.

Section Streaming.

Variable face_locations : image -> result (list face_location).
Variable yolo_model : image -> result (list box).
Variable mode : string.

(** The detector step changes [faces/] only. *)
Lemma detect_frame frame fc st :
  exists r m,
    detect face_locations yolo_model mode frame fc st = (r, set_dir Faces m st).
Proof.
  assert (Hsame : forall r : result unit,
    exists r' m, (r, st) = (r', set_dir Faces m st)).
  { intros r. exists r, (faces st). by rewrite (set_get_dir Faces). }
  unfold detect.
  destruct (String.eqb mode "Realistic").
  - unfold detect_faces_realistic, lift, bind at 1 2.
    destruct (face_locations (cvtColor_BGR2RGB frame)) as [locations|e].
    + destruct (realistic_loop_frame frame fc locations 0%nat [] st)
        as (r & m & ->). destruct r; by eexists _, m.
    + apply Hsame.
  - destruct (String.eqb mode "Anime").
    + unfold detect_faces_anime, lift, bind at 1 2.
      destruct (yolo_model frame) as [boxes|e].
      * destruct (anime_loop_frame frame fc boxes 0%nat [] st)
          as (r & m & ->). destruct r; by eexists _, m.
      * apply Hsame.
    + apply Hsame.
Qed.

(** The entries of the frame [fc] are files named for that frame, under
    names that differ, as many as [region_count] says. *)
Lemma region_entries_spec frame fc :
  Forall (fun e : string * node => region_name fc e.1 /\ exists img, e.2 = File img)
    (region_entries face_locations yolo_model mode frame fc) /\
  NoDup (region_entries face_locations yolo_model mode frame fc).*1 /\
  length (region_entries face_locations yolo_model mode frame fc)
  = region_count face_locations yolo_model mode frame.
Proof.
  unfold region_entries, region_count.
  assert (Hnil : Forall (fun e : string * node =>
                   region_name fc e.1 /\ exists img, e.2 = File img) [] /\
                 NoDup ([] : list (string * node)).*1 /\
                 length ([] : list (string * node)) = 0%nat).
  { split; [constructor|]. split; [constructor|done]. }
  destruct (String.eqb mode "Realistic").
  - destruct (face_locations (cvtColor_BGR2RGB frame)) as [locations|e]; [|done].
    split; [|split].
    + apply List.Forall_forall. intros e He.
      apply in_map_iff in He as ([j loc] & <- & _). cbn. split; [|by eauto].
      exists j. by right.
    + apply realistic_written_NoDup.
    + by rewrite length_fmap.
  - destruct (String.eqb mode "Anime"); [|done].
    destruct (yolo_model frame) as [boxes|e]; [|done].
    split; [|split].
    + apply List.Forall_forall. intros e He.
      apply in_map_iff in He as ([j b] & <- & _). cbn. split; [|by eauto].
      exists j. by left.
    + apply anime_written_NoDup.
    + by rewrite length_fmap.
Qed.

(** The detector step on one frame, in a directory of regular files. *)
Lemma detect_exact frame fc st :
  only_files (faces st) ->
  detect face_locations yolo_model mode frame fc st =
    (detect_outcome face_locations yolo_model mode frame fc,
     set_dir Faces
       (list_to_map (region_entries face_locations yolo_model mode frame fc)
        ∪ faces st) st).
Proof.
  intros Hof.
  assert (Hsame : forall r : result unit,
    (r, st) = (r, set_dir Faces (list_to_map [] ∪ faces st) st)).
  { intros r. cbn [list_to_map foldr].
    by rewrite (left_id_L ∅ (∪)), (set_get_dir Faces). }
  unfold detect, detect_outcome, region_entries.
  destruct (String.eqb mode "Realistic").
  - destruct (face_locations (cvtColor_BGR2RGB frame)) as [locations|e] eqn:Hl.
    + pose proof (detect_faces_realistic_spec face_locations frame fc locations st Hl)
        as Hd.
      destruct (first_empty (realistic_crop frame) (numbered 0 locations)).
      * erewrite bind_raise; [done|].
        apply Hd. intros j. by apply only_files_no_subdir.
      * erewrite bind_ok; [done|].
        apply Hd. intros j. by apply only_files_no_subdir.
    + erewrite bind_raise; [apply Hsame|].
      unfold detect_faces_realistic. erewrite bind_raise; [done|].
      unfold lift. by rewrite Hl.
  - destruct (String.eqb mode "Anime"); [|apply Hsame].
    destruct (yolo_model frame) as [boxes|e] eqn:Hl.
    + pose proof (detect_faces_anime_spec yolo_model frame fc boxes st Hl) as Hd.
      destruct (first_empty (anime_crop frame) (kept 0 boxes)).
      * erewrite bind_raise; [done|].
        apply Hd. intros j. by apply only_files_no_subdir.
      * erewrite bind_ok; [done|].
        apply Hd. intros j. by apply only_files_no_subdir.
    + erewrite bind_raise; [apply Hsame|].
      unfold detect_faces_anime. erewrite bind_raise; [done|].
      unfold lift. by rewrite Hl.
Qed.

(** A detector step whose library call raises writes nothing. *)
Lemma region_entries_library_raise frame fc e :
  library_call face_locations yolo_model mode frame = Raise e ->
  region_entries face_locations yolo_model mode frame fc = [] /\
  detect_outcome face_locations yolo_model mode frame fc = Raise e.
Proof.
  unfold library_call, region_entries, detect_outcome.
  destruct (String.eqb mode "Realistic").
  - destruct (face_locations (cvtColor_BGR2RGB frame)); [done|]. by intros [= ->].
  - destruct (String.eqb mode "Anime"); [|done].
    destruct (yolo_model frame); [done|]. by intros [= ->].
Qed.

Lemma processed_length frames : forall fc,
  (length (processed face_locations yolo_model mode fc frames) <= length frames)%nat.
Proof.
  induction frames as [|f frames IH]; intros fc; cbn [processed]; [done|].
  destruct (detect_outcome face_locations yolo_model mode f fc); cbn [length].
  - specialize (IH (S fc)). lia.
  - lia.
Qed.

(** The region files of a video are files of the frames the loop
    reached, under names that differ. *)
Lemma regions_from_spec frames : forall fc,
  Forall (fun e : string * node =>
            (exists j,
               (fc <= j < fc + length (processed face_locations yolo_model mode
                                         fc frames))%nat /\
               region_name j e.1) /\
            exists img, e.2 = File img)
    (regions_from face_locations yolo_model mode fc frames) /\
  NoDup (regions_from face_locations yolo_model mode fc frames).*1 /\
  length (regions_from face_locations yolo_model mode fc frames) =
    sum_list (region_count face_locations yolo_model mode <$>
              processed face_locations yolo_model mode fc frames).
Proof.
  induction frames as [|frame rest IH]; intros fc;
    cbn [regions_from processed].
  { split; [constructor|]. split; [constructor|done]. }
  destruct (region_entries_spec frame fc) as (Hall & Hnd & Hlen).
  destruct (detect_outcome face_locations yolo_model mode frame fc) as [[]|e].
  2:{ rewrite app_nil_r. cbn [length fmap list_fmap sum_list].
      split; [|split; [done|rewrite Hlen; cbn; lia]].
      eapply Forall_impl; [exact Hall|]. intros e' [Hn Hf]. split; [|done].
      exists fc. split; [lia|done]. }
  destruct (IH (S fc)) as (Hall' & Hnd' & Hlen').
  split; [|split].
  - apply Forall_app. split.
    + eapply Forall_impl; [exact Hall|]. intros e [Hn Hf]. split; [|done].
      exists fc. cbn [length]. split; [lia|done].
    + eapply Forall_impl; [exact Hall'|]. intros e [(j & Hj & Hn) Hf].
      split; [|done]. exists j. cbn [length]. split; [lia|done].
  - rewrite fmap_app. apply NoDup_app. split; [done|]. split; [|done].
    intros name Hin Hin'.
    apply list_elem_of_fmap in Hin as (e & -> & He).
    apply list_elem_of_fmap in Hin' as (e' & Heq & He').
    rewrite List.Forall_forall in Hall, Hall'.
    apply list_elem_of_In in He, He'.
    destruct (Hall _ He) as [Hn _].
    destruct (Hall' _ He') as [(j & Hj & Hn') _].
    rewrite <- Heq in Hn'.
    pose proof (region_name_frame _ _ _ Hn Hn'). lia.
  - rewrite length_app, Hlen, Hlen'. cbn [fmap list_fmap sum_list]. done.
Qed.

(** The streaming loop in a workspace of regular files: the snapshots of
    the frames it reaches and the region files the detector step writes
    for them are added to the working directories, and the loop ends as
    [stream_outcome] says. *)
Lemma stream_frames_exact packets : forall fc st,
  only_files (screencaps st) -> only_files (faces st) ->
  stream_frames face_locations yolo_model mode packets fc st =
    (stream_outcome face_locations yolo_model mode fc (decoded packets),
     set_dir Faces
       (list_to_map (regions_from face_locations yolo_model mode fc (decoded packets))
        ∪ faces st)
       (set_dir Screencaps
          (snapshots fc (processed face_locations yolo_model mode fc (decoded packets))
           ∪ screencaps st) st)).
Proof.
  assert (Hstop : forall fc st,
    (Ok tt, st) =
      (Ok tt : result unit,
       set_dir Faces (list_to_map [] ∪ faces st)
         (set_dir Screencaps (snapshots fc [] ∪ screencaps st) st))).
  { intros fc st. unfold snapshots.
    cbn [numbered fmap list_fmap list_to_map foldr].
    rewrite !(left_id_L ∅ (∪)). by destruct st. }
  induction packets as [|[frame|] rest IH]; intros fc st Hsc Hfc;
    cbn [stream_frames decoded]; [apply Hstop| |apply Hstop].
  destruct (image_empty frame) eqn:Hempty; [apply Hstop|].
  cbn [processed stream_outcome regions_from].
  erewrite bind_ok; [|by apply imwrite_file, only_files_no_subdir].
  change (get_dir Screencaps st) with (screencaps st).
  set (st1 := set_dir Screencaps (<[frame_name fc:=File frame]> (screencaps st)) st).
  assert (Hsc1 : only_files (screencaps st1)).
  { subst st1. cbn [set_dir screencaps]. intros k n Hk.
    apply lookup_insert_Some in Hk as [[_ <-]|[_ Hk]]; eauto. }
  pose proof (detect_exact frame fc st1 Hfc) as Hd.
  destruct (region_entries_spec frame fc) as (Hall & Hnd & _).
  destruct (detect_outcome face_locations yolo_model mode frame fc) as [[]|e].
  - rewrite (bind_ok _ _ _ _ _ Hd).
    rewrite IH.
    + f_equal. subst st1. cbn [set_dir screencaps faces input output stdout].
      f_equal.
      * unfold snapshots. cbn [numbered]. rewrite fmap_cons.
        change (snapshot_entry (fc, frame)) with (frame_name fc, File frame).
        by rewrite union_insert_fresh by apply snapshot_name_not_later.
      * rewrite list_to_map_app, (assoc_L (∪)). f_equal.
        apply map_union_comm.
        apply map_disjoint_spec. intros name n n' Hn Hn'.
        apply elem_of_list_to_map_2, list_elem_of_In in Hn, Hn'.
        destruct (regions_from_spec (decoded rest) (S fc)) as (Hall' & _).
        rewrite List.Forall_forall in Hall, Hall'.
        destruct (Hall _ Hn') as [Hr _].
        destruct (Hall' _ Hn) as [(j & Hj & Hr') _]. cbn in Hr, Hr'.
        pose proof (region_name_frame _ _ _ Hr Hr'). lia.
    + done.
    + cbn [set_dir faces]. apply only_files_union; [|done].
      apply only_files_list_to_map.
      eapply Forall_impl; [exact Hall|]. by intros e [_ Hf].
  - rewrite (bind_raise _ _ _ _ _ Hd).
    f_equal. subst st1. cbn [set_dir screencaps faces input output stdout].
    rewrite app_nil_r. f_equal.
    unfold snapshots. cbn [numbered fmap list_fmap list_to_map foldr].
    unfold snapshot_entry at 1. cbn [fst snd].
    by rewrite <- insert_union_l, (left_id_L ∅ (∪)).
Qed.

End Streaming.

(** In a run of the script no region file of a frame exists when the
    detector is called on it: after the streaming loop has reached the
    frames of indices below [k], from an empty [faces/], there is no
    region file of the frame [k] or of a later one. *)
Lemma regions_fresh_in_stream face_locations yolo_model mode packets st st' r :
  faces st = ∅ ->
  only_files (screencaps st) ->
  stream_frames face_locations yolo_model mode packets 0 st = (r, st') ->
  forall k i,
    (length (processed face_locations yolo_model mode 0 (decoded packets)) <= k)%nat ->
    faces st' !! anime_face_name k i = None /\
    faces st' !! realistic_face_name k i = None.
Proof.
  intros Hempty Hsc Hrun k i Hk.
  rewrite stream_frames_exact in Hrun;
    [|done|rewrite Hempty; apply only_files_empty].
  injection Hrun as _ <-. cbn [faces set_dir]. rewrite Hempty, (right_id_L ∅ (∪)).
  destruct (regions_from_spec face_locations yolo_model mode (decoded packets) 0)
    as (Hall & _).
  rewrite List.Forall_forall in Hall.
  assert (Hnone : forall name, region_name k name ->
    (list_to_map (regions_from face_locations yolo_model mode 0 (decoded packets))
       : gmap string node) !! name = None).
  { intros name Hname. apply not_elem_of_list_to_map_1.
    intros ([name' n] & -> & Hin)%list_elem_of_fmap.
    apply list_elem_of_In in Hin.
    destruct (Hall _ Hin) as [(j & Hj & Hr) _]. cbn in Hname, Hr.
    pose proof (region_name_frame _ _ _ Hname Hr). lia. }
  split; apply Hnone; exists i; auto.
Qed.

(** ** Promotion, step by step *)

Lemma for_each_app {A} (l1 l2 : list A) (body : A -> M unit) st :
  for_each (l1 ++ l2) body st =
  bind (for_each l1 body) (fun _ => for_each l2 body) st.
Proof.
  revert st. induction l1 as [|x l1 IH]; intros st; [done|].
  cbn [app for_each]. unfold bind.
  destruct (body x st) as [[[]|e] st']; [|done].
  rewrite IH. reflexivity.
Qed.

(** A loop whose turns are loops is the loop over all their turns. *)
Lemma for_each_steps {A B} (l : list A) (steps : A -> list B) (body : B -> M unit) st :
  for_each l (fun x => for_each (steps x) body) st =
  for_each (l ≫= steps) body st.
Proof.
  revert st. induction l as [|x l IH]; intros st; [done|].
  change ((x :: l) ≫= steps) with (steps x ++ (l ≫= steps)).
  rewrite for_each_app, for_each_cons. unfold bind.
  destruct (for_each (steps x) body st) as [[[]|e] st']; [|done]. apply IH.
Qed.

(** A step changes the output hierarchy only. *)
Lemma exec_frame op st :
  exists r o, exec op st = (r, set_output o st).
Proof.
  assert (Hid : st = set_output (output st) st) by by destruct st.
  assert (Hsame : forall r : result unit, exists r' o, (r, st) = (r', set_output o st)).
  { intros r. exists r, (output st). by rewrite <- Hid. }
  unfold exec. destruct op as [base|base sub|base sub name|base sub name n].
  - destruct (output st !! base); eauto.
  - destruct (default ∅ (output st !! base) !! sub); eauto.
  - destruct (output st !! base) as [m|]; [|eauto].
    destruct (m !! sub); eauto.
  - destruct (output st !! base) as [m|]; [|eauto].
    destruct (m !! sub); eauto.
Qed.

Lemma run_ops_frame ops : forall st,
  exists r o, run_ops ops st = (r, set_output o st).
Proof.
  unfold run_ops. induction ops as [|op ops IH]; intros st.
  - exists (Ok tt), (output st). rewrite for_each_nil. by destruct st.
  - rewrite for_each_cons. destruct (exec_frame op st) as (r & o & Hex).
    destruct r as [[]|e].
    + rewrite (bind_ok _ _ _ _ _ Hex).
      destruct (IH (set_output o st)) as (r' & o' & ->). by exists r', o'.
    + rewrite (bind_raise _ _ _ _ _ Hex). by exists (Raise e), o.
Qed.

(** [copytree] and [promote] are the runs of their steps. *)
Lemma copytree_run src base sub st :
  copytree src base sub st = run_ops (copytree_ops (get_dir src st) base sub) st.
Proof.
  unfold copytree, copytree_ops, run_ops. rewrite for_each_cons.
  destruct (exec_frame (OpMkdir base sub) st) as (r & o & Hex).
  unfold bind. rewrite Hex. destruct r as [[]|e]; [|done].
  assert (Hd : get_dir src (set_output o st) = get_dir src st) by by destruct src.
  rewrite Hd. apply for_each_steps.
Qed.

Lemma promote_run video_file st :
  let base := (OsPath.splitext video_file).1 in
  promote video_file st =
  bind (run_ops (promotion_ops st base))
    (fun _ => print ("Processing completed: Results saved in " +:+
                     OsPath.join output_dir base)) st.
Proof.
  intros base. unfold promote, promotion_ops, makedirs_exist_ok, run_ops. fold base.
  cbn [for_each]. unfold bind.
  destruct (exec_frame (OpMakedirs base) st) as (r & o & Hex).
  rewrite Hex. destruct r as [[]|e]; [|done].
  set (st1 := set_output o st).
  rewrite for_each_app. unfold bind.
  rewrite copytree_run. unfold run_ops.
  change (get_dir Screencaps st1) with (screencaps st).
  destruct (run_ops_frame (copytree_ops (screencaps st) base (dir_name Screencaps)) st1)
    as (r1 & o1 & Hr1).
  unfold run_ops in Hr1. rewrite Hr1. destruct r1 as [[]|e1]; [|done].
  rewrite copytree_run. unfold run_ops.
  change (get_dir Faces (set_output o1 st1)) with (faces st).
  destruct (for_each (copytree_ops (faces st) base (dir_name Faces)) exec
              (set_output o1 st1)) as [[[]|e2] st3]; done.
Qed.

(** *** Every interrupted promotion shows a part of the workspace *)

Lemma copy_steps_steps st base sub (e : string * node) :
  expected st sub e.1 e.2 -> Forall (step_of st base) (copy_steps base sub e).
Proof.
  intros Hexp. unfold copy_steps.
  destruct e as [name n]. cbn [fst snd] in *.
  destruct n; repeat (apply Forall_cons; split); try apply Forall_nil;
    cbn [step_of]; eauto.
Qed.

Lemma copytree_ops_steps st base sub src :
  (forall name n, src !! name = Some n -> expected st sub name n) ->
  Forall (step_of st base) (copytree_ops src base sub).
Proof.
  intros Hexp. unfold copytree_ops. apply Forall_cons. split; [done|].
  apply Forall_bind, Forall_forall. intros [name n] Hin%elem_of_map_to_list.
  apply copy_steps_steps. by apply Hexp.
Qed.

Lemma promotion_ops_steps st base : Forall (step_of st base) (promotion_ops st base).
Proof.
  unfold promotion_ops. apply Forall_cons. split; [done|].
  apply Forall_app. split; apply copytree_ops_steps; intros name n Hn;
    [by left|by right].
Qed.

Lemma subdir_at_insert o base m sub :
  subdir_at (<[base := m]> o) base sub = m !! sub.
Proof. unfold subdir_at. by rewrite lookup_insert_eq. Qed.

(** Writing the entry [name] of [output/<base>/<sub>/], as a step of the
    promotion does, keeps what holds all along the promotion. *)
Lemma partial_copy_insert st0 base st m sub d0 name n :
  partial_copy st0 base (output st) ->
  output st !! base = Some m -> m !! sub = Some d0 ->
  (exists n', expected st0 sub name n' /\ (n = n' \/ n = Partial)) ->
  partial_copy st0 base (<[base := <[sub := <[name := n]> d0]> m]> (output st)).
Proof.
  intros [Hother Hsub] Hb Hs Hn. split.
  - intros b Hne. by rewrite lookup_insert_ne, Hother.
  - intros sub' d name' n'. rewrite subdir_at_insert.
    destruct (decide (sub' = sub)) as [->|Hne].
    + rewrite lookup_insert_eq. intros [= <-].
      destruct (decide (name' = name)) as [->|Hnn].
      * rewrite lookup_insert_eq. by intros [= <-].
      * rewrite lookup_insert_ne by done. apply (Hsub sub d0 name' n').
        unfold subdir_at. by rewrite Hb.
    + rewrite lookup_insert_ne by done. intros Hd. apply (Hsub sub' d name' n').
      unfold subdir_at. by rewrite Hb.
Qed.

Lemma exec_partial_copy st0 base op st :
  step_of st0 base op ->
  partial_copy st0 base (output st) ->
  partial_copy st0 base (output (final (exec op st))).
Proof.
  intros Hop Hinv. pose proof Hinv as [Hother Hsub]. unfold exec.
  destruct op as [b|b sub|b sub name|b sub name n]; cbn [step_of] in Hop.
  - subst b. destruct (output st !! base) eqn:Hb; cbn [final snd]; [done|].
    split.
    + intros b Hne. cbn [output set_output]. by rewrite lookup_insert_ne, Hother.
    + intros sub d name n. cbn [output set_output].
      rewrite subdir_at_insert, lookup_empty. done.
  - subst b. destruct (default ∅ (output st !! base) !! sub) eqn:Hs;
      cbn [final snd]; [done|].
    split.
    + intros b Hne. cbn [output set_output]. by rewrite lookup_insert_ne, Hother.
    + intros sub' d name n. cbn [output set_output]. rewrite subdir_at_insert.
      destruct (decide (sub' = sub)) as [->|Hne].
      * rewrite lookup_insert_eq. intros [= <-]. by rewrite lookup_empty.
      * rewrite lookup_insert_ne by done. intros Hd. apply (Hsub sub' d name n).
        unfold subdir_at. destruct (output st !! base); [done|].
        cbn in Hd. by rewrite lookup_empty in Hd.
  - destruct Hop as [-> [n Hexp]].
    destruct (output st !! base) as [m|] eqn:Hb; cbn [final snd]; [|done].
    destruct (m !! sub) as [d0|] eqn:Hs; cbn [final snd]; [|done].
    cbn [output set_output]. eapply partial_copy_insert; eauto.
  - destruct Hop as [-> Hexp].
    destruct (output st !! base) as [m|] eqn:Hb; cbn [final snd]; [|done].
    destruct (m !! sub) as [d0|] eqn:Hs; cbn [final snd]; [|done].
    cbn [output set_output]. eapply partial_copy_insert; eauto.
Qed.

Lemma run_ops_partial_copy st0 base ops : forall st,
  Forall (step_of st0 base) ops ->
  partial_copy st0 base (output st) ->
  partial_copy st0 base (output (final (run_ops ops st))).
Proof.
  unfold run_ops. induction ops as [|op ops IH]; intros st Hops Hinv; [done|].
  apply Forall_cons in Hops as [Hop Hops].
  pose proof (exec_partial_copy st0 base op st Hop Hinv) as H1.
  rewrite for_each_cons. unfold bind.
  destruct (exec op st) as [[[]|e] st1]; cbn [final snd] in *; [|done].
  by apply IH.
Qed.

(** *** A promotion that runs to its end *)

Lemma copy_into_union l : forall d,
  NoDup l.*1 -> copy_into d l = list_to_map l ∪ d.
Proof.
  induction l as [|[k v] l IH]; intros d Hnd.
  - cbn. by rewrite (left_id_L ∅ (∪)).
  - rewrite fmap_cons in Hnd. apply NoDup_cons in Hnd as [Hk Hnd].
    cbn [copy_into foldl fst snd]. fold (copy_into (<[k:=v]> d) l).
    rewrite IH by done. by apply union_insert_fresh.
Qed.

Lemma copy_into_listing (src : gmap string node) :
  copy_into ∅ (map_to_list src) = src.
Proof.
  rewrite copy_into_union by apply NoDup_fst_map_to_list.
  by rewrite list_to_map_to_list, (right_id_L ∅ (∪)).
Qed.

Lemma set_output_twice o o' st : set_output o' (set_output o st) = set_output o' st.
Proof. reflexivity. Qed.

Lemma set_output_same st : set_output (output st) st = st.
Proof. by destruct st. Qed.

(** The steps of the copy of one entry into an existing destination. *)
Lemma copy_steps_spec base sub e st m d :
  output st !! base = Some m -> m !! sub = Some d ->
  run_ops (copy_steps base sub e) st =
    (Ok tt, set_output (<[base := <[sub := <[e.1 := e.2]> d]> m]> (output st)) st).
Proof.
  intros Hb Hs. unfold run_ops, copy_steps.
  assert (Hcopy : forall n d' st',
    output st' = <[base := <[sub := d']> m]> (output st) ->
    exec (OpCopy base sub e.1 n) st' =
      (Ok tt, set_output (<[base := <[sub := <[e.1 := n]> d']> m]> (output st)) st')).
  { intros n d' st' Hout. unfold exec. rewrite Hout, lookup_insert_eq, lookup_insert_eq.
    by rewrite !insert_insert_eq. }
  assert (Hone : for_each [OpCopy base sub e.1 e.2] exec st =
    (Ok tt, set_output (<[base := <[sub := <[e.1 := e.2]> d]> m]> (output st)) st)).
  { rewrite for_each_cons. erewrite bind_ok.
    - reflexivity.
    - apply Hcopy. by rewrite (insert_id m), (insert_id (output st)). }
  assert (Htwo : for_each [OpCreate base sub e.1; OpCopy base sub e.1 e.2] exec st =
    (Ok tt, set_output (<[base := <[sub := <[e.1 := e.2]> d]> m]> (output st)) st)).
  { set (st1 := set_output
                   (<[base := <[sub := <[e.1 := Partial]> d]> m]> (output st)) st).
    assert (H1 : exec (OpCreate base sub e.1) st = (Ok tt, st1)).
    { unfold exec. by rewrite Hb, Hs. }
    pose proof (Hcopy e.2 (<[e.1 := Partial]> d) st1 eq_refl) as H2.
    rewrite for_each_cons, (bind_ok _ _ _ _ _ H1).
    rewrite for_each_cons, (bind_ok _ _ _ _ _ H2).
    cbn [for_each]. unfold ret. subst st1.
    by rewrite set_output_twice, insert_insert_eq. }
  destruct e as [name n]. cbn [fst snd] in *.
  destruct n; [exact Htwo|exact Htwo|exact Hone].
Qed.

(** The copies of [copytree] into an existing destination. *)
Lemma copies_spec base sub l : forall st m d,
  output st !! base = Some m -> m !! sub = Some d ->
  run_ops (l ≫= copy_steps base sub) st =
    (Ok tt, set_output (<[base := <[sub := copy_into d l]> m]> (output st)) st).
Proof.
  unfold run_ops. induction l as [|e l IH]; intros st m d Hb Hs.
  - cbn [mbind list_bind for_each copy_into foldl]. unfold ret.
    by rewrite (insert_id m), (insert_id (output st)), set_output_same.
  - change ((e :: l) ≫= copy_steps base sub)
      with (copy_steps base sub e ++ (l ≫= copy_steps base sub)).
    rewrite for_each_app.
    erewrite bind_ok; [|by apply copy_steps_spec].
    erewrite IH; [|cbn [output set_output]; apply lookup_insert_eq
                  |apply lookup_insert_eq].
    cbn [output set_output]. rewrite set_output_twice.
    by rewrite !insert_insert_eq.
Qed.

(** [copytree] into a destination that does not exist yet. *)
Lemma copytree_ops_fresh src base sub st :
  subdir_at (output st) base sub = None ->
  run_ops (copytree_ops src base sub) st =
    (Ok tt,
     set_output
       (<[base := <[sub := src]> (default ∅ (output st !! base))]> (output st)) st).
Proof.
  intros Hnone. unfold copytree_ops.
  change (run_ops (?op :: ?l) st) with (bind (exec op) (fun _ => run_ops l) st).
  set (m := default ∅ (output st !! base)).
  assert (Hs : m !! sub = None).
  { subst m. unfold subdir_at in Hnone. by destruct (output st !! base). }
  erewrite bind_ok; [|unfold exec; fold m; by rewrite Hs].
  erewrite copies_spec; [|cbn [output set_output]; apply lookup_insert_eq
                         |apply lookup_insert_eq].
  cbn [output set_output]. rewrite set_output_twice, copy_into_listing.
  by rewrite !insert_insert_eq.
Qed.

(** The promotion to a directory that does not exist yet succeeds and
    makes both working directories visible in full. *)
Lemma promotion_complete st base :
  output st !! base = None ->
  run_ops (promotion_ops st base) st =
    (Ok tt,
     set_output
       (<[base := <[dir_name Faces := faces st]>
                    (<[dir_name Screencaps := screencaps st]> ∅)]> (output st))
       st).
Proof.
  intros Hb. unfold promotion_ops.
  change (run_ops (?op :: ?l) st) with (bind (exec op) (fun _ => run_ops l) st).
  erewrite bind_ok; [|unfold exec; by rewrite Hb].
  unfold run_ops. rewrite for_each_app.
  erewrite bind_ok.
  2:{ apply copytree_ops_fresh. cbn [output set_output].
      rewrite subdir_at_insert. apply lookup_empty. }
  cbn [output set_output]. rewrite lookup_insert_eq. cbn [default].
  rewrite insert_insert_eq.
  change (for_each ?l exec ?s) with (run_ops l s).
  rewrite copytree_ops_fresh.
  2:{ cbn [output set_output]. rewrite subdir_at_insert.
      by rewrite lookup_insert_ne. }
  cbn [output set_output]. rewrite set_output_twice, lookup_insert_eq. cbn [default].
  by rewrite insert_insert_eq.
Qed.

(** C1 does not hold as stated.  Interrupted after four steps (the two
    directories were made and one snapshot was copied), the promotion of
    [clip_workspace] shows [frame_1.jpg] below the final name, and neither
    the other snapshot nor the region: a part of the expected files, not
    all and not none. *)
Lemma promotion_not_atomic :
  ~ full_or_none clip_workspace "clip" (interrupted 4 "clip" clip_workspace).
Proof.
  intros [Hfull|Hnone].
  - destruct (Hfull (dir_name Faces) "anime_face_1_0.jpg" (File [[(1, 2, 3)]]))
      as (d & Hd & _); [by right|].
    vm_compute in Hd. discriminate.
  - apply (Hnone (dir_name Screencaps) "frame_1.jpg" (File small_frame)).
    eexists. split; vm_compute; reflexivity.
Qed.

(** What is to be seen at that point, one step earlier, when the first
    snapshot was created and not yet written, and one step later, when
    the second one was. *)
Example interrupted_promotion_output :
  output (interrupted 4 "clip" clip_workspace)
  = {[ "clip" := {[ "screencaps" := {[ "frame_1.jpg" := File small_frame ]} ]} ]} /\
  output (interrupted 3 "clip" clip_workspace)
  = {[ "clip" := {[ "screencaps" := {[ "frame_1.jpg" := Partial ]} ]} ]} /\
  output (interrupted 5 "clip" clip_workspace)
  = {[ "clip" := {[ "screencaps" := {[ "frame_1.jpg" := File small_frame;
                                       "frame_0.jpg" := Partial ]} ]} ]}.
Proof. vm_compute. repeat split. Qed.

(** C1, amended.  Promotion is not atomic: it makes the directory of the
    final name and copies the two working directories into it entry by
    entry, each file in two steps, the creation of the destination and
    the writing of its content.  For a final name that did not exist,
    whatever the number [k] of steps after which the promotion is
    interrupted: every entry visible below the final name has the name
    of an entry of the workspace, and holds its content or, for a file
    that was created and whose writing has not ended, not yet all of
    it; the other output directories and the workspace are untouched;
    and once all steps have run, without an exception, the visible files
    are exactly those of the workspace. *)
Theorem interrupted_promotion_partial (st : state) (base : string) (k : nat) :
  output st !! base = None ->
  let st' := interrupted k base st in
  (forall sub name n,
     visible st' base sub name n ->
     exists n', expected st sub name n' /\ (n = n' \/ n = Partial)) /\
  (forall b, b ≠ base -> output st' !! b = output st !! b) /\
  screencaps st' = screencaps st /\
  faces st' = faces st /\
  ((length (promotion_ops st base) <= k)%nat ->
   run_ops (take k (promotion_ops st base)) st = (Ok tt, st') /\
   forall sub name n, visible st' base sub name n <-> expected st sub name n).
Proof.
  intros Hb st'.
  assert (Hinv : partial_copy st base (output st')).
  { apply run_ops_partial_copy.
    - apply Forall_take, promotion_ops_steps.
    - split; [done|]. intros sub d name n. unfold subdir_at. by rewrite Hb. }
  destruct Hinv as [Hother Hsub].
  destruct (run_ops_frame (take k (promotion_ops st base)) st) as (r & o & Hrun).
  assert (Hst' : st' = set_output o st).
  { subst st'. unfold interrupted. by rewrite Hrun. }
  split; [intros sub name n (d & Hd & Hn); by eapply Hsub|].
  split; [done|].
  split; [by rewrite Hst'|]. split; [by rewrite Hst'|].
  intros Hk. subst st'. unfold interrupted.
  rewrite take_ge by done. rewrite promotion_complete by done.
  split; [done|]. cbn [final snd].
  intros sub name n. unfold visible, expected.
  cbn [output set_output]. rewrite subdir_at_insert. split.
  - intros (d & Hd & Hn).
    destruct (decide (sub = dir_name Faces)) as [->|Hf].
    { rewrite lookup_insert_eq in Hd. injection Hd as <-. by right. }
    rewrite lookup_insert_ne in Hd by done.
    destruct (decide (sub = dir_name Screencaps)) as [->|Hs].
    { rewrite lookup_insert_eq in Hd. injection Hd as <-. by left. }
    rewrite lookup_insert_ne in Hd by done. by rewrite lookup_empty in Hd.
  - intros [[-> Hn]|[-> Hn]].
    + exists (screencaps st). by rewrite lookup_insert_ne, lookup_insert_eq.
    + exists (faces st). by rewrite lookup_insert_eq.
Qed.

Lemma interrupted_promotion_partial_witness :
  let st' := interrupted 9 "clip" clip_workspace in
  (forall sub name n,
     visible st' "clip" sub name n ->
     exists n', expected clip_workspace sub name n' /\ (n = n' \/ n = Partial)) /\
  (forall b, b ≠ "clip" -> output st' !! b = output clip_workspace !! b) /\
  run_ops (take 9 (promotion_ops clip_workspace "clip")) clip_workspace
    = (Ok tt, st') /\
  (forall sub name n,
     visible st' "clip" sub name n <-> expected clip_workspace sub name n).
Proof.
  intros st'.
  destruct (interrupted_promotion_partial clip_workspace "clip" 9)
    as (Hpart & Hother & _ & _ & Hall); [reflexivity|].
  destruct Hall as [Hrun Hvisible]; [vm_compute; lia|].
  split; [exact Hpart|]. split; [exact Hother|]. split; [exact Hrun|exact Hvisible].
Defined.

(** ** One video from reset to promotion *)

(** On a workspace of regular files the reset succeeds and empties it. *)
Lemma clear_working_directories_files st :
  only_files (screencaps st) -> only_files (faces st) ->
  clear_working_directories st =
    (Ok tt, set_dir Faces ∅ (set_dir Screencaps ∅ st)).
Proof.
  intros Hs Hf. rewrite clear_working_directories_unfold.
  destruct (clear_dir_spec Screencaps st) as ([m1 Hm1] & He1 & Hf1 & _).
  destruct (clear_dir Screencaps st) as [r1 st1] eqn:H1.
  cbn [final outcome fst snd] in *. rewrite (Hf1 Hs) in *.
  specialize (He1 eq_refl). rewrite Hm1, get_set_dir in He1. subst m1.
  rewrite (bind_ok _ _ _ _ _ H1).
  destruct (clear_dir_spec Faces st1) as ([m2 Hm2] & He2 & Hf2 & _).
  destruct (clear_dir Faces st1) as [r2 st2] eqn:H2.
  cbn [final outcome fst snd] in *.
  rewrite Hf2 in * by (by subst st1).
  specialize (He2 eq_refl). rewrite Hm2, get_set_dir in He2. subst m2.
  rewrite (bind_ok _ _ _ _ _ H2). unfold ret. by subst.
Qed.

(** The reset touches the working directories only. *)
Lemma clear_working_directories_frame st :
  exists r ms mf,
    clear_working_directories st = (r, set_dir Faces mf (set_dir Screencaps ms st)).
Proof.
  rewrite clear_working_directories_unfold.
  destruct (clear_dir_spec Screencaps st) as ([m1 Hm1] & _).
  destruct (clear_dir Screencaps st) as [[[]|e1] st1] eqn:H1;
    cbn [final snd] in Hm1; subst st1.
  - rewrite (bind_ok _ _ _ _ _ H1).
    destruct (clear_dir_spec Faces (set_dir Screencaps m1 st)) as ([m2 Hm2] & _).
    destruct (clear_dir Faces (set_dir Screencaps m1 st)) as [[[]|e2] st2] eqn:H2;
      cbn [final snd] in Hm2; subst st2.
    + rewrite (bind_ok _ _ _ _ _ H2). by eexists _, _, _.
    + rewrite (bind_raise _ _ _ _ _ H2). by eexists _, _, _.
  - rewrite (bind_raise _ _ _ _ _ H1). exists (Raise e1), m1, (faces st).
    by destruct st.
Qed.

(** The streaming loop stops at a packet that does not decode as it
    stops at the end of the stream. *)
Lemma stream_frames_stop face_locations yolo_model mode frames rest : forall fc st,
  stream_frames face_locations yolo_model mode ((Some <$> frames) ++ None :: rest) fc st =
  stream_frames face_locations yolo_model mode (Some <$> frames) fc st.
Proof.
  induction frames as [|frame frames IH]; intros fc st; [done|].
  rewrite !fmap_cons. cbn [app stream_frames].
  destruct (image_empty frame); [done|]. unfold bind.
  destruct (imwrite Screencaps (frame_name fc) frame st) as [[ok|e] st1]; [|done].
  destruct (detect face_locations yolo_model mode frame fc st1) as [[[]|e] st2];
    [|done].
  apply IH.
Qed.

Lemma decoded_stop frames rest :
  decoded ((Some <$> frames) ++ None :: rest) = decoded (Some <$> frames).
Proof.
  induction frames as [|f frames IH]; [done|]. cbn [fmap list_fmap app decoded].
  destruct (image_empty f); [done|]. by rewrite <- IH.
Qed.

(** Frames that hold pixels are all read. *)
Lemma decoded_all frames :
  Forall (fun frame => image_empty frame = false) frames ->
  decoded (Some <$> frames) = frames.
Proof.
  induction 1 as [|f frames Hf _ IH]; [done|]. cbn [fmap list_fmap decoded].
  rewrite Hf. by rewrite <- IH at 2.
Qed.

(** The frames that are read hold pixels. *)
Lemma decoded_nonempty packets :
  Forall (fun frame => image_empty frame = false) (decoded packets).
Proof.
  induction packets as [|[frame|] rest IH]; cbn [decoded]; [constructor| |constructor].
  destruct (image_empty frame) eqn:Hf; [constructor|by constructor].
Qed.

(** The streaming loop touches the working directories only. *)
Lemma stream_frames_frame face_locations yolo_model mode packets : forall fc st,
  exists r ms mf,
    stream_frames face_locations yolo_model mode packets fc st =
      (r, set_dir Faces mf (set_dir Screencaps ms st)).
Proof.
  assert (Hstop : forall st, exists (r : result unit) ms mf,
            (Ok tt, st) = (r, set_dir Faces mf (set_dir Screencaps ms st))).
  { intros st. exists (Ok tt), (screencaps st), (faces st). by destruct st. }
  induction packets as [|[frame|] rest IH]; intros fc st; cbn [stream_frames];
    [apply Hstop| |apply Hstop].
  destruct (image_empty frame); [apply Hstop|].
  destruct (imwrite_frame Screencaps (frame_name fc) frame st) as (r1 & ms & Hw & _).
  destruct r1 as [ok|e1].
  2:{ rewrite (bind_raise _ _ _ _ _ Hw). exists (Raise e1), ms, (faces st).
      by destruct st. }
  rewrite (bind_ok _ _ _ _ _ Hw).
  destruct (detect_frame face_locations yolo_model mode frame fc
              (set_dir Screencaps ms st)) as (r2 & m & Hd).
  destruct r2 as [[]|e].
  - rewrite (bind_ok _ _ _ _ _ Hd).
    destruct (IH (S fc) (set_dir Faces m (set_dir Screencaps ms st)))
      as (r & ms' & mf' & ->).
    by exists r, ms', mf'.
  - rewrite (bind_raise _ _ _ _ _ Hd). by exists (Raise e), ms, m.
Qed.

(** Where the destination of the first copy exists, promotion raises and
    changes nothing. *)
Lemma promote_exists video_file st d :
  let base := (OsPath.splitext video_file).1 in
  subdir_at (output st) base (dir_name Screencaps) = Some d ->
  promote video_file st =
    (Raise (FileExistsError (dest_path base (dir_name Screencaps))), st).
Proof.
  intros base Hd. unfold promote, makedirs_exist_ok. fold base.
  unfold subdir_at in Hd.
  destruct (output st !! base) as [m|] eqn:Hb; [|done].
  erewrite bind_ok; [|unfold exec; by rewrite Hb].
  cbn [for_each]. unfold bind, copytree, bind, exec. cbv zeta.
  rewrite Hb. cbn [default from_option]. unfold id. by rewrite Hd.
Qed.

(** Promotion to a directory that does not exist yet. *)
Lemma promote_fresh video_file st :
  let base := (OsPath.splitext video_file).1 in
  output st !! base = None ->
  promote video_file st =
    (Ok tt,
     mkState (input st) (screencaps st) (faces st)
       (<[base := <[dir_name Faces := faces st]>
                    (<[dir_name Screencaps := screencaps st]> ∅)]> (output st))
       (stdout st ++ ["Processing completed: Results saved in " +:+
                      OsPath.join output_dir base])).
Proof.
  intros base Hb. rewrite promote_run. fold base.
  by rewrite (bind_ok _ _ _ _ _ (promotion_complete st base Hb)).
Qed.

(** Promotion touches the output hierarchy and the standard output
    only. *)
Lemma promote_frame video_file st :
  exists r o l,
    promote video_file st =
      (r, mkState (input st) (screencaps st) (faces st) o l).
Proof.
  rewrite promote_run.
  destruct (run_ops_frame (promotion_ops st (OsPath.splitext video_file).1) st)
    as (r & o & Hrun).
  destruct r as [[]|e].
  - rewrite (bind_ok _ _ _ _ _ Hrun). by eexists _, _, _.
  - rewrite (bind_raise _ _ _ _ _ Hrun). exists (Raise e), o, (stdout st). done.
Qed.

Section Video.

Variable face_locations : image -> result (list face_location).
Variable yolo_model : image -> result (list box).
Variable mode : string.

(** One turn of the loop over the videos, from a workspace of regular
    files: the reset empties it, the streaming loop fills it, and the
    video is promoted unless the detector step raised. *)
Lemma process_video_exact video_file cap st :
  only_files (screencaps st) -> only_files (faces st) ->
  let st' := streamed face_locations yolo_model mode video_file cap st in
  process_video face_locations yolo_model mode video_file cap st =
    match stream_outcome face_locations yolo_model mode 0 (frames_of cap) with
    | Ok _ => promote video_file st'
    | Raise e => (Raise e, st')
    end.
Proof.
  intros Hs Hf st'. subst st'. unfold process_video.
  erewrite bind_ok; [|reflexivity].
  erewrite bind_ok; [|by apply clear_working_directories_files].
  unfold streamed, video_regions, frames_of, started. destruct (opened cap).
  - unfold bind. rewrite stream_frames_exact by apply only_files_empty.
    cbn [set_dir set_stdout screencaps faces input output stdout].
    rewrite !(right_id_L ∅ (∪)).
    by destruct (stream_outcome face_locations yolo_model mode 0
                   (decoded (packets cap))) as [[]|e].
  - reflexivity.
Qed.

Lemma processed_all frames :
  (forall frame, frame ∈ frames ->
     detector_returns face_locations yolo_model mode frame) ->
  forall fc,
    processed face_locations yolo_model mode fc frames = frames /\
    stream_outcome face_locations yolo_model mode fc frames = Ok tt.
Proof.
  induction frames as [|f frames IH]; intros Hok fc; [done|].
  cbn [processed stream_outcome]. rewrite (Hok f) by left.
  destruct (IH (fun g Hg => Hok g (list_elem_of_further _ _ _ Hg)) (S fc))
    as (-> & ->).
  done.
Qed.

Lemma processed_until frames f rest e :
  (forall frame, frame ∈ frames ->
     detector_returns face_locations yolo_model mode frame) ->
  forall fc,
    detect_outcome face_locations yolo_model mode f (fc + length frames) = Raise e ->
    processed face_locations yolo_model mode fc (frames ++ f :: rest)
      = frames ++ [f] /\
    stream_outcome face_locations yolo_model mode fc (frames ++ f :: rest)
      = Raise e.
Proof.
  induction frames as [|g frames IH]; intros Hok fc Hf;
    cbn [app processed stream_outcome length].
  - rewrite Nat.add_0_r in Hf. by rewrite Hf.
  - rewrite (Hok g) by left.
    destruct (IH (fun h Hh => Hok h (list_elem_of_further _ _ _ Hh)) (S fc))
      as (-> & ->); [|done].
    by replace (S fc + length frames)%nat with (fc + S (length frames))%nat by lia.
Qed.

Lemma processed_prefix frames : forall fc,
  processed face_locations yolo_model mode fc frames `prefix_of` frames.
Proof.
  induction frames as [|f frames IH]; intros fc; [done|]. cbn [processed].
  destruct (detect_outcome face_locations yolo_model mode f fc).
  - by apply prefix_cons.
  - apply prefix_cons, prefix_nil.
Qed.

End Video.

Lemma clip_workspace_files :
  only_files (screencaps clip_workspace) /\ only_files (faces clip_workspace).
Proof.
  split.
  - intros k n Hk. cbn [screencaps clip_workspace] in Hk.
    apply lookup_insert_Some in Hk as [[_ <-]|[_ Hk]]; [by eexists|].
    apply lookup_singleton_Some in Hk as [_ <-]. by eexists.
  - intros k n Hk. cbn [faces clip_workspace] in Hk.
    apply lookup_singleton_Some in Hk as [_ <-]. by eexists.
Qed.

(** C2. One snapshot per decoded frame.  From a workspace of regular
    files, when [process_video] ends, however it ends, "screencaps"
    holds exactly the snapshots of the frames the loop has read: the
    file [frame_<j>.jpg] with the frame of index [j], for [j] from 0 to
    their number less one, without a gap, and nothing else.  The frames
    read are the frames of the video up to the first one on which the
    detector step raises (in the library call or in [cv2.imwrite], see
    C4), all N of them when it raises on none; a video whose output
    directory does not exist yet is then promoted with these N
    snapshots. *)
Theorem snapshots_contiguous
    (face_locations : image -> result (list face_location))
    (yolo_model : image -> result (list box))
    (mode video_file : string) (cap : capture) (st : state) :
  only_files (screencaps st) -> only_files (faces st) ->
  let reached := processed face_locations yolo_model mode 0 (frames_of cap) in
  let r := process_video face_locations yolo_model mode video_file cap st in
  let base := (OsPath.splitext video_file).1 in
  reached `prefix_of` frames_of cap /\
  size (screencaps (final r)) = length reached /\
  (forall j, screencaps (final r) !! frame_name j = File <$> reached !! j) /\
  (forall name, is_Some (screencaps (final r) !! name) <->
                exists j, (j < length reached)%nat /\ name = frame_name j) /\
  ((forall frame, frame ∈ frames_of cap ->
      detector_returns face_locations yolo_model mode frame) ->
   reached = frames_of cap /\
   (output st !! base = None ->
    outcome r = Ok tt /\
    subdir_at (output (final r)) base (dir_name Screencaps)
      = Some (screencaps (final r)))).
Proof.
  intros Hs Hf reached r base.
  pose proof (process_video_exact face_locations yolo_model mode video_file cap st
                Hs Hf) as Hrun.
  cbv zeta in Hrun.
  set (ws := streamed face_locations yolo_model mode video_file cap st) in Hrun.
  assert (Hws : screencaps ws = snapshots 0 reached) by reflexivity.
  assert (Hkeep : screencaps (final r) = snapshots 0 reached).
  { subst r. rewrite Hrun.
    destruct (stream_outcome face_locations yolo_model mode 0 (frames_of cap));
      [|exact Hws].
    destruct (promote_frame video_file ws) as (r' & o & l & ->). exact Hws. }
  rewrite Hkeep.
  split; [apply processed_prefix|].
  split; [apply snapshots_size|].
  split; [apply snapshots_lookup|].
  split; [apply snapshots_names|].
  intros Hok.
  destruct (processed_all face_locations yolo_model mode _ Hok 0%nat) as (Hproc & Hout).
  split; [exact Hproc|].
  intros Hfresh. subst r. rewrite Hrun, Hout.
  rewrite promote_fresh by exact Hfresh. fold base.
  cbn [outcome final fst snd output]. split; [done|].
  rewrite subdir_at_insert, lookup_insert_ne by done.
  by rewrite lookup_insert_eq.
Qed.

Lemma snapshots_contiguous_witness :
  let frames := frames_of three_frame_capture in
  let r := process_video (fun _ => Ok []) (fun _ => Ok []) "Anime" "clip.mp4"
             three_frame_capture clip_workspace in
  size (screencaps (final r)) = 3%nat /\
  (forall j, screencaps (final r) !! frame_name j = File <$> frames !! j) /\
  outcome r = Ok tt /\
  subdir_at (output (final r)) "clip" (dir_name Screencaps)
    = Some (screencaps (final r)).
Proof.
  intros frames r.
  destruct (snapshots_contiguous (fun _ => Ok []) (fun _ => Ok []) "Anime"
              "clip.mp4" three_frame_capture clip_workspace)
    as (_ & Hsize & Hlookup & _ & Hall).
  - apply clip_workspace_files.
  - apply clip_workspace_files.
  - destruct Hall as (_ & Hpromoted); [intros frame _ fc; reflexivity|].
    destruct Hpromoted as (Hok & Hout); [reflexivity|].
    split; [exact Hsize|]. split; [exact Hlookup|]. split; [exact Hok|exact Hout].
Defined.

(** ** A detector that raises *)

(** The region files of a video at whose frame [frame] the detector step
    raises, after the frames [before]. *)
Lemma regions_from_until face_locations yolo_model mode before frame after e :
  (forall f, f ∈ before -> detector_returns face_locations yolo_model mode f) ->
  forall fc,
    detect_outcome face_locations yolo_model mode frame (fc + length before)
      = Raise e ->
    regions_from face_locations yolo_model mode fc (before ++ frame :: after) =
    regions_from face_locations yolo_model mode fc before ++
    region_entries face_locations yolo_model mode frame (fc + length before).
Proof.
  induction before as [|g before IH]; intros Hok fc Hraise;
    cbn [app regions_from length].
  - rewrite Nat.add_0_r in *. by rewrite Hraise, app_nil_r.
  - rewrite (Hok g) by left.
    rewrite (IH (fun h Hh => Hok h (list_elem_of_further _ _ _ Hh)) (S fc)).
    + rewrite <- app_assoc.
      by replace (S fc + length before)%nat with (fc + S (length before))%nat by lia.
    + by replace (S fc + length before)%nat with (fc + S (length before))%nat by lia.
Qed.

(** C4 does not hold as stated.  The detector raises on frame 1 of a
    three-frame video: the exception leaves [process_video], two
    snapshots were written and not three, there is none of frame 2, and
    the video is not promoted. *)
Lemma detector_failure_aborts_video :
  let r := process_video (fun _ => Ok []) failing_model "Anime" "clip.mp4"
             three_frame_capture blank_workspace in
  outcome r = Raise (LibraryError "malformed input") /\
  size (screencaps (final r)) = 2%nat /\
  screencaps (final r) !! frame_name 2 = None /\
  output (final r) = ∅.
Proof. vm_compute. repeat split. Qed.

(** C4, amended.  The script catches no exception.  If the detector step
    raises on the frame of index k of a video (the library call raises,
    or [cv2.imwrite] does on a crop without pixels), after it ended
    without an exception on the frames before, the exception leaves
    [process_video]: the snapshots of the frames 0 to k were written,
    that of frame k included, and no other; the region files of frame k
    are those the detector step wrote before the exception, none when
    it is the library call that raised; the frames after k are not
    processed, they have neither snapshot nor region file; and the video
    is not promoted, the output hierarchy is what it was. *)
Theorem detector_failure_stops_video
    (face_locations : image -> result (list face_location))
    (yolo_model : image -> result (list box))
    (mode video_file : string) (cap : capture) (st : state)
    (before : list image) (frame : image) (after : list image) (e : exn) :
  only_files (screencaps st) -> only_files (faces st) ->
  frames_of cap = before ++ frame :: after ->
  (forall f, f ∈ before -> detector_returns face_locations yolo_model mode f) ->
  detect_outcome face_locations yolo_model mode frame (length before) = Raise e ->
  let k := length before in
  let r := process_video face_locations yolo_model mode video_file cap st in
  outcome r = Raise e /\
  size (screencaps (final r)) = S k /\
  (forall j, screencaps (final r) !! frame_name j
             = File <$> (before ++ [frame]) !! j) /\
  (forall j, (k < j)%nat -> screencaps (final r) !! frame_name j = None) /\
  (forall name, region_name k name ->
     faces (final r) !! name =
     (list_to_map (region_entries face_locations yolo_model mode frame k)
        : gmap string node) !! name) /\
  (forall e', library_call face_locations yolo_model mode frame = Raise e' ->
     forall name, region_name k name -> faces (final r) !! name = None) /\
  (forall j name, (k < j)%nat -> region_name j name ->
     faces (final r) !! name = None) /\
  output (final r) = output st.
Proof.
  intros Hs Hf Hframes Hok Hraise k r.
  pose proof (process_video_exact face_locations yolo_model mode video_file cap st
                Hs Hf) as Hrun.
  cbv zeta in Hrun. rewrite Hframes in Hrun.
  destruct (processed_until face_locations yolo_model mode before frame after e
              Hok 0%nat Hraise) as (Hproc & Hout).
  rewrite Hout in Hrun.
  subst r. rewrite Hrun. cbn [outcome final fst snd].
  unfold streamed, video_regions. cbn [screencaps faces output].
  rewrite Hframes, Hproc.
  destruct (regions_from_spec face_locations yolo_model mode
              (before ++ frame :: after) 0) as (Hall & _).
  rewrite Hproc, length_app in Hall. cbn [length] in Hall.
  rewrite List.Forall_forall in Hall.
  assert (Hnames : forall j name, region_name j name ->
    is_Some ((list_to_map (regions_from face_locations yolo_model mode 0
                             (before ++ frame :: after))
                : gmap string node) !! name) -> (j <= k)%nat).
  { intros j name Hname [n Hn].
    apply elem_of_list_to_map_2, list_elem_of_In in Hn.
    destruct (Hall _ Hn) as [(j' & Hj' & Hname') _]. cbn in Hname'.
    pose proof (region_name_frame _ _ _ Hname Hname'). subst k. lia. }
  assert (Hk : forall name, region_name k name ->
    (list_to_map (regions_from face_locations yolo_model mode 0
                    (before ++ frame :: after)) : gmap string node) !! name =
    (list_to_map (region_entries face_locations yolo_model mode frame k)
       : gmap string node) !! name).
  { intros name Hname.
    rewrite (regions_from_until _ _ _ _ _ _ e Hok 0%nat Hraise).
    rewrite list_to_map_app. apply lookup_union_r.
    apply not_elem_of_list_to_map_1.
    intros ([name' n] & -> & Hin)%list_elem_of_fmap.
    destruct (regions_from_spec face_locations yolo_model mode before 0)
      as (Hbefore & _).
    rewrite List.Forall_forall in Hbefore. apply list_elem_of_In in Hin.
    destruct (Hbefore _ Hin) as [(j & Hj & Hname') _]. cbn in Hname, Hname'.
    pose proof (region_name_frame _ _ _ Hname Hname').
    pose proof (processed_length face_locations yolo_model mode before 0).
    subst k. lia. }
  split; [done|].
  split; [by rewrite snapshots_size, length_app, Nat.add_comm|].
  split; [apply snapshots_lookup|].
  split.
  { intros j Hj. rewrite snapshots_lookup.
    rewrite lookup_ge_None_2; [done|]. rewrite length_app. cbn. lia. }
  split; [exact Hk|].
  split.
  { intros e' Hlib name Hname. rewrite (Hk name Hname).
    destruct (region_entries_library_raise face_locations yolo_model mode frame k e'
                Hlib) as [-> _].
    apply lookup_empty. }
  split; [|done].
  intros j name Hj Hname.
  destruct (list_to_map (regions_from face_locations yolo_model mode 0
                           (before ++ frame :: after)) !! name) as [n|] eqn:Hn;
    [|done].
  assert (j <= k)%nat; [|lia]. apply (Hnames j name Hname). by rewrite Hn.
Qed.

Lemma detector_failure_stops_video_witness :
  let k := length [ [[(0, 0, 0)]] : image ] in
  let r := process_video (fun _ => Ok []) failing_model "Anime" "clip.mp4"
             three_frame_capture blank_workspace in
  outcome r = Raise (LibraryError "malformed input") /\
  size (screencaps (final r)) = S k /\
  (forall j, screencaps (final r) !! frame_name j
             = File <$> ([ [[(0, 0, 0)]] ] ++ [ [[(1, 1, 1)]] ]) !! j) /\
  (forall j, (k < j)%nat -> screencaps (final r) !! frame_name j = None) /\
  (forall name, region_name k name -> faces (final r) !! name = None) /\
  output (final r) = output blank_workspace.
Proof.
  intros k r.
  destruct (detector_failure_stops_video (fun _ => Ok []) failing_model "Anime"
           "clip.mp4" three_frame_capture blank_workspace
           [ [[(0, 0, 0)]] ] [[(1, 1, 1)]] [ [[(2, 2, 2)]] ]
           (LibraryError "malformed input"))
    as (Hout & Hsize & Hlookup & Hlater & _ & Hlib & _ & Houtput).
  - apply only_files_empty.
  - apply only_files_empty.
  - reflexivity.
  - intros f Hf fc. apply list_elem_of_singleton in Hf as ->. reflexivity.
  - reflexivity.
  - split; [exact Hout|]. split; [exact Hsize|]. split; [exact Hlookup|].
    split; [exact Hlater|]. split; [|exact Houtput].
    apply (Hlib (LibraryError "malformed input")). reflexivity.
Defined.

(** A crop without pixels stops a video as a library exception does:
    the second of three frames has a passing candidate whose box has no
    width. *)
Example empty_crop_stops_video :
  let r := process_video (fun _ => Ok []) narrow_on_second "Anime" "clip.mp4"
             three_frame_capture blank_workspace in
  outcome r = Raise (Cv2Error "/ScreenCap/Work/faces/anime_face_1_1.jpg") /\
  dom (screencaps (final r)) = {[ "frame_0.jpg"; "frame_1.jpg" ]} /\
  dom (faces (final r)) = {[ "anime_face_1_0.jpg" ]} /\
  output (final r) = ∅.
Proof. vm_compute. repeat split. Qed.

(** ** A packet that does not decode *)

(** C6. A frame that does not decode ends the frame sequence as the end
    of the stream does: the video whose packets are the frames [frames]
    followed by a packet that does not decode (and anything after it) is
    processed exactly as the video that ends after [frames], with the
    same result and the same final state.  No exception comes of it: with
    a workspace of regular files, frames that hold pixels, a detector
    step that ends without an exception on each of them and an output
    directory that did not exist, [process_video] returns normally, the
    snapshots of [frames] are in [screencaps/], the region files of
    [frames] in [faces/], and both working directories are promoted as
    they are. *)
Theorem decode_failure_ends_stream
    (face_locations : image -> result (list face_location))
    (yolo_model : image -> result (list box))
    (mode video_file : string) (frames : list image)
    (rest : list (option image)) (st : state) :
  let broken := mkCapture true ((Some <$> frames) ++ None :: rest) in
  let exhausted := mkCapture true (Some <$> frames) in
  let r := process_video face_locations yolo_model mode video_file broken st in
  let base := (OsPath.splitext video_file).1 in
  r = process_video face_locations yolo_model mode video_file exhausted st /\
  (only_files (screencaps st) -> only_files (faces st) ->
   Forall (fun frame => image_empty frame = false) frames ->
   (forall f, f ∈ frames -> detector_returns face_locations yolo_model mode f) ->
   output st !! base = None ->
   outcome r = Ok tt /\
   (forall j, screencaps (final r) !! frame_name j = File <$> frames !! j) /\
   size (screencaps (final r)) = length frames /\
   faces (final r)
   = list_to_map (regions_from face_locations yolo_model mode 0 frames) /\
   subdir_at (output (final r)) base (dir_name Screencaps)
     = Some (screencaps (final r)) /\
   subdir_at (output (final r)) base (dir_name Faces) = Some (faces (final r))).
Proof.
  intros broken exhausted r base.
  assert (Heq : r = process_video face_locations yolo_model mode video_file
                      exhausted st).
  { subst r. unfold process_video, bind. cbn [opened packets broken exhausted].
    destruct (print _ st) as [[[]|e] st1]; [|done].
    destruct (clear_working_directories st1) as [[[]|e] st2]; [|done].
    by rewrite stream_frames_stop. }
  split; [done|].
  intros Hs Hf Hpixels Hok Hfresh. rewrite Heq. clear Heq r.
  rewrite process_video_exact by done.
  assert (Hfr : frames_of exhausted = frames).
  { unfold frames_of. cbn [opened packets exhausted]. by apply decoded_all. }
  unfold streamed, video_regions. rewrite Hfr.
  destruct (processed_all face_locations yolo_model mode frames Hok 0%nat)
    as (Hproc & Hout).
  rewrite Hout, Hproc.
  rewrite promote_fresh by exact Hfresh. fold base.
  cbn [outcome final fst snd output screencaps faces].
  split; [done|].
  split; [apply snapshots_lookup|].
  split; [apply snapshots_size|].
  split; [done|].
  rewrite !subdir_at_insert. split.
  - rewrite lookup_insert_ne by done. by rewrite lookup_insert_eq.
  - by rewrite lookup_insert_eq.
Qed.

Lemma decode_failure_ends_stream_witness :
  let frames : list image := [ [[(0, 0, 0)]]; [[(1, 1, 1)]] ] in
  let r := process_video (fun _ => Ok []) three_candidates "Anime" "clip.mp4"
             (mkCapture true ((Some <$> frames) ++ None :: [Some [[(2, 2, 2)]]]))
             clip_workspace in
  outcome r = Ok tt /\
  (forall j, screencaps (final r) !! frame_name j = File <$> frames !! j) /\
  size (screencaps (final r)) = length frames /\
  faces (final r)
  = list_to_map (regions_from (fun _ => Ok []) three_candidates "Anime" 0 frames) /\
  subdir_at (output (final r)) "clip" (dir_name Screencaps)
    = Some (screencaps (final r)) /\
  subdir_at (output (final r)) "clip" (dir_name Faces) = Some (faces (final r)).
Proof.
  intros frames r.
  apply (decode_failure_ends_stream (fun _ => Ok []) three_candidates "Anime"
           "clip.mp4" frames [Some [[(2, 2, 2)]]] clip_workspace).
  - apply clip_workspace_files.
  - apply clip_workspace_files.
  - repeat constructor.
  - intros f Hf fc. repeat (apply elem_of_cons in Hf as [->|Hf]);
      [reflexivity..|by apply elem_of_nil in Hf].
  - reflexivity.
Defined.

(** ** Output directories that exist already *)

Lemma preserves_bind {A B} b s d (m : M A) (k : A -> M B) :
  preserves b s d m -> (forall a, preserves b s d (k a)) ->
  preserves b s d (bind m k).
Proof.
  intros Hm Hk st Hst. specialize (Hm st Hst). unfold bind.
  destruct (m st) as [[a|e] st1]; cbn [final snd] in *; [|done].
  by apply Hk.
Qed.

Lemma preserves_for_each {A} b s d (l : list A) (body : A -> M unit) :
  (forall x, preserves b s d (body x)) -> preserves b s d (for_each l body).
Proof.
  intros Hbody. induction l as [|x l IH]; [by intros st|].
  cbn [for_each]. apply preserves_bind; [apply Hbody|]. by intros _.
Qed.

(** A computation whose final output hierarchy is the initial one. *)
Lemma preserves_same_output {A} b s d (m : M A) :
  (forall st, output (final (m st)) = output st) -> preserves b s d m.
Proof. intros Hm st Hst. by rewrite Hm. Qed.

Lemma subdir_at_insert_ne o base m b s :
  base ≠ b -> subdir_at (<[base := m]> o) b s = subdir_at o b s.
Proof. intros Hne. unfold subdir_at. by rewrite lookup_insert_ne. Qed.

Lemma preserves_exec b s d op :
  op_dest op ≠ Some (b, s) -> preserves b s d (exec op).
Proof.
  intros Hdest st Hst. unfold exec.
  destruct op as [base|base sub|base sub name|base sub name n];
    cbn [op_dest] in Hdest.
  - destruct (output st !! base) eqn:Hb; cbn [final snd]; [done|].
    cbn [output set_output]. rewrite subdir_at_insert_ne; [done|].
    intros ->. unfold subdir_at in Hst. by rewrite Hb in Hst.
  - destruct (default ∅ (output st !! base) !! sub) eqn:Hs; cbn [final snd]; [done|].
    cbn [output set_output].
    destruct (decide (base = b)) as [->|Hne]; [|by rewrite subdir_at_insert_ne].
    rewrite subdir_at_insert. unfold subdir_at in Hst.
    destruct (output st !! b) as [m|]; [|done]. cbn [default from_option].
    rewrite lookup_insert_ne; [done|]. congruence.
  - destruct (output st !! base) as [m|] eqn:Hb; cbn [final snd]; [|done].
    destruct (m !! sub) as [d0|] eqn:Hs; cbn [final snd]; [|done].
    cbn [output set_output].
    destruct (decide (base = b)) as [->|Hne]; [|by rewrite subdir_at_insert_ne].
    rewrite subdir_at_insert. unfold subdir_at in Hst. rewrite Hb in Hst.
    rewrite lookup_insert_ne; [done|]. congruence.
  - destruct (output st !! base) as [m|] eqn:Hb; cbn [final snd]; [|done].
    destruct (m !! sub) as [d0|] eqn:Hs; cbn [final snd]; [|done].
    cbn [output set_output].
    destruct (decide (base = b)) as [->|Hne]; [|by rewrite subdir_at_insert_ne].
    rewrite subdir_at_insert. unfold subdir_at in Hst. rewrite Hb in Hst.
    rewrite lookup_insert_ne; [done|]. congruence.
Qed.

Lemma preserves_copytree b s d src base sub :
  preserves b s d (copytree src base sub).
Proof.
  destruct (decide ((base, sub) = (b, s))) as [[= -> ->]|Hne].
  - intros st Hst. unfold copytree, bind, exec.
    pose proof Hst as Hst'. unfold subdir_at in Hst'.
    destruct (output st !! b) as [m|]; [|done].
    cbn [default from_option]. unfold id. by rewrite Hst'.
  - unfold copytree.
    apply preserves_bind; [apply preserves_exec; cbn [op_dest]; congruence|].
    intros _ st. apply preserves_for_each. intros e. unfold copy_steps.
    destruct (e.2); cbn [for_each];
      repeat (apply preserves_bind;
              [apply preserves_exec; cbn [op_dest]; congruence|intros _]);
      by intros ?.
Qed.

Lemma preserves_promote b s d video_file : preserves b s d (promote video_file).
Proof.
  unfold promote, makedirs_exist_ok.
  apply preserves_bind; [by apply preserves_exec|]. intros _.
  apply preserves_bind.
  - apply preserves_for_each. intros src. apply preserves_copytree.
  - intros _. by apply preserves_same_output.
Qed.

Lemma process_video_before_promote face_locations yolo_model mode video_file cap st :
  exists (r : result unit) ms mf l,
    let st' := mkState (input st) ms mf (output st) l in
    process_video face_locations yolo_model mode video_file cap st =
      match r with
      | Ok _ => promote video_file st'
      | Raise e => (Raise e, st')
      end.
Proof.
  unfold process_video. erewrite bind_ok; [|reflexivity].
  set (st1 := set_stdout _ st).
  destruct (clear_working_directories_frame st1) as (r2 & ms2 & mf2 & H2).
  destruct r2 as [[]|e2].
  2:{ rewrite (bind_raise _ _ _ _ _ H2). by exists (Raise e2), ms2, mf2, (stdout st1). }
  rewrite (bind_ok _ _ _ _ _ H2).
  set (st2 := set_dir Faces mf2 (set_dir Screencaps ms2 st1)).
  assert (H3 : exists r3 ms3 mf3,
    (if opened cap
     then stream_frames face_locations yolo_model mode (packets cap) 0
     else ret tt) st2 = (r3, set_dir Faces mf3 (set_dir Screencaps ms3 st2))).
  { destruct (opened cap); [apply stream_frames_frame|].
    exists (Ok tt), ms2, mf2. reflexivity. }
  destruct H3 as (r3 & ms3 & mf3 & H3).
  destruct r3 as [[]|e3].
  - rewrite (bind_ok _ _ _ _ _ H3). by exists (Ok tt), ms3, mf3, (stdout st1).
  - rewrite (bind_raise _ _ _ _ _ H3). by exists (Raise e3), ms3, mf3, (stdout st1).
Qed.

Lemma preserves_process_video b s d face_locations yolo_model mode video_file cap :
  preserves b s d (process_video face_locations yolo_model mode video_file cap).
Proof.
  intros st Hst.
  destruct (process_video_before_promote face_locations yolo_model mode video_file
              cap st) as (r & ms & mf & l & ->).
  destruct r as [[]|e]; [|done]. by apply preserves_promote.
Qed.

(** A video whose output subdirectory [screencaps] exists already ends in
    an exception and leaves the output hierarchy as it is. *)
Lemma process_video_collision face_locations yolo_model mode video_file cap st d :
  subdir_at (output st) (OsPath.splitext video_file).1 (dir_name Screencaps) = Some d ->
  let r := process_video face_locations yolo_model mode video_file cap st in
  (exists e, outcome r = Raise e) /\ output (final r) = output st.
Proof.
  intros Hd r. subst r.
  destruct (process_video_before_promote face_locations yolo_model mode video_file
              cap st) as (r & ms & mf & l & ->).
  destruct r as [[]|e]; [|by eauto].
  erewrite promote_exists by exact Hd. by eauto.
Qed.

(** A promotion that succeeds has made both working directories visible
    in full. *)
Lemma promote_ok_inv video_file st st' :
  promote video_file st = (Ok tt, st') ->
  let base := (OsPath.splitext video_file).1 in
  subdir_at (output st') base (dir_name Screencaps) = Some (screencaps st) /\
  subdir_at (output st') base (dir_name Faces) = Some (faces st) /\
  screencaps st' = screencaps st /\ faces st' = faces st.
Proof.
  intros Hp base. unfold promote, makedirs_exist_ok in Hp. fold base in Hp.
  cbn [for_each] in Hp. unfold bind in Hp.
  destruct (exec_frame (OpMakedirs base) st) as (r0 & o0 & H0).
  rewrite H0 in Hp. destruct r0 as [[]|e0]; [|done].
  set (st0 := set_output o0 st) in *.
  rewrite copytree_run in Hp.
  destruct (subdir_at (output st0) base (dir_name Screencaps)) as [d|] eqn:Hsc.
  { unfold copytree_ops, run_ops in Hp. cbn [for_each] in Hp.
    unfold bind, exec in Hp. unfold subdir_at in Hsc.
    destruct (output st0 !! base) as [m|]; [|done].
    cbn [default from_option] in Hp. unfold id in Hp. by rewrite Hsc in Hp. }
  rewrite (copytree_ops_fresh _ _ _ _ Hsc) in Hp.
  set (st1 := set_output _ st0) in *.
  rewrite copytree_run in Hp.
  destruct (subdir_at (output st1) base (dir_name Faces)) as [d|] eqn:Hfc.
  { unfold copytree_ops, run_ops in Hp. cbn [for_each] in Hp.
    unfold bind, exec in Hp. unfold subdir_at in Hfc.
    destruct (output st1 !! base) as [m|]; [|done].
    cbn [default from_option] in Hp. unfold id in Hp. by rewrite Hfc in Hp. }
  rewrite (copytree_ops_fresh _ _ _ _ Hfc) in Hp.
  unfold ret, print in Hp. injection Hp as <-.
  cbn [output set_output set_stdout screencaps faces]. rewrite subdir_at_insert.
  subst st1. cbn [output set_output]. rewrite lookup_insert_eq.
  cbn [default from_option]. unfold id.
  rewrite lookup_insert_ne by done. rewrite !lookup_insert_eq.
  split; [done|].
  split; [by rewrite subdir_at_insert, lookup_insert_eq|].
  split; reflexivity.
Qed.

(** C7. Two videos with the same base name in one run.  Once the first
    one was processed, its snapshots and regions are in
    [output/<base>/screencaps] and [output/<base>/faces].  Whatever videos
    are processed in between, processing the second one ends in an
    exception, and both directories still hold the files of the first
    video: nothing is overwritten, and the collision is not silent.  When
    the second video gets as far as its promotion (its workspace holds
    regular files and the detector step raises on none of its frames),
    the exception is the [FileExistsError] of [shutil.copytree] on
    [output/<base>/screencaps]. *)
Theorem no_silent_overwrite
    (face_locations : image -> result (list face_location))
    (yolo_model : image -> result (list box))
    (mode video1 video2 : string) (cap1 cap2 : capture)
    (between : list (string * capture)) (st st1 : state) :
  (OsPath.splitext video2).1 = (OsPath.splitext video1).1 ->
  process_video face_locations yolo_model mode video1 cap1 st = (Ok tt, st1) ->
  let base := (OsPath.splitext video1).1 in
  let st2 :=
    final (for_each between
             (fun e => process_video face_locations yolo_model mode e.1 e.2) st1) in
  let r2 := process_video face_locations yolo_model mode video2 cap2 st2 in
  subdir_at (output st1) base (dir_name Screencaps) = Some (screencaps st1) /\
  subdir_at (output st1) base (dir_name Faces) = Some (faces st1) /\
  (exists e, outcome r2 = Raise e) /\
  subdir_at (output (final r2)) base (dir_name Screencaps) = Some (screencaps st1) /\
  subdir_at (output (final r2)) base (dir_name Faces) = Some (faces st1) /\
  (only_files (screencaps st2) -> only_files (faces st2) ->
   (forall f, f ∈ frames_of cap2 ->
      detector_returns face_locations yolo_model mode f) ->
   outcome r2 = Raise (FileExistsError (dest_path base (dir_name Screencaps)))).
Proof.
  intros Hbase H1 base st2 r2.
  destruct (process_video_before_promote face_locations yolo_model mode video1
              cap1 st) as (r & ms & mf & l & Hrun).
  rewrite H1 in Hrun. destruct r as [[]|e]; [|done]. symmetry in Hrun.
  apply promote_ok_inv in Hrun as (Hsc & Hfc & Hs1 & Hf1). fold base in Hsc, Hfc.
  cbn [screencaps faces] in Hsc, Hfc, Hs1, Hf1. subst ms mf.
  assert (Hsc2 : subdir_at (output st2) base (dir_name Screencaps)
                 = Some (screencaps st1)).
  { subst st2. apply preserves_for_each; [|done].
    intros x. apply preserves_process_video. }
  assert (Hfc2 : subdir_at (output st2) base (dir_name Faces) = Some (faces st1)).
  { subst st2. apply preserves_for_each; [|done].
    intros x. apply preserves_process_video. }
  destruct (process_video_collision face_locations yolo_model mode video2 cap2 st2
              (screencaps st1)) as [Hraise Hout].
  { by rewrite Hbase. }
  fold r2 in Hraise, Hout.
  split; [done|]. split; [done|]. split; [done|].
  rewrite Hout. split; [done|]. split; [done|].
  intros Hs Hf Hok. subst r2.
  rewrite process_video_exact by done.
  destruct (processed_all face_locations yolo_model mode _ Hok 0%nat) as (_ & ->).
  erewrite promote_exists; [by rewrite Hbase|].
  unfold streamed. cbn [output]. rewrite Hbase. exact Hsc2.
Qed.

(** Two videos of the same base name, [clip.mp4] and [clip.avi]. *)
Lemma no_silent_overwrite_witness :
  let fl : image -> result (list face_location) := fun _ => Ok [] in
  let ym : image -> result (list box) := fun _ => Ok [] in
  let cap2 := mkCapture true [Some small_frame] in
  let st1 :=
    final (process_video fl ym "Anime" "clip.mp4" three_frame_capture
             blank_workspace) in
  let base := (OsPath.splitext "clip.mp4").1 in
  let st2 :=
    final (for_each [] (fun e => process_video fl ym "Anime" e.1 e.2) st1) in
  let r2 := process_video fl ym "Anime" "clip.avi" cap2 st2 in
  subdir_at (output st1) base (dir_name Screencaps) = Some (screencaps st1) /\
  subdir_at (output st1) base (dir_name Faces) = Some (faces st1) /\
  (exists e, outcome r2 = Raise e) /\
  subdir_at (output (final r2)) base (dir_name Screencaps) = Some (screencaps st1) /\
  subdir_at (output (final r2)) base (dir_name Faces) = Some (faces st1) /\
  (only_files (screencaps st2) -> only_files (faces st2) ->
   (forall f, f ∈ frames_of cap2 -> detector_returns fl ym "Anime" f) ->
   outcome r2 = Raise (FileExistsError (dest_path base (dir_name Screencaps)))).
Proof.
  intros fl ym cap2 st1.
  apply (no_silent_overwrite fl ym "Anime" "clip.mp4" "clip.avi"
           three_frame_capture cap2 [] blank_workspace st1).
  - reflexivity.
  - vm_compute. reflexivity.
Defined.

(** ** Exceptions and the batch *)

(** The loop over the videos stops at the first exception. *)
Lemma for_each_raise {A} (before : list A) x after (body : A -> M unit)
    st st1 e st2 :
  for_each before body st = (Ok tt, st1) ->
  body x st1 = (Raise e, st2) ->
  for_each (before ++ x :: after) body st = (Raise e, st2).
Proof.
  intros Hb Hx. rewrite for_each_app, (bind_ok _ _ _ _ _ Hb), for_each_cons.
  by rewrite (bind_raise _ _ _ _ _ Hx).
Qed.

(** C5 does not hold as stated.  The promotion of [a.mp4] fails, and the
    batch does not go on to [b.mp4]: the exception leaves
    [process_videos], nothing is printed for [b.mp4] and it has no output
    directory. *)
Lemma failure_halts_batch :
  let r := process_videos (fun _ => Ok []) (fun _ => Ok []) "Anime" rerun_state in
  outcome r = Raise (FileExistsError "/ScreenCap/output/a/screencaps") /\
  output (final r) !! "b" = None /\
  stdout (final r) = [nl +:+ "Processing video: a.mp4"].
Proof. vm_compute. repeat split. Qed.

Lemma main_run face_locations yolo_model line mode st :
  selected_mode line = Some mode ->
  main face_locations yolo_model line st =
    bind (process_videos face_locations yolo_model mode)
      (fun _ => print "All videos have been processed.") (prompted mode st).
Proof.
  unfold selected_mode, main. intros Hmode.
  do 4 (erewrite bind_ok; [|reflexivity]).
  destruct (String.eqb (PyStr.strip line) "1").
  - injection Hmode as <-. erewrite bind_ok; [|reflexivity].
    erewrite bind_ok; [|reflexivity].
    unfold prompted, set_stdout, print. cbn [stdout input screencaps faces output].
    by rewrite <- !app_assoc.
  - destruct (String.eqb (PyStr.strip line) "2"); [|done].
    injection Hmode as <-. erewrite bind_ok; [|reflexivity].
    erewrite bind_ok; [|reflexivity].
    unfold prompted, set_stdout, print. cbn [stdout input screencaps faces output].
    by rewrite <- !app_assoc.
Qed.

Lemma for_each_print l : forall st,
  for_each l (fun package => print ("- " +:+ package)) st =
    (Ok tt, set_stdout (stdout st ++ ((fun package => "- " +:+ package) <$> l)) st).
Proof.
  induction l as [|x l IH]; intros st.
  - cbn. unfold ret. rewrite app_nil_r. by destruct st.
  - rewrite for_each_cons. erewrite bind_ok; [|reflexivity]. rewrite IH.
    unfold set_stdout. cbn [stdout input screencaps faces output].
    by rewrite <- app_assoc.
Qed.

(** C5, amended.  An error that arises while one video is processed is
    not isolated to that video: the script catches no exception.  When
    [process_video] raises on a video, after the videos before it were
    processed, [process_videos] ends with that exception in the state the
    failing video left, so the videos after it are not processed; the
    exception leaves the main block as well, which does not report that
    all videos have been processed. *)
Theorem exception_halts_run
    (face_locations : image -> result (list face_location))
    (yolo_model : image -> result (list box)) :
  (forall mode st before video cap after st1 e st2,
     List.filter (fun x : string * capture => is_video x.1) (input st)
       = before ++ (video, cap) :: after ->
     for_each before
       (fun x => process_video face_locations yolo_model mode x.1 x.2) st
       = (Ok tt, st1) ->
     process_video face_locations yolo_model mode video cap st1 = (Raise e, st2) ->
     process_videos face_locations yolo_model mode st = (Raise e, st2)) /\
  (forall line mode st e st2,
     selected_mode line = Some mode ->
     process_videos face_locations yolo_model mode (prompted mode st)
       = (Raise e, st2) ->
     main face_locations yolo_model line st = (Raise e, st2)).
Proof.
  split.
  - intros mode st before video cap after st1 e st2 Hfilter Hbefore Hvideo.
    unfold process_videos. rewrite Hfilter.
    destruct (before ++ (video, cap) :: after) eqn:Hl.
    { by destruct before. }
    rewrite <- Hl.
    by apply (for_each_raise before (video, cap) after _ st st1 e st2).
  - intros line mode st e st2 Hmode Hrun.
    rewrite (main_run _ _ _ _ _ Hmode). by rewrite (bind_raise _ _ _ _ _ Hrun).
Qed.

Lemma exception_halts_run_witness :
  let failed :=
    final (process_video (fun _ => Ok []) (fun _ => Ok []) "Anime" "a.mp4"
             three_frame_capture (prompted "Anime" rerun_state)) in
  process_videos (fun _ => Ok []) (fun _ => Ok []) "Anime"
    (prompted "Anime" rerun_state)
    = (Raise (FileExistsError "/ScreenCap/output/a/screencaps"), failed) /\
  main (fun _ => Ok []) (fun _ => Ok []) "2" rerun_state
    = (Raise (FileExistsError "/ScreenCap/output/a/screencaps"), failed).
Proof.
  intros failed.
  destruct (exception_halts_run (fun _ => Ok []) (fun _ => Ok []))
    as (Hvideo & Hmain).
  assert (Hrun :
    process_videos (fun _ => Ok []) (fun _ => Ok []) "Anime"
      (prompted "Anime" rerun_state)
    = (Raise (FileExistsError "/ScreenCap/output/a/screencaps"), failed)).
  { apply (Hvideo "Anime" (prompted "Anime" rerun_state) [] "a.mp4"
             three_frame_capture [("b.mp4", three_frame_capture)]
             (prompted "Anime" rerun_state)).
    - reflexivity.
    - reflexivity.
    - vm_compute. reflexivity. }
  split; [exact Hrun|].
  apply (Hmain "2" "Anime" rerun_state); [reflexivity|exact Hrun].
Defined.

(** * Further properties of the script *)

(** ** The dependency check and the main block *)

(** X1. [check_dependencies] reports the packages of exactly those of
    the five modules for which [find_spec] finds nothing, in the order of
    the list.  When there is none it returns and changes nothing.
    Otherwise it prints the heading, one line per missing package and the
    [pip install] command that names them all, and exits with status 1;
    it touches the standard output only. *)
Theorem check_dependencies_report (find_spec : string -> bool) (st : state) :
  let missing := missing_packages find_spec in
  (forall p, p ∈ missing <->
             exists m, (m, p) ∈ dependencies /\ find_spec m = false) /\
  missing `sublist_of` dependencies.*2 /\
  (missing = [] -> check_dependencies find_spec st = (Ok tt, st)) /\
  (missing ≠ [] ->
   check_dependencies find_spec st =
     (Raise (SystemExit 1),
      set_stdout
        (stdout st ++
         ["The following dependencies are missing:"] ++
         ((fun package => "- " +:+ package) <$> missing) ++
         [nl +:+ "Install them using the following command:";
          "pip install " +:+ PyStr.join " " missing])
        st)).
Proof.
  intros missing. split; [|split; [|split]].
  - intros p. subst missing. unfold missing_packages.
    rewrite list_elem_of_fmap. split.
    + intros ([m p'] & -> & Hin). apply list_elem_of_In, filter_In in Hin.
      destruct Hin as [Hin Hneg]. exists m. cbn [fst snd] in *. split.
      * by apply list_elem_of_In.
      * by destruct (find_spec m).
    + intros (m & Hin & Hm). exists (m, p). split; [done|].
      apply list_elem_of_In, filter_In. split; [by apply list_elem_of_In|].
      cbn [fst]. by rewrite Hm.
  - subst missing. unfold missing_packages. apply fmap_sublist.
    induction dependencies as [|d l IH]; [done|]. cbn [List.filter].
    destruct (negb (find_spec d.1)); [by apply sublist_skip|by apply sublist_cons].
  - subst missing. intros Hnone. unfold check_dependencies. by rewrite Hnone.
  - subst missing. intros Hsome. unfold check_dependencies.
    destruct (missing_packages find_spec) as [|p l] eqn:Hm; [done|].
    cbv beta iota zeta.
    erewrite bind_ok; [|reflexivity].
    erewrite bind_ok; [|apply for_each_print].
    erewrite bind_ok; [|reflexivity].
    erewrite bind_ok; [|reflexivity].
    unfold raise, set_stdout. cbn [stdout input screencaps faces output].
    by rewrite <- !app_assoc.
Qed.

Lemma check_dependencies_report_witness :
  check_dependencies (fun module => negb (String.eqb module "PIL")) blank_workspace =
    (Raise (SystemExit 1),
     set_stdout
       ["The following dependencies are missing:"; "- Pillow";
        nl +:+ "Install them using the following command:";
        "pip install Pillow"]
       blank_workspace).
Proof.
  destruct (check_dependencies_report
              (fun module => negb (String.eqb module "PIL")) blank_workspace)
    as (_ & _ & _ & Hexit).
  apply Hexit. discriminate.
Defined.

(** X2. An answer at the prompt, of ASCII characters, that is,
    surrounding white space apart, neither 1 nor 2 (the empty answer
    included) ends the run: the main block prints the menu and "Invalid
    input. Exiting.", exits with status 1 and processes nothing. *)
Theorem main_invalid_choice
    (face_locations : image -> result (list face_location))
    (yolo_model : image -> result (list box))
    (line : string) (st : state) :
  PyStr.is_ascii line = true ->
  PyStr.strip line ≠ "1" -> PyStr.strip line ≠ "2" ->
  main face_locations yolo_model line st =
    (Raise (SystemExit 1),
     set_stdout
       (stdout st ++
        ["Select mode:"; "1: Realistic (HOG/CNN)"; "2: Anime (YOLOv8)";
         "Enter mode (1 or 2): "; "Invalid input. Exiting."])
       st).
Proof.
  intros _ H1 H2. unfold main.
  do 4 (erewrite bind_ok; [|reflexivity]).
  destruct (String.eqb_spec (PyStr.strip line) "1") as [|_]; [done|].
  destruct (String.eqb_spec (PyStr.strip line) "2") as [|_]; [done|].
  erewrite bind_raise; [reflexivity|].
  erewrite bind_ok; [|reflexivity].
  unfold raise, set_stdout, print. cbn [stdout input screencaps faces output].
  by rewrite <- !app_assoc.
Qed.

Lemma main_invalid_choice_witness :
  main (fun _ => Ok []) (fun _ => Ok []) " 3 " rerun_state =
    (Raise (SystemExit 1),
     set_stdout
       ["Select mode:"; "1: Realistic (HOG/CNN)"; "2: Anime (YOLOv8)";
        "Enter mode (1 or 2): "; "Invalid input. Exiting."]
       rerun_state).
Proof.
  apply (main_invalid_choice (fun _ => Ok []) (fun _ => Ok []) " 3 " rerun_state);
    [reflexivity|discriminate|discriminate].
Defined.

(** Where no name has one of the three extensions the list of videos is
    empty. *)
Lemma no_videos_filter (l : list (string * capture)) :
  (forall f cap, (f, cap) ∈ l ->
     ~ (has_extension f ".mp4" \/ has_extension f ".avi" \/
        has_extension f ".mkv")) ->
  List.filter (fun e : string * capture => is_video e.1) l = [].
Proof.
  induction l as [|[f cap] l IH]; intros Hno; [done|]. cbn [List.filter fst].
  destruct (is_video f) eqn:Hv.
  - apply is_video_spec in Hv. destruct (Hno f cap); [left|done].
  - apply IH. intros f' cap' Hin. apply (Hno f' cap'). by right.
Qed.

(** X3. With a valid answer and an input directory of ASCII names
    without videos the run ends normally, touches neither the workspace
    nor the output hierarchy, and still reports, after "No videos found
    in the input directory.", that all videos have been processed. *)
Theorem main_without_videos
    (face_locations : image -> result (list face_location))
    (yolo_model : image -> result (list box))
    (line mode : string) (st : state) :
  selected_mode line = Some mode ->
  (forall f cap, (f, cap) ∈ input st -> PyStr.is_ascii f = true) ->
  (forall f cap, (f, cap) ∈ input st ->
     ~ (has_extension f ".mp4" \/ has_extension f ".avi" \/
        has_extension f ".mkv")) ->
  main face_locations yolo_model line st =
    (Ok tt,
     set_stdout
       (stdout st ++
        ["Select mode:"; "1: Realistic (HOG/CNN)"; "2: Anime (YOLOv8)";
         "Enter mode (1 or 2): ";
         "Starting processing in " +:+ mode +:+ " mode...";
         "No videos found in the input directory.";
         "All videos have been processed."])
       st).
Proof.
  intros Hmode _ Hno. rewrite (main_run _ _ _ _ _ Hmode).
  assert (Hrun : process_videos face_locations yolo_model mode (prompted mode st) =
                 (Ok tt, set_stdout (stdout (prompted mode st) ++
                    ["No videos found in the input directory."]) (prompted mode st))).
  { unfold process_videos. cbn [input prompted set_stdout].
    by rewrite (no_videos_filter _ Hno). }
  rewrite (bind_ok _ _ _ _ _ Hrun).
  unfold print, prompted, set_stdout. cbn [stdout input screencaps faces output].
  by rewrite <- !app_assoc.
Qed.

Lemma main_without_videos_witness :
  main (fun _ => Ok []) (fun _ => Ok []) "2" no_video_state =
    (Ok tt,
     set_stdout
       ["Select mode:"; "1: Realistic (HOG/CNN)"; "2: Anime (YOLOv8)";
        "Enter mode (1 or 2): "; "Starting processing in Anime mode...";
        "No videos found in the input directory.";
        "All videos have been processed."]
       no_video_state).
Proof.
  apply (main_without_videos (fun _ => Ok []) (fun _ => Ok []) "2" "Anime"
           no_video_state); [reflexivity| |].
  - intros f cap Hin. cbn [input no_video_state] in Hin.
    apply elem_of_cons in Hin as [Hin|Hin]; [by injection Hin as -> _|].
    apply elem_of_cons in Hin as [Hin|Hin]; [by injection Hin as -> _|].
    by apply elem_of_nil in Hin.
  - intros f cap Hin. apply no_extension_by_test.
    cbn [input no_video_state] in Hin.
    apply elem_of_cons in Hin as [Hin|Hin]; [by injection Hin as -> _|].
    apply elem_of_cons in Hin as [Hin|Hin]; [by injection Hin as -> _|].
    by apply elem_of_nil in Hin.
Defined.

(** ** Base names *)

Lemma app_cons_string c s t : String c s +:+ t = String c (s +:+ t).
Proof. reflexivity. Qed.

Lemma app_assoc_string s t u : (s +:+ t) +:+ u = s +:+ t +:+ u.
Proof.
  induction s as [|c s IH]; [done|]. rewrite !app_cons_string. by rewrite IH.
Qed.

Lemma substring_all s : substring 0 (String.length s) s = s.
Proof. induction s as [|c s IH]; [done|]. cbn. by rewrite IH. Qed.

Lemma substring_app_l s t : substring 0 (String.length s) (s +:+ t) = s.
Proof.
  induction s as [|c s IH].
  - by destruct t.
  - rewrite app_cons_string. cbn. by rewrite IH.
Qed.

Lemma substring_app_r s t :
  substring (String.length s) (String.length t) (s +:+ t) = t.
Proof.
  induction s as [|c s IH].
  - apply substring_all.
  - rewrite app_cons_string. cbn. exact IH.
Qed.

Lemma occurs_app c s t : occurs c (s +:+ t) = (occurs c s || occurs c t)%bool.
Proof.
  induction s as [|a s IH]; [done|]. rewrite app_cons_string. cbn [occurs].
  by destruct (Ascii.eqb a c).
Qed.

(** The last occurrence of a character that occurs. *)
Lemma last_occurrence c s :
  occurs c s = true ->
  exists pre suf, s = pre +:+ String c suf /\ occurs c suf = false.
Proof.
  induction s as [|a s IH]; [done|]. cbn [occurs]. intros H.
  destruct (occurs c s) eqn:Hs.
  - destruct (IH eq_refl) as (pre & suf & -> & Hsuf).
    by exists (String a pre), suf.
  - destruct (Ascii.eqb_spec a c) as [->|]; [|done]. by exists "", s.
Qed.

Lemma rfind_from_none c s i : occurs c s = false -> PyStr.rfind_from c s i = -1.
Proof.
  revert i. induction s as [|a s IH]; intros i; [reflexivity|].
  cbn [occurs PyStr.rfind_from].
  intros Hs. destruct (Ascii.eqb a c); [done|]. by rewrite IH.
Qed.

Lemma rfind_from_last c pre suf : forall i,
  0 <= i -> occurs c suf = false ->
  PyStr.rfind_from c (pre +:+ String c suf) i = i + Z.of_nat (String.length pre).
Proof.
  induction pre as [|a pre IH]; intros i Hi Hsuf.
  - change ("" +:+ String c suf) with (String c suf).
    cbn [PyStr.rfind_from String.length].
    rewrite rfind_from_none by done. rewrite Ascii.eqb_refl. cbn. lia.
  - rewrite app_cons_string. cbn [PyStr.rfind_from String.length].
    rewrite IH by (done || lia).
    destruct (Z.leb_spec 0 (i + 1 + Z.of_nat (String.length pre))); lia.
Qed.

(** [only_dots] looks at the characters from [k] on only. *)
Lemma only_dots_app_l s t : forall k n,
  (k + n <= String.length s)%nat ->
  OsPath.only_dots (s +:+ t) k n = OsPath.only_dots s k n.
Proof.
  intros k n. revert k. induction n as [|n IH]; intros k Hk; [done|].
  cbn [OsPath.only_dots].
  assert (Hget : String.get k (s +:+ t) = String.get k s).
  { symmetry. apply append_correct1. lia. }
  rewrite Hget. destruct (String.get k s) as [a|]; [|done].
  destruct (Ascii.eqb_spec a "."%char) as [->|Hne].
  - apply IH. lia.
  - by repeat case_match.
Qed.

Lemma only_dots_false_pos p k n : OsPath.only_dots p k n = false -> (0 < n)%nat.
Proof. destruct n; [done|lia]. Qed.

(** X4. [os.path.splitext] splits a name in two parts that make up the
    name again; the extension is empty or begins with a period and
    contains no other; and the root of a name that is not empty is not
    empty, so that the output directory of a video is never [output/]
    itself. *)
Theorem splitext_parts (p : string) :
  let (root, ext) := OsPath.splitext p in
  root +:+ ext = p /\
  (ext = "" \/ exists e, ext = String "." e /\ occurs "." e = false) /\
  (p ≠ "" -> root ≠ "").
Proof.
  unfold OsPath.splitext.
  assert (Hwhole : "" = "" \/ exists e, "" = String "."%char e /\ occurs "." e = false)
    by by left.
  assert (Hp : p +:+ "" = p).
  { induction p as [|c p IH]; [done|]. by rewrite app_cons_string, IH. }
  destruct (Z.ltb_spec (PyStr.rfind "/" p) (PyStr.rfind "." p)) as [Hlt|_]; [|done].
  destruct (OsPath.only_dots p _ _) eqn:Hdots; [done|].
  apply only_dots_false_pos in Hdots.
  destruct (occurs "." p) eqn:Hocc.
  2:{ unfold PyStr.rfind in Hdots. rewrite (rfind_from_none "." p 0 Hocc) in Hdots.
      cbn in Hdots. lia. }
  destruct (last_occurrence "." p Hocc) as (pre & suf & -> & Hsuf).
  unfold PyStr.rfind in *. rewrite (rfind_from_last "." pre suf 0) in * by done.
  rewrite Z.add_0_l, Nat2Z.id in *.
  replace (String.length (pre +:+ String "." suf) - String.length pre)%nat
    with (String.length (String "." suf))
    by (rewrite length_app_string; lia).
  rewrite substring_app_l, substring_app_r.
  split; [done|]. split; [right; by exists suf|].
  intros _ ->. cbn in Hdots. lia.
Qed.

Lemma get_app_middle pre x suf :
  String.get (String.length pre) (pre +:+ String x suf) = Some x.
Proof. induction pre as [|a pre IH]; [done|]. rewrite app_cons_string. exact IH. Qed.

(** A character other than a period stops the loop over the leading
    dots. *)
Lemma only_dots_stops pre x suf : forall n k,
  x ≠ "."%char ->
  (k <= String.length pre < k + n)%nat ->
  OsPath.only_dots (pre +:+ String x suf) k n = false.
Proof.
  induction n as [|n IH]; intros k Hx Hk; [lia|]. cbn [OsPath.only_dots].
  destruct (decide (k = String.length pre)) as [->|Hne].
  - rewrite get_app_middle. by repeat case_match.
  - destruct (String.get k (pre +:+ String x suf)) as [a|]; [|done].
    destruct (Ascii.eqb_spec a "."%char) as [->|Ha].
    + apply IH; [done|lia].
    + by repeat case_match.
Qed.

(** X5. The base name of a video file.  For a name [b.e], where [b] has
    no slash and a character other than a period, and [e] has neither a
    period nor a slash, [os.path.splitext] gives the root [b] and the
    extension [.e]: the output directory of the video is named [b], and
    two videos [b.e] and [b.e'] share it. *)
Theorem splitext_base (b e : string) :
  occurs "/" b = false ->
  (exists pre x suf, b = pre +:+ String x suf /\ x ≠ "."%char) ->
  occurs "." e = false -> occurs "/" e = false ->
  OsPath.splitext (b +:+ String "." e) = (b, String "." e).
Proof.
  intros Hb (pre & x & suf & Hbx & Hx) He Hs. unfold OsPath.splitext, PyStr.rfind.
  rewrite (rfind_from_none "/") by (rewrite occurs_app, Hb; cbn; by rewrite Hs).
  rewrite (rfind_from_last "." b e 0) by done.
  rewrite Z.add_0_l, Nat2Z.id. cbn [Z.add Z.to_nat].
  destruct (Z.ltb_spec (-1) (Z.of_nat (String.length b))); [|lia].
  change (Z.to_nat (-1 + 1)) with 0%nat. rewrite ?Nat.sub_0_r.
  assert (Hdots : OsPath.only_dots (b +:+ String "." e) 0 (String.length b) = false).
  { rewrite Hbx, app_assoc_string, app_cons_string.
    apply only_dots_stops; [done|].
    rewrite length_app_string. cbn [String.length]. lia. }
  rewrite Hdots.
  replace (String.length (b +:+ String "." e) - String.length b)%nat
    with (String.length (String "." e))
    by (rewrite length_app_string; lia).
  by rewrite substring_app_l, substring_app_r.
Qed.

Lemma splitext_base_witness :
  OsPath.splitext ("holiday.2024" +:+ String "." "MKV") = ("holiday.2024", ".MKV").
Proof.
  apply splitext_base; [reflexivity| |reflexivity..].
  by exists "", "h"%char, "oliday.2024".
Defined.

(** ** Crops *)

Lemma slice_index_range n i : 0 <= n -> 0 <= slice_index n i <= n.
Proof. intros Hn. unfold slice_index. destruct (Z.ltb_spec i 0); lia. Qed.

(** A slice is a run of consecutive elements of the list, whatever the
    bounds. *)
Lemma slice_segment {A} (l : list A) a b :
  exists before after, l = before ++ slice l a b ++ after.
Proof.
  unfold slice.
  set (a' := Z.to_nat (slice_index (Z.of_nat (length l)) a)).
  set (k := Z.to_nat (_ - _)).
  exists (take a' l), (drop k (drop a' l)).
  by rewrite (take_drop k), (take_drop a').
Qed.

Lemma map_fmap {A B} (f : A -> B) (l : list A) : List.map f l = f <$> l.
Proof. induction l as [|x l IH]; [done|]. cbn. by rewrite IH. Qed.

(** A slice with bounds inside the list. *)
Lemma slice_inside {A} (l : list A) a b :
  0 <= a <= b -> b <= Z.of_nat (length l) ->
  slice l a b = take (Z.to_nat (b - a)) (drop (Z.to_nat a) l).
Proof.
  intros Ha Hb. unfold slice, slice_index.
  destruct (Z.ltb_spec a 0); [lia|]. destruct (Z.ltb_spec b 0); [lia|].
  by rewrite !Z.min_l by lia.
Qed.

(** X6. A crop never leaves the frame.  Whatever the coordinates of a
    box (outside the frame, reversed, negative), the rows of the crop
    come from a run of consecutive rows of the frame, in order, and each
    is a run of consecutive pixels of its row: coordinates beyond the
    frame are clipped, no error arises, and the crop has at most as many
    rows as the frame. *)
Theorem crop_within (frame : image) (r0 r1 c0 c1 : Z) :
  exists above rows below,
    frame = above ++ rows ++ below /\
    Forall2 (fun (cropped row : list pixel) =>
               exists before after, row = before ++ cropped ++ after)
      (crop frame r0 r1 c0 c1) rows /\
    (length (crop frame r0 r1 c0 c1) <= length frame)%nat.
Proof.
  destruct (slice_segment frame r0 r1) as (above & below & Hrows).
  exists above, (slice frame r0 r1), below. split; [done|].
  unfold crop. split.
  - apply Forall2_fmap_l, Forall_Forall2_diag, List.Forall_forall.
    intros row _. apply slice_segment.
  - rewrite length_map. rewrite Hrows at 2. rewrite !length_app. lia.
Qed.

(** X7. The crop of a box inside the frame.  For a frame whose rows are
    at least [right] pixels wide and a box with
    [0 <= top <= bottom <= height] and [0 <= left <= right], the crop has
    [bottom - top] rows of [right - left] pixels, and its pixel at row
    [r] and column [c] is the pixel of the frame at row [top + r] and
    column [left + c]. *)
Theorem crop_region (frame : image) (top bottom left' right' : Z) :
  0 <= top <= bottom -> bottom <= Z.of_nat (length frame) ->
  0 <= left' <= right' ->
  Forall (fun row : list pixel => right' <= Z.of_nat (length row)) frame ->
  let region := crop frame top bottom left' right' in
  length region = Z.to_nat (bottom - top) /\
  Forall (fun row : list pixel => length row = Z.to_nat (right' - left')) region /\
  (forall r c row,
     (r < Z.to_nat (bottom - top))%nat -> (c < Z.to_nat (right' - left'))%nat ->
     frame !! (Z.to_nat top + r)%nat = Some row ->
     exists row', region !! r = Some row' /\
                  row' !! c = row !! (Z.to_nat left' + c)%nat).
Proof.
  intros Htop Hbottom Hleft Hwide region. subst region. unfold crop.
  rewrite (slice_inside frame top bottom) by done.
  split; [|split].
  - rewrite length_map, length_take, length_drop. lia.
  - apply List.Forall_forall. intros row' Hin.
    apply in_map_iff in Hin as (row & <- & Hin).
    apply list_elem_of_In in Hin.
    assert (Hin' : In row frame).
    { apply list_elem_of_In. eapply elem_of_sublist; [exact Hin|].
      etrans; [apply sublist_take|apply sublist_drop]. }
    clear Hin. rename Hin' into Hin.
    rewrite List.Forall_forall in Hwide. specialize (Hwide row Hin).
    rewrite slice_inside by (done || lia).
    rewrite length_take, length_drop. lia.
  - intros r c row Hr Hc Hrow.
    exists (slice row left' right'). split.
    + unfold image in *.
      rewrite map_fmap, list_lookup_fmap, lookup_take, lookup_drop.
      rewrite decide_True by done. by rewrite Hrow.
    + assert (Hin : In row frame).
      { apply list_elem_of_In. by eapply list_elem_of_lookup_2. }
      rewrite List.Forall_forall in Hwide. specialize (Hwide row Hin).
      rewrite slice_inside by (done || lia).
      rewrite lookup_take, lookup_drop. by rewrite decide_True by lia.
Qed.

Lemma crop_region_witness :
  let region := crop small_frame 0 1 1 2 in
  length region = 1%nat /\
  region !! 0%nat = Some [(4, 5, 6)].
Proof.
  destruct (crop_region small_frame 0 1 1 2) as (Hlen & _ & _).
  - lia.
  - cbn. lia.
  - lia.
  - repeat constructor; cbn; lia.
  - split; [exact Hlen|reflexivity].
Defined.

(** ** What one video prints *)

(** Promotion prints its message when it succeeded, and only then. *)
Lemma promote_stdout video_file st :
  exists r o,
    promote video_file st =
      (r, mkState (input st) (screencaps st) (faces st) o
            (stdout st ++ match r with
                          | Ok _ => [completed video_file]
                          | Raise _ => []
                          end)).
Proof.
  rewrite promote_run.
  destruct (run_ops_frame (promotion_ops st (OsPath.splitext video_file).1) st)
    as (r & o & Hrun).
  destruct r as [[]|e].
  - rewrite (bind_ok _ _ _ _ _ Hrun). by exists (Ok tt), o.
  - rewrite (bind_raise _ _ _ _ _ Hrun). exists (Raise e), o.
    rewrite app_nil_r. by destruct st.
Qed.

(** [process_video] up to its promotion: the start message is printed,
    and the reset and the streaming loop touch the working directories
    only. *)
Lemma process_video_until_promote face_locations yolo_model mode video_file cap st :
  exists (r : result unit) ms mf,
    let st' := mkState (input st) ms mf (output st)
                 (stdout st ++ [started video_file]) in
    process_video face_locations yolo_model mode video_file cap st =
      match r with
      | Ok _ => promote video_file st'
      | Raise e => (Raise e, st')
      end.
Proof.
  unfold process_video. erewrite bind_ok; [|reflexivity].
  set (st1 := set_stdout _ st).
  destruct (clear_working_directories_frame st1) as (r2 & ms2 & mf2 & H2).
  destruct r2 as [[]|e2].
  2:{ rewrite (bind_raise _ _ _ _ _ H2). by exists (Raise e2), ms2, mf2. }
  rewrite (bind_ok _ _ _ _ _ H2).
  set (st2 := set_dir Faces mf2 (set_dir Screencaps ms2 st1)).
  assert (H3 : exists r3 ms3 mf3,
    (if opened cap
     then stream_frames face_locations yolo_model mode (packets cap) 0
     else ret tt) st2 = (r3, set_dir Faces mf3 (set_dir Screencaps ms3 st2))).
  { destruct (opened cap); [apply stream_frames_frame|].
    exists (Ok tt), ms2, mf2. reflexivity. }
  destruct H3 as (r3 & ms3 & mf3 & H3).
  destruct r3 as [[]|e3].
  - rewrite (bind_ok _ _ _ _ _ H3). by exists (Ok tt), ms3, mf3.
  - rewrite (bind_raise _ _ _ _ _ H3). by exists (Raise e3), ms3, mf3.
Qed.

(** X8. What a video prints.  Whatever the state and however it ends,
    [process_video] prints "Processing video: ..." first, and
    "Processing completed: ..." after it exactly when it ends without an
    exception; it prints nothing else, and it leaves the listing of the
    input directory as it is. *)
Theorem process_video_reports
    (face_locations : image -> result (list face_location))
    (yolo_model : image -> result (list box))
    (mode video_file : string) (cap : capture) (st : state) :
  let r := process_video face_locations yolo_model mode video_file cap st in
  stdout (final r) =
    stdout st ++ [started video_file] ++
    match outcome r with
    | Ok _ => [completed video_file]
    | Raise _ => []
    end /\
  input (final r) = input st.
Proof.
  intros r. subst r.
  destruct (process_video_until_promote face_locations yolo_model mode video_file
              cap st) as (r1 & ms & mf & ->).
  destruct r1 as [[]|e]; cbn [final outcome fst snd stdout input].
  - set (st' := mkState _ _ _ _ _).
    destruct (promote_stdout video_file st') as (r2 & o & ->).
    cbn [final outcome fst snd stdout input]. subst st'. cbn [stdout input].
    by rewrite <- app_assoc.
  - by rewrite app_nil_r.
Qed.

(** ** A reset that fails *)

(** The two ways the loop of [unlink]s over the listing of [d] ends:
    without an exception, on a directory without subdirectories, which it
    empties; or at a subdirectory, with the files listed before it
    deleted and every subdirectory still there. *)
Lemma unlink_listing_outcome d names : forall st,
  names = (map_to_list (get_dir d st)).*1 ->
  let r := for_each names (fun file => unlink d file) st in
  (outcome r = Ok tt /\ (forall j, get_dir d st !! j ≠ Some Subdir) /\
   final r = set_dir d ∅ st) \/
  (exists k m',
     outcome r = Raise (IsADirectoryError (OsPath.join (dir_path d) k)) /\
     get_dir d st !! k = Some Subdir /\
     final r = set_dir d m' st /\
     m' ⊆ get_dir d st /\
     forall j, get_dir d st !! j = Some Subdir -> m' !! j = Some Subdir).
Proof.
  induction names as [|k names IH]; intros st Hnames r.
  - symmetry in Hnames. apply fmap_nil_inv, map_to_list_empty_iff in Hnames.
    left. subst r. rewrite for_each_nil. cbn [final outcome fst snd].
    split; [done|]. rewrite Hnames. split; [|by rewrite <- Hnames, set_get_dir].
    intros j. by rewrite lookup_empty.
  - destruct (map_to_list (get_dir d st)) as [|[k' n] l] eqn:Hl; [done|].
    injection Hnames as -> Hrest.
    assert (Hk : get_dir d st !! k' = Some n).
    { apply elem_of_map_to_list. rewrite Hl. left. }
    assert (Hfirst : map_first_key (get_dir d st) k').
    { exists n. by rewrite Hl. }
    subst r. rewrite for_each_cons.
    assert (Hn : n ≠ Subdir \/ n = Subdir) by (destruct n; auto).
    destruct Hn as [Hn| ->].
    + set (st1 := set_dir d (delete k' (get_dir d st)) st).
      assert (Hu : unlink d k' st = (Ok tt, st1)).
      { unfold unlink. rewrite Hk. by destruct n. }
      rewrite (bind_ok _ _ _ _ _ Hu).
      assert (Hl1 : map_to_list (get_dir d st1) = l).
      { pose proof (map_to_list_delete_first_key _ _ _ Hk Hfirst) as Hd.
        rewrite Hl in Hd. injection Hd as Hd.
        subst st1. by rewrite get_set_dir. }
      assert (Hd1 : get_dir d st1 = delete k' (get_dir d st)).
      { subst st1. by rewrite get_set_dir. }
      destruct (IH st1) as [(Hok & Hof & Hfin)|(j & m' & Hr & Hj & Hfin & Hsub & Hdirs)].
      { by rewrite Hl1. }
      * left. split; [done|]. split.
        -- intros j Hj. destruct (decide (j = k')) as [->|Hne].
           ++ rewrite Hk in Hj. injection Hj as Hj. by apply Hn.
           ++ apply (Hof j). rewrite Hd1. by rewrite lookup_delete_ne.
        -- rewrite Hfin. subst st1. by rewrite set_set_dir.
      * right. exists j, m'. split; [done|].
        rewrite Hd1 in Hj, Hsub, Hdirs.
        apply lookup_delete_Some in Hj as [Hne Hj].
        split; [done|]. split; [rewrite Hfin; subst st1; by rewrite set_set_dir|].
        split; [etrans; [exact Hsub|apply delete_subseteq]|].
        intros i Hi. apply Hdirs. rewrite lookup_delete_ne; [done|].
        intros <-. rewrite Hk in Hi. injection Hi as Hi. by apply Hn.
    + right. exists k', (get_dir d st).
      assert (Hu : unlink d k' st =
                   (Raise (IsADirectoryError (OsPath.join (dir_path d) k')), st)).
      { unfold unlink. by rewrite Hk. }
      rewrite (bind_raise _ _ _ _ _ Hu). cbn [final outcome fst snd].
      split; [done|]. split; [done|]. split; [by rewrite set_get_dir|]. done.
Qed.

Lemma clear_dir_outcome d st :
  let r := clear_dir d st in
  (outcome r = Ok tt /\ (forall j, get_dir d st !! j ≠ Some Subdir) /\
   final r = set_dir d ∅ st) \/
  (exists k m',
     outcome r = Raise (IsADirectoryError (OsPath.join (dir_path d) k)) /\
     get_dir d st !! k = Some Subdir /\
     final r = set_dir d m' st /\
     m' ⊆ get_dir d st /\
     forall j, get_dir d st !! j = Some Subdir -> m' !! j = Some Subdir).
Proof. rewrite clear_dir_listing. by apply unlink_listing_outcome. Qed.

(** The reset only deletes: each working directory is left with a part
    of what it held. *)
Lemma clear_working_directories_shrinks st :
  exists r ms mf,
    clear_working_directories st = (r, set_dir Faces mf (set_dir Screencaps ms st)) /\
    ms ⊆ screencaps st /\ mf ⊆ faces st.
Proof.
  rewrite clear_working_directories_unfold.
  destruct (clear_dir_outcome Screencaps st)
    as [(Hok & _ & Hfin)|(k & ms & Hr & _ & Hfin & Hsub & _)];
    destruct (clear_dir Screencaps st) as [r1 st1] eqn:H1;
    cbn [final outcome fst snd] in *; subst.
  - rewrite (bind_ok _ _ _ _ _ H1).
    set (st1 := set_dir Screencaps ∅ st).
    destruct (clear_dir_outcome Faces st1)
      as [(Hok2 & _ & Hfin2)|(k & mf & Hr & _ & Hfin2 & Hsub & _)];
      destruct (clear_dir Faces st1) as [r2 st2] eqn:H2;
      cbn [final outcome fst snd] in *; subst.
    + rewrite (bind_ok _ _ _ _ _ H2). exists (Ok tt), ∅, ∅.
      split; [done|]. split; apply map_empty_subseteq.
    + rewrite (bind_raise _ _ _ _ _ H2). eexists _, ∅, mf.
      split; [done|]. split; [apply map_empty_subseteq|done].
  - rewrite (bind_raise _ _ _ _ _ H1). eexists _, ms, (faces st).
    split; [by destruct st|]. done.
Qed.

(** X9. A reset that fails.  When one of the two working directories
    holds a subdirectory, [process_video] ends with the
    [IsADirectoryError] of an [unlink] on a subdirectory of the
    workspace, after its start message and before any frame is read:
    nothing is added to the working directories, their subdirectories
    are all still there, nothing is printed after the start message and
    the output hierarchy is as it was.  The directory "screencaps" is
    cleared first: when the exception comes from "faces", "screencaps"
    is empty, and when it comes from "screencaps", "faces" is as it
    was. *)
Theorem reset_failure_stops_video
    (face_locations : image -> result (list face_location))
    (yolo_model : image -> result (list box))
    (mode video_file : string) (cap : capture) (st : state) :
  (exists d k, get_dir d st !! k = Some Subdir) ->
  let r := process_video face_locations yolo_model mode video_file cap st in
  exists d k,
    outcome r = Raise (IsADirectoryError (OsPath.join (dir_path d) k)) /\
    get_dir d st !! k = Some Subdir /\
    screencaps (final r) ⊆ screencaps st /\
    faces (final r) ⊆ faces st /\
    (forall d' j, get_dir d' st !! j = Some Subdir ->
                  get_dir d' (final r) !! j = Some Subdir) /\
    match d with
    | Screencaps => faces (final r) = faces st
    | Faces => screencaps (final r) = ∅
    end /\
    stdout (final r) = stdout st ++ [started video_file] /\
    output (final r) = output st.
Proof.
  intros Hdir r. subst r.
  unfold process_video. erewrite bind_ok; [|reflexivity].
  set (st1 := set_stdout _ st).
  assert (Hreset : exists d k ms mf,
    clear_working_directories st1 =
      (Raise (IsADirectoryError (OsPath.join (dir_path d) k)),
       set_dir Faces mf (set_dir Screencaps ms st1)) /\
    get_dir d st !! k = Some Subdir /\
    ms ⊆ screencaps st /\ mf ⊆ faces st /\
    (forall j, screencaps st !! j = Some Subdir -> ms !! j = Some Subdir) /\
    (forall j, faces st !! j = Some Subdir -> mf !! j = Some Subdir) /\
    match d with Screencaps => mf = faces st | Faces => ms = ∅ end).
  { rewrite clear_working_directories_unfold.
    destruct (clear_dir_outcome Screencaps st1)
      as [(Hok & Hof & Hfin)|(k & ms & Hr & Hk & Hfin & Hsub & Hdirs)];
      destruct (clear_dir Screencaps st1) as [r1 st2] eqn:H1;
      cbn [final outcome fst snd] in *; subst.
    - rewrite (bind_ok _ _ _ _ _ H1).
      set (st2 := set_dir Screencaps ∅ st1).
      destruct (clear_dir_outcome Faces st2)
        as [(Hok2 & Hof2 & Hfin2)|(k & mf & Hr & Hk & Hfin2 & Hsub & Hdirs)];
        destruct (clear_dir Faces st2) as [r2 st3] eqn:H2;
        cbn [final outcome fst snd] in *; subst.
      + destruct Hdir as ([] & k & Hk).
        * by destruct (Hof k).
        * by destruct (Hof2 k).
      + rewrite (bind_raise _ _ _ _ _ H2).
        exists Faces, k, ∅, mf. split; [done|]. split; [done|].
        split; [apply map_empty_subseteq|]. split; [done|].
        split; [|done].
        intros j Hj. by destruct (Hof j).
    - rewrite (bind_raise _ _ _ _ _ H1).
      exists Screencaps, k, ms, (faces st). split; [by destruct st|]. done. }
  destruct Hreset as (d & k & ms & mf & Hreset & Hk & Hms & Hmf & Hds & Hdf & Hd).
  rewrite (bind_raise _ _ _ _ _ Hreset). cbn [final outcome fst snd].
  exists d, k. split; [done|]. split; [done|].
  split; [done|]. split; [done|].
  split; [intros [] j Hj; cbn; auto|]. done.
Qed.


Lemma reset_failure_stops_video_witness :
  (exists d k, get_dir d cluttered_workspace !! k = Some Subdir) /\
  exists d k,
    outcome (process_video (fun _ => Ok []) (fun _ => Ok []) "Anime" "a.mp4"
               three_frame_capture cluttered_workspace) =
      Raise (IsADirectoryError (OsPath.join (dir_path d) k)) /\
    get_dir d cluttered_workspace !! k = Some Subdir.
Proof.
  assert (H : exists d k, get_dir d cluttered_workspace !! k = Some Subdir).
  { exists Screencaps, "thumbs". vm_compute. reflexivity. }
  split; [exact H|].
  destruct (reset_failure_stops_video (fun _ => Ok []) (fun _ => Ok []) "Anime"
              "a.mp4" three_frame_capture cluttered_workspace H)
    as (d & k & H1 & H2 & _).
  exists d, k. split; [exact H1|exact H2].
Defined.

(** ** Promotion beside the results of an earlier run *)

(** X10. Promotion into a directory that holds "faces" and no
    "screencaps".  When [output/<base>/faces] exists and
    [output/<base>/screencaps] does not, the promotion copies the
    snapshots of the workspace to [output/<base>/screencaps], then ends
    with the [FileExistsError] of the second [copytree]: the directory
    "faces" keeps its earlier content, the regions of the workspace are
    not copied, the other output directories are as they were and the
    completion message is not printed. *)
Theorem promotion_stops_at_existing_faces
    (video_file : string) (st : state) (d : gmap string node) :
  let base := (OsPath.splitext video_file).1 in
  subdir_at (output st) base (dir_name Screencaps) = None ->
  subdir_at (output st) base (dir_name Faces) = Some d ->
  let r := promote video_file st in
  outcome r = Raise (FileExistsError (dest_path base (dir_name Faces))) /\
  subdir_at (output (final r)) base (dir_name Screencaps) = Some (screencaps st) /\
  subdir_at (output (final r)) base (dir_name Faces) = Some d /\
  (forall b, b ≠ base -> output (final r) !! b = output st !! b) /\
  stdout (final r) = stdout st.
Proof.
  intros base Hs Hf r. subst r. rewrite promote_run. fold base.
  unfold subdir_at in Hs, Hf.
  destruct (output st !! base) as [m|] eqn:Hb; [|done].
  set (o1 := <[base := <[dir_name Screencaps := screencaps st]> m]> (output st)).
  assert (Hrun : run_ops (promotion_ops st base) st =
                 (Raise (FileExistsError (dest_path base (dir_name Faces))),
                  set_output o1 st)).
  { unfold promotion_ops.
    change (run_ops (?op :: ?l) st) with (bind (exec op) (fun _ => run_ops l) st).
    erewrite bind_ok; [|unfold exec; by rewrite Hb].
    unfold run_ops. rewrite for_each_app.
    erewrite bind_ok.
    2:{ apply copytree_ops_fresh. unfold subdir_at. by rewrite Hb. }
    rewrite Hb. cbn [default from_option]. fold o1.
    unfold copytree_ops. rewrite for_each_cons.
    erewrite bind_raise; [done|].
    unfold exec. cbn [output set_output]. subst o1.
    rewrite lookup_insert_eq. cbn [default from_option].
    unfold id. rewrite lookup_insert_ne by done. by rewrite Hf. }
  rewrite (bind_raise _ _ _ _ _ Hrun). cbn [final outcome fst snd output set_output].
  split; [done|]. subst o1. unfold subdir_at. rewrite lookup_insert_eq.
  split; [apply lookup_insert_eq|].
  split; [by rewrite lookup_insert_ne|].
  split; [|by destruct st].
  intros b Hne. by rewrite lookup_insert_ne.
Qed.

Lemma promotion_stops_at_existing_faces_witness :
  let st := mkState [] {[ "frame_0.jpg" := File small_frame ]} ∅
              {[ "clip" := {[ "faces" := ∅ ]} ]} [] in
  let r := promote "clip.mp4" st in
  outcome r = Raise (FileExistsError (dest_path "clip" (dir_name Faces))) /\
  subdir_at (output (final r)) "clip" (dir_name Screencaps) = Some (screencaps st) /\
  subdir_at (output (final r)) "clip" (dir_name Faces) = Some ∅ /\
  (forall b, b ≠ "clip" -> output (final r) !! b = output st !! b) /\
  stdout (final r) = stdout st.
Proof.
  intros st.
  apply (promotion_stops_at_existing_faces "clip.mp4" st ∅);
    vm_compute; reflexivity.
Defined.

(** ** A second run over the same input directory *)

Lemma process_video_input face_locations yolo_model mode video_file cap st :
  input (final (process_video face_locations yolo_model mode video_file cap st))
  = input st.
Proof.
  destruct (process_video_until_promote face_locations yolo_model mode video_file
              cap st) as (r & ms & mf & ->).
  destruct r as [[]|e]; [|done].
  set (st' := mkState _ _ _ _ _).
  by destruct (promote_stdout video_file st') as (r2 & o & ->).
Qed.

Lemma for_each_input {A} (l : list A) (body : A -> M unit) :
  (forall x st, input (final (body x st)) = input st) ->
  forall st, input (final (for_each l body st)) = input st.
Proof.
  intros Hbody. induction l as [|x l IH]; intros st; [done|].
  rewrite for_each_cons. unfold bind.
  specialize (Hbody x st). destruct (body x st) as [[[]|e] st1]; [|done].
  cbn [final snd] in Hbody. by rewrite IH.
Qed.

(** X11. A second run over the same input directory.  After a run of
    [process_videos] that processed at least one video and ended without
    an exception, a further run from the state it left, in whatever mode
    and with whatever detectors, ends in an exception while it
    processes the first video: it prints the start message of that video
    and nothing more, and the output hierarchy stays as the first run
    left it. *)
Theorem second_run_fails
    (face_locations face_locations' : image -> result (list face_location))
    (yolo_model yolo_model' : image -> result (list box))
    (mode mode' : string) (st st1 : state) :
  process_videos face_locations yolo_model mode st = (Ok tt, st1) ->
  (exists video_file cap, (video_file, cap) ∈ input st /\ is_video video_file = true) ->
  let r := process_videos face_locations' yolo_model' mode' st1 in
  exists video_file cap rest e,
    List.filter (fun e : string * capture => is_video e.1) (input st)
      = (video_file, cap) :: rest /\
    outcome r = Raise e /\
    stdout (final r) = stdout st1 ++ [started video_file] /\
    output (final r) = output st1.
Proof.
  intros Hrun (f & c & Hin & Hvid) r. subst r.
  assert (Hinput : input st1 = input st).
  { change st1 with (final (Ok tt, st1)). rewrite <- Hrun. unfold process_videos.
    destruct (List.filter _ (input st)); [done|].
    apply for_each_input. intros x s. apply process_video_input. }
  unfold process_videos in *. rewrite Hinput.
  destruct (List.filter (fun e : string * capture => is_video e.1) (input st))
    as [|[v cap] rest] eqn:Hvs.
  { assert (Hf : List.In (f, c) []); [|done].
    rewrite <- Hvs. apply filter_In. split; [by apply list_elem_of_In|done]. }
  exists v, cap, rest.
  rewrite for_each_cons in Hrun. cbn [fst snd] in Hrun. unfold bind in Hrun.
  destruct (process_video face_locations yolo_model mode v cap st)
    as [[[]|e] sa] eqn:Hv; [|done].
  destruct (process_video_until_promote face_locations yolo_model mode v cap st)
    as (r1 & ms & mf & H1).
  rewrite Hv in H1. destruct r1 as [[]|e1]; [|done]. symmetry in H1.
  apply promote_ok_inv in H1 as (Hsc & _). cbn [screencaps] in Hsc.
  assert (Hst1 : subdir_at (output st1) (OsPath.splitext v).1 (dir_name Screencaps)
                 = Some ms).
  { change st1 with (final (Ok tt, st1)). rewrite <- Hrun.
    apply preserves_for_each; [|done].
    intros x. apply preserves_process_video. }
  rewrite for_each_cons. cbn [fst snd].
  destruct (process_video_until_promote face_locations' yolo_model' mode' v cap st1)
    as (r2 & ms2 & mf2 & H2).
  set (st2 := mkState _ _ _ _ _) in H2.
  assert (Hp : exists e, process_video face_locations' yolo_model' mode' v cap st1
                         = (Raise e, st2)).
  { destruct r2 as [[]|e2]; [|by eauto].
    rewrite H2. erewrite promote_exists by exact Hst1. by eauto. }
  destruct Hp as (e & Hp). exists e.
  rewrite (bind_raise _ _ _ _ _ Hp). done.
Qed.

Lemma second_run_fails_witness :
  let st := mkState [("a.mp4", three_frame_capture)] ∅ ∅ ∅ [] in
  let st1 := final (process_videos (fun _ => Ok []) (fun _ => Ok []) "Anime" st) in
  let r := process_videos (fun _ => Ok []) (fun _ => Ok []) "Realistic" st1 in
  exists video_file cap rest e,
    List.filter (fun e : string * capture => is_video e.1) (input st)
      = (video_file, cap) :: rest /\
    outcome r = Raise e /\
    stdout (final r) = stdout st1 ++ [started video_file] /\
    output (final r) = output st1.
Proof.
  intros st st1.
  apply (second_run_fails (fun _ => Ok []) (fun _ => Ok []) (fun _ => Ok [])
           (fun _ => Ok []) "Anime" "Realistic" st st1).
  - vm_compute. reflexivity.
  - exists "a.mp4", three_frame_capture. split; [left|vm_compute; reflexivity].
Defined.

(** ** The regions of a video *)

Lemma only_files_video_regions face_locations yolo_model mode cap :
  only_files (video_regions face_locations yolo_model mode cap).
Proof.
  apply only_files_list_to_map.
  destruct (regions_from_spec face_locations yolo_model mode (frames_of cap) 0)
    as (Hall & _).
  eapply Forall_impl; [exact Hall|]. by intros e [_ Hf].
Qed.

(** On a frame on which the detector step ends without an exception it
    writes one file per reported region. *)
Lemma region_count_returns face_locations yolo_model mode frame :
  detector_returns face_locations yolo_model mode frame ->
  (mode = "Realistic" -> forall locations,
     face_locations (cvtColor_BGR2RGB frame) = Ok locations ->
     region_count face_locations yolo_model mode frame = length locations) /\
  (mode = "Anime" -> forall boxes,
     yolo_model frame = Ok boxes ->
     region_count face_locations yolo_model mode frame = count_conf_ge_half boxes).
Proof.
  intros Hret. specialize (Hret 0%nat). unfold detect_outcome in Hret.
  unfold region_count. split; intros -> l Hl.
  - rewrite String.eqb_refl in *. rewrite Hl in *.
    destruct (first_empty (realistic_crop frame) (numbered 0 l)) eqn:Hfe; [done|].
    by rewrite (written_all _ _ Hfe), length_numbered.
  - replace (String.eqb "Anime" "Realistic") with false in * by reflexivity.
    rewrite String.eqb_refl in *. rewrite Hl in *.
    destruct (first_empty (anime_crop frame) (kept 0 l)) eqn:Hfe; [done|].
    by rewrite (written_all _ _ Hfe), kept_length.
Qed.

(** The detector step of the examples returns on the three frames. *)
Lemma three_frames_returns frame :
  frame ∈ frames_of three_frame_capture ->
  detector_returns (fun _ => Ok []) three_candidates "Anime" frame.
Proof.
  assert (Heq : frames_of three_frame_capture = three_frames) by reflexivity.
  rewrite Heq. unfold three_frames. intros Hf fc.
  repeat (apply elem_of_cons in Hf as [->|Hf]);
    [reflexivity..|by apply elem_of_nil in Hf].
Qed.

(** X12. The results of one video.  From a workspace of regular files,
    for a video whose output directory does not exist yet and on whose
    frames the detector step does not raise (neither its library call
    nor the writing of a region: no reported region is without pixels),
    [process_video] ends without an exception and leaves: in
    "screencaps" the snapshots of all frames, in "faces" the region
    files of all frames and nothing else, both copied in full to the new
    output directory, the other output directories as they were, and the
    start and completion messages on the standard output. *)
Theorem video_results
    (face_locations : image -> result (list face_location))
    (yolo_model : image -> result (list box))
    (mode video_file : string) (cap : capture) (st : state) :
  only_files (screencaps st) -> only_files (faces st) ->
  output st !! (OsPath.splitext video_file).1 = None ->
  (forall frame, frame ∈ frames_of cap ->
     detector_returns face_locations yolo_model mode frame) ->
  process_video face_locations yolo_model mode video_file cap st =
    (Ok tt,
     mkState (input st)
       (snapshots 0 (frames_of cap))
       (video_regions face_locations yolo_model mode cap)
       (<[(OsPath.splitext video_file).1 :=
            video_output face_locations yolo_model mode cap]> (output st))
       (stdout st ++ [started video_file; completed video_file])).
Proof.
  intros Hs Hf Hfresh Hok.
  rewrite process_video_exact by done.
  destruct (processed_all face_locations yolo_model mode _ Hok 0%nat) as (Hproc & ->).
  rewrite promote_fresh by exact Hfresh.
  unfold streamed. rewrite Hproc.
  cbn [input screencaps faces output stdout]. unfold completed.
  by rewrite <- app_assoc.
Qed.

Lemma video_results_witness :
  process_video (fun _ => Ok []) three_candidates "Anime" "clip.mp4"
    three_frame_capture clip_workspace =
    (Ok tt,
     mkState []
       (snapshots 0 three_frames)
       (video_regions (fun _ => Ok []) three_candidates "Anime" three_frame_capture)
       {[ "clip" := video_output (fun _ => Ok []) three_candidates "Anime"
                      three_frame_capture ]}
       [started "clip.mp4"; completed "clip.mp4"]).
Proof.
  apply (video_results (fun _ => Ok []) three_candidates "Anime" "clip.mp4"
           three_frame_capture clip_workspace).
  - apply clip_workspace_files.
  - apply clip_workspace_files.
  - reflexivity.
  - apply three_frames_returns.
Defined.

(** X13. The number of region files of a video.  From a workspace of
    regular files, when [process_video] ends, however it ends, "faces"
    holds as many files as the detector step wrote on the frames the
    loop reached, each one a regular file named for one of these frames.
    On a frame the detector step wrote the regions reported before the
    first one without pixels; where it ended without an exception these
    are all the reported regions: in "Anime" mode the candidates with a
    confidence of at least 0.5, in "Realistic" mode the locations. *)
Theorem region_files_total
    (face_locations : image -> result (list face_location))
    (yolo_model : image -> result (list box))
    (mode video_file : string) (cap : capture) (st : state) :
  only_files (screencaps st) -> only_files (faces st) ->
  let r := process_video face_locations yolo_model mode video_file cap st in
  let reached := processed face_locations yolo_model mode 0 (frames_of cap) in
  size (faces (final r)) =
    sum_list (region_count face_locations yolo_model mode <$> reached) /\
  (forall name n,
     faces (final r) !! name = Some n ->
     (exists j, (j < length reached)%nat /\ region_name j name) /\
     exists img, n = File img) /\
  (forall frame,
     detector_returns face_locations yolo_model mode frame ->
     (mode = "Realistic" -> forall locations,
        face_locations (cvtColor_BGR2RGB frame) = Ok locations ->
        region_count face_locations yolo_model mode frame = length locations) /\
     (mode = "Anime" -> forall boxes,
        yolo_model frame = Ok boxes ->
        region_count face_locations yolo_model mode frame
        = count_conf_ge_half boxes)).
Proof.
  intros Hs Hf r reached.
  assert (Hfaces : faces (final r) =
                   video_regions face_locations yolo_model mode cap).
  { subst r. rewrite process_video_exact by done.
    destruct (stream_outcome face_locations yolo_model mode 0 (frames_of cap));
      [|done].
    set (st' := streamed _ _ _ _ _ _).
    by destruct (promote_frame video_file st') as (r' & o & l & ->). }
  rewrite Hfaces. unfold video_regions.
  destruct (regions_from_spec face_locations yolo_model mode (frames_of cap) 0)
    as (Hall & Hnd & Hlen).
  split; [|split].
  - by rewrite map_size_list_to_map.
  - intros name n Hn. apply elem_of_list_to_map_2, list_elem_of_In in Hn.
    rewrite List.Forall_forall in Hall.
    destruct (Hall _ Hn) as [(j & Hj & Hname) Himg]. split; [|done].
    exists j. split; [|done]. subst reached. lia.
  - intros frame. apply region_count_returns.
Qed.

Lemma region_files_total_witness :
  size (faces (final (process_video (fun _ => Ok []) three_candidates "Anime"
                        "clip.mp4" three_frame_capture clip_workspace))) = 6%nat.
Proof.
  destruct (region_files_total (fun _ => Ok []) three_candidates "Anime" "clip.mp4"
              three_frame_capture clip_workspace) as [Hsize _].
  - apply clip_workspace_files.
  - apply clip_workspace_files.
  - exact Hsize.
Defined.

(** X14. What the workspace held before a video does not matter.  From
    two states that differ only in the regular files of their working
    directories, [process_video] ends the same way in the same state:
    no file of an earlier video gets into the results of the next. *)
Theorem workspace_contents_irrelevant
    (face_locations : image -> result (list face_location))
    (yolo_model : image -> result (list box))
    (mode video_file : string) (cap : capture) (st st' : state) :
  only_files (screencaps st) -> only_files (faces st) ->
  only_files (screencaps st') -> only_files (faces st') ->
  input st' = input st -> output st' = output st -> stdout st' = stdout st ->
  process_video face_locations yolo_model mode video_file cap st' =
  process_video face_locations yolo_model mode video_file cap st.
Proof.
  intros Hs Hf Hs' Hf' Hi Ho Hl.
  rewrite !process_video_exact by done.
  unfold streamed. by rewrite Hi, Ho, Hl.
Qed.

Lemma workspace_contents_irrelevant_witness :
  process_video (fun _ => Ok []) three_candidates "Anime" "b.mp4"
    three_frame_capture rerun_clip_state =
  process_video (fun _ => Ok []) three_candidates "Anime" "b.mp4"
    three_frame_capture rerun_state.
Proof.
  apply (workspace_contents_irrelevant (fun _ => Ok []) three_candidates "Anime"
           "b.mp4" three_frame_capture rerun_state rerun_clip_state);
    try reflexivity.
  - apply only_files_empty.
  - apply only_files_empty.
  - apply clip_workspace_files.
  - apply clip_workspace_files.
Defined.

(** With a mode that is neither of the two, the detector step does
    nothing, whatever the detectors are. *)
Lemma stream_frames_other_mode face_locations yolo_model face_locations' yolo_model'
    mode packets :
  mode ≠ "Realistic" -> mode ≠ "Anime" ->
  forall fc st,
    stream_frames face_locations yolo_model mode packets fc st =
    stream_frames face_locations' yolo_model' mode packets fc st /\
    exists ms,
      stream_frames face_locations yolo_model mode packets fc st =
        (Ok tt, set_dir Screencaps ms st).
Proof.
  intros Hr Ha. apply String.eqb_neq in Hr, Ha.
  induction packets as [|[frame|] rest IH]; intros fc st; cbn [stream_frames];
    try (split; [done|]; exists (screencaps st); unfold ret; by destruct st).
  destruct (image_empty frame) eqn:Hframe.
  { split; [done|]. exists (screencaps st). unfold ret. by destruct st. }
  destruct (imwrite_frame Screencaps (frame_name fc) frame st) as (r & m & Hw & Hb).
  destruct (Hb Hframe) as [b ->].
  rewrite !(bind_ok _ _ _ _ _ Hw).
  unfold detect. rewrite Hr, Ha.
  erewrite !bind_ok by reflexivity.
  destruct (IH (S fc) (set_dir Screencaps m st)) as (Heq & ms & Hms).
  split; [done|]. exists ms. rewrite Hms. by rewrite set_set_dir.
Qed.

(** X15. A mode that is neither "Realistic" nor "Anime".  With such a
    mode [process_video] does not consult either detector: it ends in
    the same way and in the same state whatever the detectors would
    answer, it writes no region file ("faces" only loses files), and
    from a workspace of regular files it leaves "faces" empty and the
    snapshots of all frames in "screencaps". *)
Theorem other_mode_detects_nothing
    (face_locations face_locations' : image -> result (list face_location))
    (yolo_model yolo_model' : image -> result (list box))
    (mode video_file : string) (cap : capture) (st : state) :
  mode ≠ "Realistic" -> mode ≠ "Anime" ->
  let r := process_video face_locations yolo_model mode video_file cap st in
  process_video face_locations' yolo_model' mode video_file cap st = r /\
  faces (final r) ⊆ faces st /\
  (only_files (screencaps st) -> only_files (faces st) ->
   faces (final r) = ∅ /\ screencaps (final r) = snapshots 0 (frames_of cap)).
Proof.
  intros Hr Ha r. subst r.
  assert (Hstream : forall s,
    (if opened cap
     then stream_frames face_locations' yolo_model' mode (packets cap) 0
     else ret tt) s =
    (if opened cap
     then stream_frames face_locations yolo_model mode (packets cap) 0
     else ret tt) s /\
    exists ms,
      (if opened cap
       then stream_frames face_locations yolo_model mode (packets cap) 0
       else ret tt) s = (Ok tt, set_dir Screencaps ms s)).
  { intros s. destruct (opened cap).
    - destruct (stream_frames_other_mode face_locations yolo_model face_locations'
                  yolo_model' mode (packets cap) Hr Ha 0%nat s) as (-> & Hms).
      done.
    - split; [done|]. exists (screencaps s). unfold ret. by destruct s. }
  split; [|split].
  - unfold process_video, bind.
    destruct (print _ st) as [[[]|?] s1]; [|done].
    destruct (clear_working_directories s1) as [[[]|?] s2]; [|done].
    destruct (Hstream s2) as (-> & _). done.
  - unfold process_video. erewrite bind_ok; [|reflexivity].
    set (st1 := set_stdout _ st).
    destruct (clear_working_directories_shrinks st1) as (r2 & ms2 & mf2 & H2 & _ & Hsub).
    destruct r2 as [[]|e2]; [|by rewrite (bind_raise _ _ _ _ _ H2)].
    rewrite (bind_ok _ _ _ _ _ H2).
    set (st2 := set_dir Faces mf2 (set_dir Screencaps ms2 st1)).
    destruct (Hstream st2) as (_ & ms & Hms).
    rewrite (bind_ok _ _ _ _ _ Hms).
    set (st3 := set_dir Screencaps ms st2).
    by destruct (promote_frame video_file st3) as (r' & o & l & ->).
  - intros Hs Hf. rewrite process_video_exact by done.
    assert (Hok : forall frame, frame ∈ frames_of cap ->
              detector_returns face_locations yolo_model mode frame).
    { intros frame _ fc. unfold detect_outcome.
      apply String.eqb_neq in Hr, Ha. by rewrite Hr, Ha. }
    destruct (processed_all face_locations yolo_model mode _ Hok 0%nat)
      as (Hproc & ->).
    set (st' := streamed _ _ _ _ _ _).
    destruct (promote_frame video_file st') as (r' & o & l & ->).
    subst st'. unfold streamed. cbn [final snd faces screencaps].
    rewrite Hproc. split; [|done].
    unfold video_regions.
    assert (Hnone : forall frames fc,
              regions_from face_locations yolo_model mode fc frames = []).
    { apply String.eqb_neq in Hr, Ha.
      induction frames as [|f frames IH]; intros fc; cbn [regions_from]; [done|].
      unfold region_entries. rewrite Hr, Ha. cbn [app].
      destruct (detect_outcome face_locations yolo_model mode f fc); [|done].
      apply IH. }
    by rewrite Hnone.
Qed.

Lemma other_mode_detects_nothing_witness :
  let r := process_video (fun _ => Ok []) (fun _ => Ok []) "Sketch" "clip.mp4"
             three_frame_capture clip_workspace in
  process_video (fun _ => Raise (LibraryError "unused")) failing_model "Sketch"
    "clip.mp4" three_frame_capture clip_workspace = r /\
  faces (final r) ⊆ faces clip_workspace /\
  (only_files (screencaps clip_workspace) -> only_files (faces clip_workspace) ->
   faces (final r) = ∅ /\
   screencaps (final r) = snapshots 0 (frames_of three_frame_capture)).
Proof.
  apply (other_mode_detects_nothing (fun _ => Ok [])
           (fun _ => Raise (LibraryError "unused")) (fun _ => Ok []) failing_model
           "Sketch" "clip.mp4" three_frame_capture clip_workspace);
    discriminate.
Defined.

(** ** A batch that goes through *)

Section Batch.

Variable face_locations : image -> result (list face_location).
Variable yolo_model : image -> result (list box).
Variable mode : string.

(** The loop over videos of different base names, none of which has an
    output directory yet, on whose frames the detector step does not
    raise. *)
Lemma batch_loop (l : list (string * capture)) : forall st,
  only_files (screencaps st) -> only_files (faces st) ->
  NoDup (base_of <$> l) ->
  (forall e, e ∈ l -> output st !! base_of e = None) ->
  (forall e frame, e ∈ l -> frame ∈ frames_of e.2 ->
     detector_returns face_locations yolo_model mode frame) ->
  exists st',
    for_each l (fun e => process_video face_locations yolo_model mode e.1 e.2) st
      = (Ok tt, st') /\
    (forall e, e ∈ l ->
       output st' !! base_of e
       = Some (video_output face_locations yolo_model mode e.2)) /\
    (forall b, b ∉ base_of <$> l -> output st' !! b = output st !! b) /\
    stdout st' = stdout st ++ (l ≫= video_messages) /\
    input st' = input st /\
    only_files (screencaps st') /\ only_files (faces st') /\
    (forall e, last l = Some e ->
       screencaps st' = snapshots 0 (frames_of e.2) /\
       faces st' = video_regions face_locations yolo_model mode e.2).
Proof.
  induction l as [|[v cap] rest IH]; intros st Hs Hf Hnd Hfresh Hok.
  - exists st. rewrite for_each_nil. split; [done|].
    split; [by intros e ?%elem_of_nil|]. split; [done|].
    split; [by rewrite app_nil_r|]. done.
  - rewrite fmap_cons in Hnd. apply NoDup_cons in Hnd as [Hv Hnd].
    rewrite for_each_cons. cbn [fst snd].
    pose proof (process_video_exact face_locations yolo_model mode v cap st Hs Hf)
      as Hrun. cbv zeta in Hrun.
    destruct (processed_all face_locations yolo_model mode (frames_of cap))
      with (fc := 0%nat) as (Hproc & Hout).
    { intros frame Hframe. apply (Hok (v, cap)); [left|done]. }
    rewrite Hout, promote_fresh in Hrun by (apply (Hfresh (v, cap)); left).
    unfold streamed in Hrun. rewrite Hproc in Hrun.
    cbn [input screencaps faces output stdout] in Hrun.
    rewrite (bind_ok _ _ _ _ _ Hrun).
    set (st1 := mkState _ _ _ _ _).
    destruct (IH st1) as (st' & Hloop & Hout' & Hother & Hstd & Hin & Hs' & Hf' & Hlast).
    { apply only_files_snapshots. }
    { apply only_files_video_regions. }
    { done. }
    { intros e He. subst st1. cbn [output].
      rewrite lookup_insert_ne; [apply Hfresh; by right|].
      intros Heq. apply Hv. change (OsPath.splitext v).1 with (base_of (v, cap)) in Heq.
      rewrite Heq. apply list_elem_of_fmap. by exists e. }
    { intros e frame He. apply Hok. by right. }
    exists st'. split; [done|].
    split; [|split; [|split; [|split; [|split; [|split]]]]]; try done.
    + intros e [->|He]%elem_of_cons; [|by apply Hout'].
      rewrite Hother by done. subst st1. cbn [output base_of fst snd].
      by rewrite lookup_insert_eq.
    + intros b Hb. rewrite fmap_cons in Hb. apply not_elem_of_cons in Hb as [Hne Hb].
      rewrite Hother by done. subst st1. cbn [output].
      by rewrite lookup_insert_ne.
    + rewrite Hstd. subst st1. cbn [stdout]. unfold video_messages, completed.
      cbn [mbind list_bind fst]. rewrite <- !app_assoc. reflexivity.
    + intros e He. destruct rest as [|e' rest'].
      * injection He as <-. rewrite for_each_nil in Hloop. injection Hloop as <-.
        done.
      * by apply Hlast.
Qed.

End Batch.

(** X16. A batch that goes through.  From a workspace of regular files
    and an input directory of ASCII names,
    when the videos of the input directory have base names that differ,
    none of them has an output directory yet and the detector step
    raises on none of their frames (neither its library call nor the
    writing of a region), [process_videos] ends without an exception;
    every video has in its output directory the snapshots and the
    region files of its own frames and of no other video; the other
    output directories are as they were; the start and the completion
    message of each video are printed in the order of the listing; and
    the working directories are left with the files of the last
    video. *)
Theorem batch_results
    (face_locations : image -> result (list face_location))
    (yolo_model : image -> result (list box))
    (mode : string) (st : state) :
  let videos := List.filter (fun e : string * capture => is_video e.1) (input st) in
  (forall f cap, (f, cap) ∈ input st -> PyStr.is_ascii f = true) ->
  only_files (screencaps st) -> only_files (faces st) ->
  videos ≠ [] ->
  NoDup (base_of <$> videos) ->
  (forall e, e ∈ videos -> output st !! base_of e = None) ->
  (forall e frame, e ∈ videos -> frame ∈ frames_of e.2 ->
     detector_returns face_locations yolo_model mode frame) ->
  let r := process_videos face_locations yolo_model mode st in
  outcome r = Ok tt /\
  (forall e, e ∈ videos ->
     output (final r) !! base_of e
     = Some (video_output face_locations yolo_model mode e.2)) /\
  (forall b, b ∉ base_of <$> videos -> output (final r) !! b = output st !! b) /\
  stdout (final r) = stdout st ++ (videos ≫= video_messages) /\
  input (final r) = input st /\
  (forall e, last videos = Some e ->
     screencaps (final r) = snapshots 0 (frames_of e.2) /\
     faces (final r) = video_regions face_locations yolo_model mode e.2).
Proof.
  intros videos _ Hs Hf Hne Hnd Hfresh Hok r.
  destruct (batch_loop face_locations yolo_model mode videos st Hs Hf Hnd Hfresh Hok)
    as (st' & Hloop & Hout & Hother & Hstd & Hin & _ & _ & Hlast).
  assert (Hr : r = (Ok tt, st')).
  { subst r. unfold process_videos. fold videos.
    destruct videos; [done|exact Hloop]. }
  rewrite Hr. cbn [outcome final fst snd]. done.
Qed.

Lemma batch_results_witness :
  let r := process_videos (fun _ => Ok []) three_candidates "Anime" two_video_state in
  outcome r = Ok tt /\
  output (final r) !! "a"
    = Some (video_output (fun _ => Ok []) three_candidates "Anime"
              three_frame_capture) /\
  output (final r) !! "b"
    = Some (video_output (fun _ => Ok []) three_candidates "Anime"
              (mkCapture true [Some small_frame])) /\
  stdout (final r) =
    [started "a.mp4"; completed "a.mp4"; started "b.MKV"; completed "b.MKV"] /\
  screencaps (final r) = snapshots 0 [small_frame].
Proof.
  intros r.
  destruct (batch_results (fun _ => Ok []) three_candidates "Anime" two_video_state)
    as (Hok & Hout & _ & Hstd & _ & Hlast).
  - intros f cap Hin. cbn [input two_video_state] in Hin.
    repeat (apply elem_of_cons in Hin as [Hin|Hin]; [by injection Hin as -> _|]).
    by apply elem_of_nil in Hin.
  - apply only_files_empty.
  - apply only_files_empty.
  - discriminate.
  - vm_compute. apply NoDup_cons. split; [|apply NoDup_singleton].
    intros Hin%list_elem_of_singleton. discriminate.
  - intros e He. vm_compute in He.
    apply elem_of_cons in He as [->|He]; [reflexivity|].
    apply list_elem_of_singleton in He as ->. reflexivity.
  - intros e frame He Hframe.
    assert (Hvideos :
      List.filter (fun e : string * capture => is_video e.1) (input two_video_state)
      = [("a.mp4", three_frame_capture);
         ("b.MKV", mkCapture true [Some small_frame])]) by reflexivity.
    rewrite Hvideos in He.
    apply elem_of_cons in He as [->|He]; [by apply three_frames_returns|].
    apply list_elem_of_singleton in He as ->.
    assert (Hframes : frames_of (mkCapture true [Some small_frame]) = [small_frame])
      by reflexivity.
    cbn [snd] in Hframe. rewrite Hframes in Hframe.
    apply list_elem_of_singleton in Hframe as ->. intros fc. reflexivity.
  - split; [exact Hok|].
    split; [apply (Hout ("a.mp4", three_frame_capture)); left|].
    split; [apply (Hout ("b.MKV", mkCapture true [Some small_frame])); right; left|].
    split; [exact Hstd|].
    apply (Hlast ("b.MKV", mkCapture true [Some small_frame])). reflexivity.
Defined.

(** ** The result of the generic detector *)

Lemma numbered_lookup {A} (l : list A) : forall i k,
  numbered i l !! k = (fun x => ((i + k)%nat, x)) <$> l !! k.
Proof.
  induction l as [|x l IH]; intros i k; [done|]. cbn [numbered].
  destruct k as [|k]; cbn.
  - by rewrite Nat.add_0_r.
  - rewrite IH. by replace (S i + k)%nat with (i + S k)%nat by lia.
Qed.

(** The first crop without pixels, by its position in the list. *)
Lemma first_empty_numbered {A} (crop_of : A -> image) (l : list A) : forall i k x,
  l !! k = Some x -> image_empty (crop_of x) = true ->
  (forall j y, (j < k)%nat -> l !! j = Some y -> image_empty (crop_of y) = false) ->
  first_empty crop_of (numbered i l) = Some ((i + k)%nat, x) /\
  written crop_of (numbered i l) = numbered i (take k l).
Proof.
  induction l as [|y l IH]; intros i k x Hk Hx Hbefore; [done|].
  cbn [numbered first_empty written snd]. destruct k as [|k].
  - injection Hk as ->. rewrite Hx, Nat.add_0_r. done.
  - rewrite (Hbefore 0%nat y) by (lia || done).
    destruct (IH (S i) k x Hk Hx) as [-> ->].
    { intros j z Hj Hz. apply (Hbefore (S j) z); [lia|done]. }
    cbn [take numbered]. by replace (S i + k)%nat with (i + S k)%nat by lia.
Qed.

(** The files of the locations before position [k], whatever was in
    [faces/]. *)
Lemma realistic_taken_lookup frame fc (locs : list face_location)
    (m : gmap string node) k j :
  (list_to_map (realistic_entry frame fc <$> numbered 0 (take k locs)) ∪ m)
    !! realistic_face_name fc j =
  match take k locs !! j with
  | Some loc => Some (File (realistic_crop frame loc))
  | None => m !! realistic_face_name fc j
  end.
Proof.
  pose proof (realistic_entries_NoDup frame fc 0 (take k locs)) as Hnd.
  destruct (take k locs !! j) as [loc|] eqn:Hj.
  - apply lookup_union_Some_l. apply elem_of_list_to_map; [done|].
    apply list_elem_of_fmap. exists (j, loc). split; [done|].
    apply elem_of_numbered. by exists j.
  - apply lookup_union_r, not_elem_of_list_to_map_1.
    rewrite <- list_fmap_compose.
    intros ([j' b'] & Hn & Hin)%list_elem_of_fmap. cbn in Hn.
    apply realistic_face_name_inj in Hn as <-.
    apply elem_of_numbered in Hin as (i & -> & Hi). cbn in Hj. congruence.
Qed.

(** X17. The result of [detect_faces_realistic].  When the library
    raises, the exception leaves the function and nothing is written.
    When it answers with [locations] and the crop of each of them holds
    a pixel, the function returns one path per location, in order, the
    path of [realistic_face_<frame>_<j>.jpg] in the directory "faces"
    for the location at position [j]; and in a directory of regular
    files the file at that path holds, after the call, the rows top to
    bottom and the columns left to right of the frame as it was passed
    in, whether or not a file of that name was there before, and nothing
    but [faces/] has changed.  When the location at position [k] is the
    first one whose crop holds no pixel, the function ends with the
    [cv2.error] of [cv2.imwrite] for the file of ordinal [k]; in a
    directory of regular files the files of the locations before it are
    written as in the first case, the files of the other ordinals are as
    they were, and nothing but [faces/] has changed. *)
Theorem realistic_detector_result
    (face_locations : image -> result (list face_location))
    (frame : image) (frame_count : nat) (st : state)
    (answer : result (list face_location)) :
  face_locations (cvtColor_BGR2RGB frame) = answer ->
  let r := detect_faces_realistic face_locations frame frame_count st in
  match answer with
  | Raise e => r = (Raise e, st)
  | Ok locations =>
      ((forall loc, loc ∈ locations ->
          image_empty (realistic_crop frame loc) = false) ->
       exists paths,
         outcome r = Ok paths /\
         length paths = length locations /\
         (forall j, (j < length locations)%nat ->
            paths !! j
            = Some (OsPath.join faces_dir (realistic_face_name frame_count j))) /\
         (only_files (faces st) ->
          (forall j top right' bottom left',
             locations !! j = Some (top, right', bottom, left') ->
             faces (final r) !! realistic_face_name frame_count j
             = Some (File (crop frame top bottom left' right'))) /\
          final r = set_dir Faces (faces (final r)) st)) /\
      (forall k loc,
         locations !! k = Some loc ->
         image_empty (realistic_crop frame loc) = true ->
         (forall j loc', (j < k)%nat -> locations !! j = Some loc' ->
            image_empty (realistic_crop frame loc') = false) ->
         outcome r
         = Raise (Cv2Error
                    (OsPath.join faces_dir (realistic_face_name frame_count k))) /\
         (only_files (faces st) ->
          (forall j top right' bottom left',
             (j < k)%nat ->
             locations !! j = Some (top, right', bottom, left') ->
             faces (final r) !! realistic_face_name frame_count j
             = Some (File (crop frame top bottom left' right'))) /\
          (forall j, (k <= j)%nat ->
             faces (final r) !! realistic_face_name frame_count j
             = faces st !! realistic_face_name frame_count j) /\
          final r = set_dir Faces (faces (final r)) st))
  end.
Proof.
  intros Hanswer r. subst r. unfold detect_faces_realistic.
  destruct answer as [locations|e].
  2:{ erewrite bind_raise; [done|]. unfold lift. by rewrite Hanswer. }
  erewrite bind_ok; [|unfold lift; by rewrite Hanswer].
  split.
  - intros Hok.
    assert (Hnone : first_empty (realistic_crop frame) (numbered 0 locations) = None).
    { apply first_empty_None. intros [j loc] (i & _ & Hi)%elem_of_numbered.
      apply Hok. by eapply list_elem_of_lookup_2. }
    exists (realistic_path frame_count <$> numbered 0 locations).
    split.
    { destruct (realistic_loop_returns frame frame_count locations 0%nat [] st)
        as [st' ->]. by rewrite Hnone. }
    split; [by rewrite length_fmap, length_numbered|].
    split.
    { intros j Hj. apply lookup_lt_is_Some in Hj as [loc Hloc].
      by rewrite list_lookup_fmap, numbered_lookup, Hloc. }
    intros Hof. rewrite realistic_loop_spec.
    2:{ intros j _. by apply only_files_no_subdir. }
    cbn [final snd]. rewrite faces_set_dir. split; [|done].
    intros j top right' bottom left' Hloc.
    rewrite (written_all _ _ Hnone).
    assert (Ht : take (length locations) locations = locations) by apply firstn_all.
    rewrite <- Ht at 1. rewrite realistic_taken_lookup, Ht.
    unfold face_location in *. by rewrite Hloc.
  - intros k loc Hk Hempty Hbefore.
    destruct (first_empty_numbered (realistic_crop frame) locations 0 k loc Hk Hempty
                Hbefore) as [Hfirst Hwritten].
    split.
    { destruct (realistic_loop_returns frame frame_count locations 0%nat [] st)
        as [st' ->]. by rewrite Hfirst. }
    intros Hof. rewrite realistic_loop_spec.
    2:{ intros j _. by apply only_files_no_subdir. }
    cbn [final snd]. rewrite faces_set_dir, Hwritten. split; [|split; [|done]].
    + intros j top right' bottom left' Hj Hloc.
      rewrite realistic_taken_lookup, lookup_take, decide_True by done.
      unfold face_location in *. by rewrite Hloc.
    + intros j Hj.
      rewrite realistic_taken_lookup, lookup_take, decide_False by lia. done.
Qed.

Lemma realistic_detector_result_witness :
  let st := mkState [] ∅ {[ realistic_face_name 3 0 := File [] ]} ∅ [] in
  (let r := detect_faces_realistic (fun _ => Ok two_locations) small_frame 3 st in
   exists paths,
     outcome r = Ok paths /\
     length paths = 2%nat /\
     (forall j, (j < 2)%nat ->
        paths !! j = Some (OsPath.join faces_dir (realistic_face_name 3 j)))) /\
  outcome (detect_faces_realistic (fun _ => Ok [(0, 1, 1, 0); (1, 1, 1, 0)])
             small_frame 3 st)
  = Raise (Cv2Error (OsPath.join faces_dir (realistic_face_name 3 1))).
Proof.
  intros st. split.
  - intros r.
    pose proof (realistic_detector_result (fun _ => Ok two_locations) small_frame 3 st
                  (Ok two_locations) eq_refl) as H.
    cbv beta iota zeta in H. destruct H as [Hall _].
    destruct Hall as (paths & Hpaths & Hlen & Hlookup & _).
    { intros loc Hloc. repeat (apply elem_of_cons in Hloc as [->|Hloc]);
        [reflexivity..|by apply elem_of_nil in Hloc]. }
    exists paths. split; [exact Hpaths|]. split; [exact Hlen|exact Hlookup].
  - pose proof (realistic_detector_result
                  (fun _ => Ok [(0, 1, 1, 0); (1, 1, 1, 0)]) small_frame 3 st
                  (Ok [(0, 1, 1, 0); (1, 1, 1, 0)]) eq_refl) as H.
    cbv beta iota zeta in H. destruct H as [_ Hfirst].
    destruct (Hfirst 1%nat (1, 1, 1, 0)) as [Hraise _].
    + reflexivity.
    + reflexivity.
    + intros j loc' Hj Hloc. destruct j as [|j]; [|lia].
      injection Hloc as <-. reflexivity.
    + exact Hraise.
Defined.

(** ** The videos of the input directory *)

(** X18. Which entries are videos.  In an input directory of ASCII
    names, the list [video_files] of [process_videos] holds the entries
    whose name ends, letter case apart, in .mp4, .avi or .mkv, each as
    often as it is listed and in the order of the listing; a name of
    fewer than four characters is never one of them. *)
Theorem video_files_selected (st : state) :
  (forall f cap, (f, cap) ∈ input st -> PyStr.is_ascii f = true) ->
  let video_files :=
    List.filter (fun e : string * capture => is_video e.1) (input st) in
  video_files `sublist_of` input st /\
  (forall f cap,
     (f, cap) ∈ video_files <->
     (f, cap) ∈ input st /\
     (has_extension f ".mp4" \/ has_extension f ".avi" \/ has_extension f ".mkv")) /\
  (forall e, e ∈ video_files -> (4 <= String.length e.1)%nat) /\
  (forall e, e ∈ input st -> e ∉ video_files -> is_video e.1 = false).
Proof.
  intros _ video_files. subst video_files.
  split; [|split; [|split]].
  - induction (input st) as [|e l IH]; [done|]. cbn [List.filter].
    destruct (is_video e.1); [by apply sublist_skip|by apply sublist_cons].
  - intros f cap. rewrite <- is_video_spec, !list_elem_of_In, filter_In. done.
  - intros [f cap] Hin. apply list_elem_of_In, filter_In in Hin as [_ Hv].
    cbn [fst] in *. apply is_video_spec in Hv.
    assert (Hlen : forall ext, String.length ext = 4%nat -> has_extension f ext ->
                               (4 <= String.length f)%nat).
    { intros ext Hext (pre & suf & -> & Hs).
      rewrite length_app_string.
      assert (String.length (PyStr.lower suf) = String.length suf) as Hl.
      { clear. induction suf as [|c s IH]; [done|]. cbn. by rewrite IH. }
      rewrite Hs, Hext in Hl. lia. }
    destruct Hv as [H|[H|H]]; eapply Hlen; try exact H; reflexivity.
  - intros e Hin Hnot. destruct (is_video e.1) eqn:Hv; [|done].
    destruct Hnot. apply list_elem_of_In, filter_In. split; [|done].
    by apply list_elem_of_In.
Qed.

Lemma video_files_selected_witness :
  (forall f cap, (f, cap) ∈ input two_video_state -> PyStr.is_ascii f = true) /\
  List.filter (fun e : string * capture => is_video e.1) (input two_video_state)
    `sublist_of` input two_video_state /\
  (("b.MKV", mkCapture true [Some small_frame]) ∈
     List.filter (fun e : string * capture => is_video e.1) (input two_video_state) <->
   ("b.MKV", mkCapture true [Some small_frame]) ∈ input two_video_state /\
   (has_extension "b.MKV" ".mp4" \/ has_extension "b.MKV" ".avi" \/
    has_extension "b.MKV" ".mkv")).
Proof.
  assert (Hascii : forall f cap,
            (f, cap) ∈ input two_video_state -> PyStr.is_ascii f = true).
  { intros f cap Hin. cbn [input two_video_state] in Hin.
    repeat (apply elem_of_cons in Hin as [Hin|Hin]; [by injection Hin as -> _|]).
    by apply elem_of_nil in Hin. }
  split; [exact Hascii|].
  pose proof (video_files_selected two_video_state Hascii) as H.
  cbv zeta in H. destruct H as (Hsub & Hiff & _).
  split; [exact Hsub|].
  apply (Hiff "b.MKV" (mkCapture true [Some small_frame])).
Defined.

(** ** A video that cannot be opened *)

(** X19. A video that cannot be opened, or that yields no frame.  When
    the capture is not opened or its first packet does not decode, from
    a workspace of regular files and for an output directory that does
    not exist yet, [process_video] raises nothing and consults no
    detector: it creates the output directory with an empty
    "screencaps" and an empty "faces", leaves the working directories
    empty and prints the completion message as for any other video. *)
Theorem video_without_frames
    (face_locations : image -> result (list face_location))
    (yolo_model : image -> result (list box))
    (mode video_file : string) (cap : capture) (st : state) :
  opened cap = false \/ head (packets cap) = Some None \/ packets cap = [] ->
  only_files (screencaps st) -> only_files (faces st) ->
  output st !! (OsPath.splitext video_file).1 = None ->
  process_video face_locations yolo_model mode video_file cap st =
    (Ok tt,
     mkState (input st) ∅ ∅
       (<[(OsPath.splitext video_file).1 :=
            {[ dir_name Faces := ∅; dir_name Screencaps := ∅ ]}]> (output st))
       (stdout st ++ [started video_file; completed video_file])).
Proof.
  intros Hcap Hs Hf Hfresh.
  assert (Hframes : frames_of cap = []).
  { unfold frames_of. destruct Hcap as [->|[Hp| ->]]; [done| |by destruct (opened cap)].
    destruct (packets cap) as [|[frame|] rest]; [done..|]. by destruct (opened cap). }
  rewrite process_video_exact by done.
  unfold streamed, video_regions. rewrite Hframes.
  cbn [stream_outcome processed regions_from].
  rewrite promote_fresh by exact Hfresh.
  cbn [input screencaps faces output stdout].
  unfold snapshots. cbn [numbered fmap list_fmap list_to_map foldr].
  unfold completed. rewrite <- app_assoc. rewrite insert_empty. reflexivity.
Qed.

Lemma video_without_frames_witness :
  process_video (fun _ => Raise (LibraryError "unused")) failing_model "Realistic"
    "broken.avi" (mkCapture false [Some small_frame]) clip_workspace =
    (Ok tt,
     mkState [] ∅ ∅
       {[ "broken" := {[ dir_name Faces := ∅; dir_name Screencaps := ∅ ]} ]}
       [started "broken.avi"; completed "broken.avi"]).
Proof.
  apply (video_without_frames (fun _ => Raise (LibraryError "unused")) failing_model
           "Realistic" "broken.avi" (mkCapture false [Some small_frame])
           clip_workspace).
  - left. reflexivity.
  - apply clip_workspace_files.
  - apply clip_workspace_files.
  - reflexivity.
Defined.
